(** * WAHA channel adapter: target normalizer, account resolver,
      webhook ingestion endpoint, access control and outbound dispatch.

    Shallow embedding of
      - normalize.ts: e164ToChatId, chatIdToE164, normalizeWahaTarget,
        normalizeWahaAllowEntry;
      - accounts.ts: normalizeAccountId, listWahaAccountIds,
        resolveWahaAccount, isWahaAccountConfigured;
      - the webhook handler: validateWahaHmac and the request handler built
        by registerWahaWebhookHandler;
      - the provider monitor: checkInboundAccessControl, buildMsgContext and
        the handleMessage callback of monitorWahaProvider;
      - channel.ts: wahaPlugin.outbound.sendPayload.

    A JavaScript string is the list of its UTF-16 code units; an optional
    property is an [option]; an object used as a map is an association
    list in [Object.keys] order.  Effects are recorded in a trace by a
    small state-and-exception monad.  The host runtime, the crypto library,
    the JSON parser and the remote service are parameters. *)

From Stdlib Require Import NArith Ascii String List Bool Lia.
From stdpp Require Import base decidable option list gmap.

Local Open Scope N_scope.
Set Default Proof Using "Type".

(** ** JavaScript strings *)

Module JsString.

Abbreviation jsstring := (list N).

(** A literal: every character of the Rocq string becomes one code unit. *)
Definition js (s : string) : jsstring :=
  List.map N_of_ascii (list_ascii_of_string s).

(** WhiteSpace and LineTerminator code units, the set removed by
    [String.prototype.trim]. *)
Definition isWhiteSpace (c : N) : bool :=
  ((9 <=? c) && (c <=? 13)) || (c =? 32) || (c =? 160) || (c =? 5760)
  || ((8192 <=? c) && (c <=? 8202)) || (c =? 8232) || (c =? 8233)
  || (c =? 8239) || (c =? 8287) || (c =? 12288) || (c =? 65279).

(** [\d] without the unicode flag: ASCII digits only. *)
Definition isDigit (c : N) : bool := (48 <=? c) && (c <=? 57).

Fixpoint drop_while (p : N -> bool) (s : jsstring) : jsstring :=
  match s with
  | [] => []
  | c :: r => if p c then drop_while p r else s
  end.

Fixpoint take_while (p : N -> bool) (s : jsstring) : jsstring :=
  match s with
  | [] => []
  | c :: r => if p c then c :: take_while p r else []
  end.

Definition trimStart (s : jsstring) : jsstring := drop_while isWhiteSpace s.
Definition trimEnd (s : jsstring) : jsstring := rev (trimStart (rev s)).
Definition trim (s : jsstring) : jsstring := trimEnd (trimStart s).

(** [s.startsWith(p)] *)
Fixpoint startsWith (p s : jsstring) : bool :=
  match p, s with
  | [], _ => true
  | a :: p', b :: s' => (a =? b) && startsWith p' s'
  | _ :: _, [] => false
  end.

(** [s.endsWith(p)] *)
Definition endsWith (p s : jsstring) : bool := startsWith (rev p) (rev s).

(** Case folding of the [i] flag (no unicode flag): a code unit of 128 or
    more never folds onto an ASCII letter, so only the two ASCII cases of
    a letter match it. *)
Definition foldCase (c : N) : N :=
  if (97 <=? c) && (c <=? 122) then c - 32 else c.

Definition eqb_ci (a b : N) : bool := foldCase a =? foldCase b.

(** The pattern [p], taken case-insensitively, matches at the start of [s]. *)
Fixpoint startsWith_ci (p s : jsstring) : bool :=
  match p, s with
  | [], _ => true
  | a :: p', b :: s' => eqb_ci a b && startsWith_ci p' s'
  | _ :: _, [] => false
  end.

(** The pattern [p], taken case-insensitively, matches the whole of [s]. *)
Definition equals_ci (p s : jsstring) : bool :=
  (length p =? length s)%nat && startsWith_ci p s.

(** [s.replace(/\D/g, "")] *)
Definition digitsOf (s : jsstring) : jsstring := List.filter isDigit s.

(** Truthiness of a string: non-empty. *)
Definition truthy (s : jsstring) : bool :=
  match s with [] => false | _ => true end.

(** [a === b] on strings. *)
Definition streq (a b : jsstring) : bool := bool_decide (a = b).

End JsString.

Export JsString.

(** ** normalize.ts *)

Definition PLUS : N := 43.

(** [s.replace(/^waha:(?:user:|group:)?/i, "")] *)
Definition stripWahaPrefix (s : jsstring) : jsstring :=
  if startsWith_ci (js "waha:") s then
    let r := drop 5 s in
    if startsWith_ci (js "user:") r then drop 5 r
    else if startsWith_ci (js "group:") r then drop 6 r
    else r
  else s.

(** [s.match(/^(\d+)@c\.us$/i)], returning capture group 1. *)
Definition matchDigitsCUs (s : jsstring) : option jsstring :=
  let d := take_while isDigit s in
  if truthy d && equals_ci (js "@c.us") (drop_while isDigit s)
  then Some d else None.

Definition e164ToChatId (e164 : jsstring) : jsstring :=
  let digits := digitsOf e164 in
  if negb (truthy digits) then e164
  else digits ++ js "@c.us".

Definition chatIdToE164 (chatId : jsstring) : jsstring :=
  match matchDigitsCUs chatId with
  | Some m1 => PLUS :: m1
  | None =>
      if startsWith (js "+") chatId then chatId
      else
        let digits := digitsOf chatId in
        if truthy digits then PLUS :: digits
        else chatId
  end.

Definition isGroupChatId (chatId : jsstring) : bool :=
  endsWith (js "@g.us") chatId || endsWith (js "@newsletter") chatId.

Definition isDirectChatId (chatId : jsstring) : bool :=
  endsWith (js "@c.us") chatId.

Definition hasWahaSuffix (s : jsstring) : bool :=
  endsWith (js "@c.us") s || endsWith (js "@g.us") s
  || endsWith (js "@newsletter") s.

Definition normalizeWahaTarget (target : jsstring) : jsstring :=
  let trimmed := trim target in
  let stripped := stripWahaPrefix trimmed in
  if hasWahaSuffix stripped then stripped
  else if startsWith (js "+") stripped then e164ToChatId stripped
  else
    let digits := digitsOf stripped in
    if truthy digits && streq digits stripped then digits ++ js "@c.us"
    else stripped.

(** Normalize an allowFrom entry (phone number or chat id). *)
Definition normalizeWahaAllowEntry (entry : jsstring) : jsstring :=
  let trimmed := trim entry in
  let stripped := stripWahaPrefix trimmed in
  match matchDigitsCUs stripped with
  | Some m1 => PLUS :: m1
  | None =>
      if startsWith (js "+") stripped then stripped
      else
        let digits := digitsOf stripped in
        if truthy digits && streq digits stripped then PLUS :: digits
        else stripped
  end.

(** The remainder [stripped] that [normalizeWahaTarget] classifies, and the
    two ways in which it can still be dirty: leading white space (the
    prefix was removed after trimming) or a second scheme prefix. *)
Definition strippedOf (target : jsstring) : jsstring :=
  stripWahaPrefix (trim target).

Definition startsWithSpace (s : jsstring) : bool :=
  match s with c :: _ => isWhiteSpace c | [] => false end.

Definition hasWahaPrefix (s : jsstring) : bool := startsWith_ci (js "waha:") s.

Definition cleanRemainder (s : jsstring) : bool :=
  negb (startsWithSpace s) && negb (hasWahaPrefix s).

Definition allDigits (s : jsstring) : Prop :=
  Forall (fun c => isDigit c = true) s.

(** Truthiness of an optional string property: present and non-empty. *)
Definition truthyOpt (o : option jsstring) : bool :=
  match o with Some s => truthy s | None => false end.

(** [a ?? b] *)
Definition nullish {A} (a : option A) (b : A) : A :=
  match a with Some v => v | None => b end.

(** [a ?? b] when [b] may itself be undefined; also the value of a
    property after the spread [{...b, ...a}]. *)
Definition nullishOpt {A} (a b : option A) : option A :=
  match a with Some _ => a | None => b end.

(** A JavaScript object used as a map: its own enumerable properties in
    [Object.keys] order.  The keys of an object are pairwise distinct. *)
Definition lookupKey {V} (k : jsstring) (o : list (jsstring * V)) : option V :=
  snd <$> List.find (fun kv => streq (fst kv) k) o.

Definition Object_keys {V} (o : list (jsstring * V)) : list jsstring :=
  List.map fst o.

(** [arr.includes(x)] on an array of strings *)
Definition includes (arr : list jsstring) (x : jsstring) : bool :=
  existsb (fun y => streq y x) arr.

(** ** types.ts *)

Inductive DmPolicy := DmOpen | DmAllowlist | DmPairing | DmDisabled.
Inductive GroupPolicy := GroupOpen | GroupAllowlist | GroupDisabled.

(** A thrown value, and the ways in which a computation can end: with a
    value, with a thrown error (a rejected promise), or never. *)
Record JsError := { errName : jsstring; errMessage : jsstring }.

(** [new Error(msg)] *)
Definition Error (msg : jsstring) : JsError :=
  {| errName := js "Error"; errMessage := msg |}.

(** [String(err)], that is [Error.prototype.toString]: the message alone
    when the name is empty, the name alone when the message is empty. *)
Definition String_of_error (err : JsError) : jsstring :=
  if negb (truthy (errName err)) then errMessage err
  else if negb (truthy (errMessage err)) then errName err
  else errName err ++ js ": " ++ errMessage err.

Inductive Outcome (A : Type) :=
  | Ok (a : A)
  | Throw (e : JsError)
  | Hang.

Arguments Ok {A} a.
Arguments Throw {A} e.
Arguments Hang {A}.

Section Adapter.

(** JavaScript numbers are kept abstract; the adapter only ever renders
    them with [String(n)]. *)
Variable number : Type.
Variable Number_toString : number -> jsstring.

(** The reserved default-account id exported by the plugin SDK. *)
Variable DEFAULT_ACCOUNT_ID : jsstring.

(** An element of [Array<string | number>]. *)
Inductive AllowEntry :=
  | EntryString (s : jsstring)
  | EntryNumber (n : number).

(** [String(e)] *)
Definition String_of_entry (e : AllowEntry) : jsstring :=
  match e with
  | EntryString s => s
  | EntryNumber n => Number_toString n
  end.

(** An absent property is [None]. *)
Record WahaAccountConfig := {
  ac_enabled : option bool;
  ac_session : option jsstring;
  ac_name : option jsstring;
  ac_allowFrom : option (list AllowEntry);
  ac_groupAllowFrom : option (list AllowEntry);
  ac_dmPolicy : option DmPolicy;
  ac_groupPolicy : option GroupPolicy;
  ac_mediaMaxMb : option number;
  ac_webhookPath : option jsstring;
}.

Record WahaConfig := {
  wc_enabled : option bool;
  wc_url : option jsstring;
  wc_apiKey : option jsstring;
  wc_session : option jsstring;
  wc_name : option jsstring;
  wc_webhookPath : option jsstring;
  wc_hmacKey : option jsstring;
  wc_allowFrom : option (list AllowEntry);
  wc_groupAllowFrom : option (list AllowEntry);
  wc_dmPolicy : option DmPolicy;
  wc_groupPolicy : option GroupPolicy;
  wc_mediaMaxMb : option number;
  wc_accounts : option (list (jsstring * WahaAccountConfig));
}.

(** [{} as WahaConfig] *)
Definition emptyWahaConfig : WahaConfig :=
  {| wc_enabled := None; wc_url := None; wc_apiKey := None;
     wc_session := None; wc_name := None; wc_webhookPath := None;
     wc_hmacKey := None; wc_allowFrom := None; wc_groupAllowFrom := None;
     wc_dmPolicy := None; wc_groupPolicy := None; wc_mediaMaxMb := None;
     wc_accounts := None |}.

(** The part of [OpenClawConfig] the adapter reads. *)
Record ChannelsConfig := { waha : option WahaConfig }.
Record OpenClawConfig := { channels : option ChannelsConfig }.

(** [session] is declared a string; for a named account it is whatever the
    account entry holds, possibly undefined. *)
Record ResolvedWahaAccount := {
  ra_accountId : jsstring;
  ra_name : option jsstring;
  ra_enabled : bool;
  ra_url : jsstring;
  ra_apiKey : jsstring;
  ra_session : option jsstring;
  ra_hmacKey : option jsstring;
  ra_config : WahaConfig;
}.

(** ** accounts.ts *)

Definition normalizeAccountId (accountId : option jsstring) : jsstring :=
  match accountId with
  | None => DEFAULT_ACCOUNT_ID
  | Some a =>
      if negb (truthy a) || streq a (js "default") || streq a DEFAULT_ACCOUNT_ID
      then DEFAULT_ACCOUNT_ID
      else a
  end.

(** [cfg.channels?.waha] *)
Definition getWahaConfig (cfg : OpenClawConfig) : option WahaConfig :=
  match channels cfg with
  | Some ch => waha ch
  | None => None
  end.

(** [wahaConfig.url && wahaConfig.apiKey && wahaConfig.session] *)
Definition defaultCredentialed (wahaConfig : WahaConfig) : bool :=
  truthyOpt (wc_url wahaConfig) && truthyOpt (wc_apiKey wahaConfig)
  && truthyOpt (wc_session wahaConfig).

(** One turn of the loop over [Object.keys(wahaConfig.accounts)]. *)
Definition pushIfNew (accountIds : list jsstring) (accountId : jsstring)
  : list jsstring :=
  if negb (includes accountIds accountId) then accountIds ++ [accountId]
  else accountIds.

Definition listWahaAccountIds (cfg : OpenClawConfig) : list jsstring :=
  match getWahaConfig cfg with
  | None => []
  | Some wahaConfig =>
      let accountIds :=
        if defaultCredentialed wahaConfig then [DEFAULT_ACCOUNT_ID] else [] in
      match wc_accounts wahaConfig with
      | Some accounts => fold_left pushIfNew (Object_keys accounts) accountIds
      | None => accountIds
      end
  end.

Definition resolveDefaultWahaAccountId (cfg : OpenClawConfig) : jsstring :=
  match getWahaConfig cfg with
  | None => DEFAULT_ACCOUNT_ID
  | Some wahaConfig =>
      if defaultCredentialed wahaConfig then DEFAULT_ACCOUNT_ID
      else
        match wc_accounts wahaConfig with
        | Some accounts =>
            match Object_keys accounts with
            | firstAccountId :: _ =>
                if truthy firstAccountId then firstAccountId
                else DEFAULT_ACCOUNT_ID
            | [] => DEFAULT_ACCOUNT_ID
            end
        | None => DEFAULT_ACCOUNT_ID
        end
  end.

(** [{}] as an account entry *)
Definition emptyAccountConfig : WahaAccountConfig :=
  {| ac_enabled := None; ac_session := None; ac_name := None;
     ac_allowFrom := None; ac_groupAllowFrom := None; ac_dmPolicy := None;
     ac_groupPolicy := None; ac_mediaMaxMb := None; ac_webhookPath := None |}.

(** The accounts object is an ordinary object, so a property read on it
    also finds what it inherits from [Object.prototype].  For a key that
    names a member of [Object.prototype] the result is the [name] property
    of that member: the methods are functions named after their key,
    [constructor] is the function [Object], and [__proto__] reads as
    [Object.prototype] itself, which has no [name]. *)
Definition objectPrototypeMember (key : jsstring) : option (option jsstring) :=
  if streq key (js "constructor") then Some (Some (js "Object"))
  else if streq key (js "__proto__") then Some None
  else if includes
            [js "toString"; js "toLocaleString"; js "valueOf";
             js "hasOwnProperty"; js "isPrototypeOf";
             js "propertyIsEnumerable"; js "__defineGetter__";
             js "__defineSetter__"; js "__lookupGetter__";
             js "__lookupSetter__"] key
       then Some (Some key)
  else None.

(** What [accounts[id]] evaluates to when it is not undefined: an own
    entry of the accounts object, or a member inherited from
    [Object.prototype], of which only the [name] can be told. *)
Inductive AccountProperty :=
  | OwnEntry (accountConfig : WahaAccountConfig)
  | InheritedMember (name : option jsstring).

(** The properties a read such as [accountConfig.session] finds. *)
Definition propertiesOf (accountConfig : AccountProperty) : WahaAccountConfig :=
  match accountConfig with
  | OwnEntry entry => entry
  | InheritedMember name =>
      {| ac_enabled := None; ac_session := None; ac_name := name;
         ac_allowFrom := None; ac_groupAllowFrom := None; ac_dmPolicy := None;
         ac_groupPolicy := None; ac_mediaMaxMb := None;
         ac_webhookPath := None |}
  end.

(** The properties [{...accountConfig}] copies: the own enumerable ones, of
    which a member of [Object.prototype] has none. *)
Definition spreadOf (accountConfig : AccountProperty) : WahaAccountConfig :=
  match accountConfig with
  | OwnEntry entry => entry
  | InheritedMember _ => emptyAccountConfig
  end.

(** [{...wahaConfig, ...accountConfig,
      allowFrom: accountConfig.allowFrom ?? wahaConfig.allowFrom,
      groupAllowFrom: .., dmPolicy: .., groupPolicy: ..}] *)
Definition mergeConfig (wahaConfig : WahaConfig) (accountConfig : AccountProperty)
  : WahaConfig :=
  let spread := spreadOf accountConfig in
  let read := propertiesOf accountConfig in
  {| wc_enabled := nullishOpt (ac_enabled spread) (wc_enabled wahaConfig);
     wc_url := wc_url wahaConfig;
     wc_apiKey := wc_apiKey wahaConfig;
     wc_session := nullishOpt (ac_session spread) (wc_session wahaConfig);
     wc_name := nullishOpt (ac_name spread) (wc_name wahaConfig);
     wc_webhookPath :=
       nullishOpt (ac_webhookPath spread) (wc_webhookPath wahaConfig);
     wc_hmacKey := wc_hmacKey wahaConfig;
     wc_allowFrom := nullishOpt (ac_allowFrom read) (wc_allowFrom wahaConfig);
     wc_groupAllowFrom :=
       nullishOpt (ac_groupAllowFrom read) (wc_groupAllowFrom wahaConfig);
     wc_dmPolicy := nullishOpt (ac_dmPolicy read) (wc_dmPolicy wahaConfig);
     wc_groupPolicy :=
       nullishOpt (ac_groupPolicy read) (wc_groupPolicy wahaConfig);
     wc_mediaMaxMb :=
       nullishOpt (ac_mediaMaxMb spread) (wc_mediaMaxMb wahaConfig);
     wc_accounts := wc_accounts wahaConfig |}.

(** [wahaConfig.accounts?.[normalizedId]] *)
Definition accountEntry (wahaConfig : WahaConfig) (normalizedId : jsstring)
  : option AccountProperty :=
  match wc_accounts wahaConfig with
  | Some accounts =>
      match lookupKey normalizedId accounts with
      | Some entry => Some (OwnEntry entry)
      | None => InheritedMember <$> objectPrototypeMember normalizedId
      end
  | None => None
  end.

Definition resolveWahaAccount (cfg : OpenClawConfig) (accountId : option jsstring)
  : ResolvedWahaAccount :=
  let normalizedId := normalizeAccountId accountId in
  let wahaConfig := nullish (getWahaConfig cfg) emptyWahaConfig in
  let accountConfig := accountEntry wahaConfig normalizedId in
  match negb (streq normalizedId DEFAULT_ACCOUNT_ID), accountConfig with
  | true, Some accountConfig =>
      {| ra_accountId := normalizedId;
         ra_name :=
           Some (nullish (ac_name (propertiesOf accountConfig)) normalizedId);
         ra_enabled := nullish (ac_enabled (propertiesOf accountConfig)) true;
         ra_url := nullish (wc_url wahaConfig) [];
         ra_apiKey := nullish (wc_apiKey wahaConfig) [];
         ra_session := ac_session (propertiesOf accountConfig);
         ra_hmacKey := wc_hmacKey wahaConfig;
         ra_config := mergeConfig wahaConfig accountConfig |}
  | _, _ =>
      {| ra_accountId := DEFAULT_ACCOUNT_ID;
         ra_name := wc_name wahaConfig;
         ra_enabled := nullish (wc_enabled wahaConfig) true;
         ra_url := nullish (wc_url wahaConfig) [];
         ra_apiKey := nullish (wc_apiKey wahaConfig) [];
         ra_session := Some (nullish (wc_session wahaConfig) (js "default"));
         ra_hmacKey := wc_hmacKey wahaConfig;
         ra_config := wahaConfig |}
  end.

(** [Boolean(account.url?.trim() && account.apiKey?.trim() &&
     account.session?.trim())] *)
Definition isWahaAccountConfigured (account : ResolvedWahaAccount) : bool :=
  truthy (trim (ra_url account)) && truthy (trim (ra_apiKey account))
  && truthyOpt (trim <$> ra_session account).

(** ** Effects

    The adapter's observable actions are recorded, in program order, in a
    trace.  A computation may return, throw, or never settle. *)

Record QuotedMessage := { qm_id : jsstring; qm_body : option jsstring }.

Record MessageLocation := {
  loc_latitude : number;
  loc_longitude : number;
  loc_description : option jsstring;
}.

Record WahaMessagePayload := {
  mp_id : jsstring;
  mp_from : jsstring;
  mp_to : option jsstring;
  mp_fromMe : bool;
  mp_body : option jsstring;
  mp_caption : option jsstring;
  mp_participant : option jsstring;
  mp_quotedMessage : option QuotedMessage;
  mp_mediaUrl : option jsstring;
  mp_mimetype : option jsstring;
  mp_location : option MessageLocation;
  mp_notifyName : option jsstring;          (* _data?.notifyName *)
}.

Record WahaReactionPayload := {
  rp_id : jsstring;
  rp_from : jsstring;
  rp_to : jsstring;
  rp_fromMe : bool;
  rp_participant : option jsstring;
  rp_reactionText : jsstring;
  rp_reactionMessageId : jsstring;
}.

Record WahaSessionStatusPayload := { sp_name : jsstring; sp_status : jsstring }.

(** The [payload] property of the envelope: one of the three declared
    shapes.  The handler casts it by event kind without checking. *)
Inductive WahaPayload :=
  | MessagePayload (m : WahaMessagePayload)
  | ReactionPayload (r : WahaReactionPayload)
  | SessionStatusPayload (s : WahaSessionStatusPayload).

Record WahaWebhookPayload := {
  ev_event : jsstring;
  ev_session : jsstring;
  ev_payload : WahaPayload;
}.

(** Reading [fromMe] off the payload object, as a truth value. *)
Definition payload_fromMe (p : WahaPayload) : bool :=
  match p with
  | MessagePayload m => mp_fromMe m
  | ReactionPayload r => rp_fromMe r
  | SessionStatusPayload _ => false
  end.

Record MsgContext := {
  Body : jsstring;
  From : jsstring;
  To : jsstring;
  SessionKey : jsstring;
  AccountId : jsstring;
  MessageSid : jsstring;
  ReplyToId : option jsstring;
  ReplyToBody : option jsstring;
  ChatTypeGroup : bool;                     (* ChatType: "group" / "direct" *)
  GroupSubject : option jsstring;
  SenderId : jsstring;
  SenderE164 : jsstring;
  SenderName : option jsstring;
  SenderTag : jsstring;
  MediaUrl : option jsstring;
  MediaType : option jsstring;
  Location : option MessageLocation;
}.

Record WahaChannelLocation := {
  cl_latitude : number;
  cl_longitude : number;
  cl_title : option jsstring;
  cl_address : option jsstring;
}.

(** The reply payload of the host, with [channelData?.waha?.location]. *)
Record ReplyPayload := {
  rp_text : option jsstring;
  rp_mediaUrls : option (list jsstring);
  rp_mediaUrl : option jsstring;
  rp_wahaLocation : option WahaChannelLocation;
}.

(** A call on the remote HTTP API client. *)
Inductive ClientRequest :=
  | SendText (session : option jsstring) (chatId text : jsstring)
             (replyTo : option jsstring)
  | SendImage (session : option jsstring) (chatId fileUrl : jsstring)
  | SendLocation (session : option jsstring) (chatId : jsstring)
                 (latitude longitude : number) (title address : option jsstring).

Inductive ResBody :=
  | BodyText (s : jsstring)
  | BodyJson (fields : list (jsstring * jsstring)).   (* JSON.stringify({..}) *)

Inductive StateField :=
  | Running (b : bool) | LastStartAt | LastStopAt
  | LastInboundAt | LastOutboundAt | LastError (msg : jsstring).

(** The trace holds the effects of the adapter (log lines, the response,
    runtime-state records, pairing requests, calls on the remote API) and
    four markers: [EvJsonParse] for the call of [JSON.parse],
    [EvOnMessage] and its siblings for the invocation of a callback of the
    handler, [EvAccessCheck] for the call of [checkInboundAccessControl]
    and [EvDispatchReply] for the call of the host's reply dispatcher. *)
Inductive Event :=
  | EvLog (msg : jsstring)
  | EvLogError (msg : jsstring)
  | EvRespond (statusCode : N) (headers : list (jsstring * jsstring))
              (body : ResBody)
  | EvJsonParse (rawBody : jsstring)
  | EvOnMessage (p : WahaPayload) (session : jsstring)
  | EvOnReaction (p : WahaPayload) (session : jsstring)
  | EvOnSessionStatus (p : WahaPayload) (session : jsstring)
  | EvRecordState (accountId : jsstring) (field : StateField)
  | EvAccessCheck (senderId senderE164 : jsstring) (isGroup : bool)
  | EvBuildPairingReply (senderE164 : jsstring)
  | EvUpsertPairingRequest (senderE164 : jsstring) (senderName : option jsstring)
  | EvClient (req : ClientRequest)
  | EvDispatchReply (ctx : MsgContext).

Record World := { trace : list Event; headersSent : bool }.

Definition initialWorld : World := {| trace := []; headersSent := false |}.

Definition M (A : Type) : Type := World -> Outcome A * World.

Definition ret {A} (a : A) : M A := fun w => (Ok a, w).

Definition bind {A B} (m : M A) (k : A -> M B) : M B :=
  fun w =>
    match m w with
    | (Ok a, w') => k a w'
    | (Throw e, w') => (Throw e, w')
    | (Hang, w') => (Hang, w')
    end.

Definition throw {A} (e : JsError) : M A := fun w => (Throw e, w).

(** [try { m } catch (err) { h err }]; also [promise.catch(h)]. *)
Definition tryCatch {A} (m : M A) (h : JsError -> M A) : M A :=
  fun w =>
    match m w with
    | (Throw e, w') => h e w'
    | r => r
    end.

Definition emit (e : Event) : M unit :=
  fun w => (Ok tt, {| trace := trace w ++ [e]; headersSent := headersSent w |}).

Definition liftResult {A} (r : JsError + A) : M A :=
  match r with inl e => throw e | inr a => ret a end.

Notation "'let!' x ':=' m 'in' k" := (bind m (fun x => k))
  (at level 10, x name, m at level 100, k at level 200,
   format "'[v' 'let!'  x  ':='  m  'in' '/' k ']'").
Notation "m '>>' k" := (bind m (fun _ => k))
  (at level 90, right associativity).

Fixpoint forEach {A} (l : list A) (f : A -> M unit) : M unit :=
  match l with
  | [] => ret tt
  | x :: r => f x >> forEach r f
  end.

(** A loop that reassigns one local variable. *)
Fixpoint forEachWith {A S} (l : list A) (f : S -> A -> M S) (s : S) : M S :=
  match l with
  | [] => ret s
  | x :: r => let! s' := f s x in forEachWith r f s'
  end.

Definition traceOf {A} (m : M A) : list Event := trace (snd (m initialWorld)).
Definition outcomeOf {A} (m : M A) : Outcome A := fst (m initialWorld).

(** ** The webhook handler (registerWahaWebhookHandler) *)

Definition QUOTE : N := 34.

(** A value of [req.headers[name]]: [string | string[] | undefined]. *)
Inductive HeaderValue :=
  | HeaderAbsent
  | HeaderString (s : jsstring)
  | HeaderArray (l : list jsstring).

Record IncomingMessage := {
  method : jsstring;
  x_webhook_hmac : HeaderValue;
  x_webhook_hmac_algorithm : HeaderValue;
  (** what the body stream delivers: the text, or an [error] event *)
  requestBody : JsError + jsstring;
}.

(** [Buffer.from(s)]: the UTF-8 bytes of a string; a lone surrogate is
    encoded as U+FFFD. *)
Definition isHighSurrogate (c : N) : bool := (55296 <=? c) && (c <=? 56319).
Definition isLowSurrogate (c : N) : bool := (56320 <=? c) && (c <=? 57343).

Definition utf8_of_code_point (cp : N) : list N :=
  if cp <? 128 then [cp]
  else if cp <? 2048 then
    [N.lor 192 (N.shiftr cp 6); N.lor 128 (N.land cp 63)]
  else if cp <? 65536 then
    [N.lor 224 (N.shiftr cp 12); N.lor 128 (N.land (N.shiftr cp 6) 63);
     N.lor 128 (N.land cp 63)]
  else
    [N.lor 240 (N.shiftr cp 18); N.lor 128 (N.land (N.shiftr cp 12) 63);
     N.lor 128 (N.land (N.shiftr cp 6) 63); N.lor 128 (N.land cp 63)].

Fixpoint Buffer_from (s : jsstring) : list N :=
  match s with
  | [] => []
  | c :: r =>
      if isHighSurrogate c then
        match r with
        | lo :: r' =>
            if isLowSurrogate lo
            then utf8_of_code_point (65536 + (c - 55296) * 1024 + (lo - 56320))
                 ++ Buffer_from r'
            else utf8_of_code_point 65533 ++ Buffer_from r
        | [] => utf8_of_code_point 65533
        end
      else if isLowSurrogate c then utf8_of_code_point 65533 ++ Buffer_from r
      else utf8_of_code_point c ++ Buffer_from r
  end.

(** [crypto.timingSafeEqual(a, b)] of node:crypto: throws a RangeError when
    the two buffers differ in byte length, and compares them otherwise. *)
Definition ERR_CRYPTO_TIMING_SAFE_EQUAL_LENGTH : JsError :=
  {| errName := js "RangeError";
     errMessage := js "Input buffers must have the same byte length" |}.

Definition timingSafeEqual (a b : list N) : JsError + bool :=
  if (length a =? length b)%nat then inr (bool_decide (a = b))
  else inl ERR_CRYPTO_TIMING_SAFE_EQUAL_LENGTH.

(** [crypto.createHmac(algorithm, key).update(rawBody, "utf8").digest("hex")];
    the call throws for an algorithm the crypto library does not know. *)
Variable createHmacHex :
  forall (algorithm hmacKey rawBody : jsstring), JsError + jsstring.

(** [JSON.parse(rawBody) as WahaWebhookPayload]; a SyntaxError otherwise. *)
Variable JSON_parse : jsstring -> JsError + WahaWebhookPayload.

Definition validateWahaHmac
  (rawBody signature hmacKey algorithm : jsstring) : JsError + bool :=
  match createHmacHex algorithm hmacKey rawBody with
  | inl e => inl e
  | inr computed => timingSafeEqual (Buffer_from computed) (Buffer_from signature)
  end.

Definition readRequestBody (req : IncomingMessage) : M jsstring :=
  liftResult (requestBody req).

(** [res.statusCode = ..; res.setHeader(..); res.end(..)] *)
Definition respond (statusCode : N) (headers : list (jsstring * jsstring))
  (body : ResBody) : M unit :=
  fun w => (Ok tt, {| trace := trace w ++ [EvRespond statusCode headers body];
                      headersSent := true |}).

Definition res_headersSent : M bool := fun w => (Ok (headersSent w), w).

Definition logFn (msg : jsstring) : M unit := emit (EvLog msg).
Definition logger_error (msg : jsstring) : M unit := emit (EvLogError msg).

Definition contentTypeJson : jsstring * jsstring :=
  (js "Content-Type", js "application/json").

(** [(req.headers["x-webhook-hmac-algorithm"] as string) ?? "sha512"];
    an array value reaches [createHmac] and is refused there. *)
Definition ERR_INVALID_ARG_TYPE : JsError :=
  {| errName := js "TypeError";
     errMessage := js "The hmac argument must be of type string" |}.

Definition algorithmOf (h : HeaderValue) : JsError + jsstring :=
  match h with
  | HeaderAbsent => inr (js "sha512")
  | HeaderString s => inr s
  | HeaderArray _ => inl ERR_INVALID_ARG_TYPE
  end.

(** The [if (account.hmacKey) { .. }] block; [false] stands for the two
    early returns after a 401. *)
Definition hmacGate (account : ResolvedWahaAccount) (req : IncomingMessage)
  (rawBody : jsstring) : M bool :=
  match ra_hmacKey account with
  | Some key =>
      if truthy key then
        match x_webhook_hmac req with
        | HeaderString signature =>
            if truthy signature then
              let! algorithm := liftResult (algorithmOf (x_webhook_hmac_algorithm req)) in
              let! valid := liftResult (validateWahaHmac rawBody signature key algorithm) in
              if negb valid then
                logFn (js "waha: webhook HMAC validation failed") >>
                respond 401 [contentTypeJson]
                  (BodyJson [(js "error", js "Invalid HMAC signature")]) >>
                ret false
              else ret true
            else
              logFn (js "waha: webhook missing X-Webhook-Hmac header") >>
              respond 401 [contentTypeJson]
                (BodyJson [(js "error", js "Missing HMAC signature")]) >>
              ret false
        | _ =>
            logFn (js "waha: webhook missing X-Webhook-Hmac header") >>
            respond 401 [contentTypeJson]
              (BodyJson [(js "error", js "Missing HMAC signature")]) >>
            ret false
        end
      else ret true
  | None => ret true
  end.

Definition isMessageEvent (event : jsstring) : bool :=
  streq event (js "message") || streq event (js "message.any").

Section Handler.

(** [opts.onMessage], [opts.onReaction], [opts.onSessionStatus] *)
Variable onMessage : WahaPayload -> jsstring -> M unit.
Variable onReaction : option (WahaPayload -> jsstring -> M unit).
Variable onSessionStatus : option (WahaPayload -> jsstring -> M unit).

(** The [switch (event)] after the response has been written. *)
Definition dispatchEvent (payload : WahaWebhookPayload) : M unit :=
  let event := ev_event payload in
  let session := ev_session payload in
  if isMessageEvent event then
    let msgPayload := ev_payload payload in
    if negb (payload_fromMe msgPayload) then
      emit (EvOnMessage msgPayload session) >>
      tryCatch (onMessage msgPayload session)
        (fun err =>
           logger_error (js "webhook message handler failed: "
                         ++ String_of_error err))
    else ret tt
  else if streq event (js "message.reaction") then
    match onReaction with
    | Some f =>
        emit (EvOnReaction (ev_payload payload) session) >>
        f (ev_payload payload) session
    | None => ret tt
    end
  else if streq event (js "session.status") then
    match onSessionStatus with
    | Some f =>
        emit (EvOnSessionStatus (ev_payload payload) session) >>
        f (ev_payload payload) session
    | None => ret tt
    end
  else
    logFn (js "waha: ignoring unhandled event type " ++ [QUOTE] ++ event
           ++ [QUOTE]).

(** The [catch (err) { .. }] block of the handler. *)
Definition onHandlerError (err : JsError) : M unit :=
  logger_error (js "webhook error: " ++ String_of_error err) >>
  let! sent := res_headersSent in
  if negb sent then
    respond 500 [contentTypeJson]
      (BodyJson [(js "error", js "Internal server error")])
  else ret tt.

Definition handler (account : ResolvedWahaAccount) (req : IncomingMessage)
  : M unit :=
  if streq (method req) (js "GET") then
    respond 200 [(js "Content-Type", js "text/plain")] (BodyText (js "OK"))
  else if negb (streq (method req) (js "POST")) then
    respond 405 [(js "Allow", js "GET, POST"); contentTypeJson]
      (BodyJson [(js "error", js "Method Not Allowed")])
  else
    tryCatch
      (let! rawBody := readRequestBody req in
       let! verified := hmacGate account req rawBody in
       if verified then
         let! payload := emit (EvJsonParse rawBody) >> liftResult (JSON_parse rawBody) in
         respond 200 [contentTypeJson] (BodyJson [(js "status", js "ok")]) >>
         logFn (js "waha: received webhook event " ++ [QUOTE] ++ ev_event payload
                ++ [QUOTE] ++ js " for session " ++ [QUOTE] ++ ev_session payload
                ++ [QUOTE]) >>
         dispatchEvent payload
       else ret tt)
      onHandlerError.

End Handler.

(** The HMAC check is not required, or it passed. *)
Definition hmacAccepted (account : ResolvedWahaAccount) (req : IncomingMessage)
  (rawBody : jsstring) : Prop :=
  truthyOpt (ra_hmacKey account) = false
  \/ exists key signature algorithm,
       ra_hmacKey account = Some key
       /\ x_webhook_hmac req = HeaderString signature
       /\ truthy signature = true
       /\ algorithmOf (x_webhook_hmac_algorithm req) = inr algorithm
       /\ validateWahaHmac rawBody signature key algorithm = inr true.

(** The state of the exchange once the 200 response has been written and
    the event logged, right before the [switch (event)]. *)
Definition acknowledged (rawBody : jsstring) (payload : WahaWebhookPayload)
  : World :=
  {| trace :=
       [EvJsonParse rawBody;
        EvRespond 200 [contentTypeJson] (BodyJson [(js "status", js "ok")]);
        EvLog (js "waha: received webhook event " ++ [QUOTE] ++ ev_event payload
               ++ [QUOTE] ++ js " for session " ++ [QUOTE] ++ ev_session payload
               ++ [QUOTE])];
     headersSent := true |}.

(** Events that belong to message handling: the invocation of the message
    handler, access control, pairing, calls on the remote API, and reply
    dispatch. *)
Definition isHandlingEvent (e : Event) : bool :=
  match e with
  | EvOnMessage _ _ | EvAccessCheck _ _ _ | EvBuildPairingReply _
  | EvUpsertPairingRequest _ _ | EvClient _ | EvDispatchReply _
  | EvRecordState _ _ => true
  | _ => false
  end.

(** Events of the pairing workflow. *)
Definition isPairingEvent (e : Event) : bool :=
  match e with
  | EvBuildPairingReply _ | EvUpsertPairingRequest _ _ | EvClient _ => true
  | _ => false
  end.

(** ** The provider monitor (checkInboundAccessControl, handleMessage) *)

(** Services of the host plugin runtime and of the remote API.  The
    lookups of the host are taken to return a value; route resolution and
    the messages config, which only supply the response prefix handed back
    to the host, are left out. *)

(** [pluginRuntime.channel.pairing.readAllowFromStore("waha")] *)
Variable readAllowFromStore : option (list jsstring).

(** [pluginRuntime.channel.pairing.buildPairingReply({..})] *)
Variable buildPairingReply :
  forall (senderId : jsstring) (senderName : option jsstring), jsstring.

(** [pluginRuntime.channel.text.chunkMarkdownText(text, limit)] *)
Variable chunkMarkdownText : jsstring -> nat -> list jsstring.

(** The answer of the remote service to a client call, given everything
    that happened before: the id of the sent message, or a failure. *)
Variable remote : list Event -> ClientRequest -> JsError + jsstring.

(** [pluginRuntime.channel.reply.dispatchReplyWithBufferedBlockDispatcher],
    given the context and the [deliver] and [onError] callbacks. *)
Variable dispatchReplyWithBufferedBlockDispatcher :
  MsgContext -> (ReplyPayload -> M unit) -> (JsError -> jsstring -> M unit)
  -> M unit.

(** [await client.sendText(..)] and the like *)
Definition clientCall (req : ClientRequest) : M jsstring :=
  fun w =>
    let w' := {| trace := trace w ++ [EvClient req];
                 headersSent := headersSent w |} in
    match remote (trace w) req with
    | inl e => (Throw e, w')
    | inr id => (Ok id, w')
    end.

Definition recordChannelRuntimeState (accountId : jsstring) (field : StateField)
  : M unit :=
  emit (EvRecordState accountId field).

Record AccessResult := { allowed : bool; reason : option jsstring }.

(** [new Set(entries.map(normalizeWahaAllowEntry))] *)
Definition normalizedSet (entries : list jsstring) : gset jsstring :=
  list_to_set (normalizeWahaAllowEntry <$> entries).

(** [set.has(x)] *)
Definition has (set : gset jsstring) (x : jsstring) : bool :=
  bool_decide (x ∈ set).

Definition checkInboundAccessControl
  (senderId senderE164 : jsstring) (isGroup : bool)
  (account : ResolvedWahaAccount) : AccessResult :=
  let dmPolicy := nullish (wc_dmPolicy (ra_config account)) DmPairing in
  let groupPolicy := nullish (wc_groupPolicy (ra_config account)) GroupAllowlist in
  if isGroup then
    match groupPolicy with
    | GroupDisabled =>
        {| allowed := false; reason := Some (js "groups disabled") |}
    | GroupAllowlist =>
        let groupAllowFrom := nullish (wc_groupAllowFrom (ra_config account)) [] in
        let normalizedGroupAllowFrom :=
          normalizedSet (String_of_entry <$> groupAllowFrom) in
        if negb (has normalizedGroupAllowFrom senderE164)
           && negb (has normalizedGroupAllowFrom senderId)
        then {| allowed := false;
                reason := Some (js "sender not in group allowlist") |}
        else {| allowed := true; reason := None |}
    | GroupOpen => {| allowed := true; reason := None |}
    end
  else
    match dmPolicy with
    | DmDisabled => {| allowed := false; reason := Some (js "DMs disabled") |}
    | DmOpen => {| allowed := true; reason := None |}
    | _ =>
        let configAllowFrom := nullish (wc_allowFrom (ra_config account)) [] in
        let storeAllowFrom := nullish readAllowFromStore [] in
        let combinedAllowFrom :=
          (String_of_entry <$> configAllowFrom) ++ storeAllowFrom in
        let normalizedDmAllowFrom := normalizedSet combinedAllowFrom in
        if has normalizedDmAllowFrom senderE164
           || has normalizedDmAllowFrom senderId
        then {| allowed := true; reason := None |}
        else
          match dmPolicy with
          | DmPairing =>
              {| allowed := false; reason := Some (js "pairing required") |}
          | _ =>
              {| allowed := false; reason := Some (js "sender not in allowlist") |}
          end
    end.

Definition buildMsgContext (payload : WahaMessagePayload) (session : jsstring)
  (account : ResolvedWahaAccount)
  : MsgContext * bool * jsstring * jsstring :=
  let senderId := nullish (mp_participant payload) (mp_from payload) in
  let senderE164 := chatIdToE164 senderId in
  let senderName := nullishOpt (mp_notifyName payload) (mp_participant payload) in
  let isGroup := isGroupChatId (mp_from payload) in
  let chatId := mp_from payload in
  let body := nullish (nullishOpt (mp_body payload) (mp_caption payload)) [] in
  let ctx :=
    {| Body := body;
       From := chatId;
       To := nullish (mp_to payload) session;
       SessionKey := js "waha:" ++ ra_accountId account ++ js ":" ++ chatId;
       AccountId := ra_accountId account;
       MessageSid := mp_id payload;
       ReplyToId := qm_id <$> mp_quotedMessage payload;
       ReplyToBody := mp_quotedMessage payload ≫= qm_body;
       ChatTypeGroup := isGroup;
       GroupSubject := if isGroup then Some chatId else None;
       SenderId := senderId;
       SenderE164 := senderE164;
       SenderName := senderName;
       SenderTag :=
         match senderName with
         | Some n =>
             if truthy n then n ++ js " (" ++ senderE164 ++ js ")"
             else senderE164
         | None => senderE164
         end;
       MediaUrl := mp_mediaUrl payload;
       MediaType := mp_mimetype payload;
       Location := mp_location payload |} in
  (ctx, isGroup, senderId, senderE164).

(** [String(x)] of an optional string. *)
Definition String_of_optional (o : option jsstring) : jsstring :=
  nullish o (js "undefined").

(** The [deliver] callback handed to the reply dispatcher. *)
Definition deliver (account : ResolvedWahaAccount) (ctx : MsgContext)
  (payload : WahaMessagePayload) (replyPayload : ReplyPayload) : M unit :=
  let text := nullish (rp_text replyPayload) [] in
  let mediaUrls := nullish (rp_mediaUrls replyPayload) [] in
  (if truthy (trim text) then
     forEach (chunkMarkdownText text 4000)
       (fun chunk =>
          clientCall (SendText (ra_session account) (normalizeWahaTarget (From ctx))
                        chunk (Some (mp_id payload))) >> ret tt)
   else ret tt) >>
  forEach mediaUrls
    (fun mediaUrl =>
       clientCall (SendImage (ra_session account) (normalizeWahaTarget (From ctx))
                     mediaUrl) >> ret tt) >>
  recordChannelRuntimeState (ra_accountId account) LastOutboundAt.

Definition handleMessage (account : ResolvedWahaAccount)
  (payload : WahaMessagePayload) (session : jsstring) : M unit :=
  let '(ctx, isGroup, senderId, senderE164) :=
    buildMsgContext payload session account in
  recordChannelRuntimeState (ra_accountId account) LastInboundAt >>
  emit (EvAccessCheck senderId senderE164 isGroup) >>
  let accessCheck := checkInboundAccessControl senderId senderE164 isGroup account in
  if negb (allowed accessCheck) then
    logFn (js "dropping message from " ++ senderE164 ++ js ": "
           ++ String_of_optional (reason accessCheck)) >>
    if bool_decide (reason accessCheck = Some (js "pairing required")) then
      emit (EvBuildPairingReply senderE164) >>
      let pairingReply := buildPairingReply senderE164 (SenderName ctx) in
      emit (EvUpsertPairingRequest senderE164 (SenderName ctx)) >>
      clientCall (SendText (ra_session account) (normalizeWahaTarget (From ctx))
                    pairingReply None) >>
      ret tt
    else ret tt
  else
    emit (EvDispatchReply ctx) >>
    tryCatch
      (dispatchReplyWithBufferedBlockDispatcher ctx
         (deliver account ctx payload)
         (fun err kind =>
            logger_error (js "reply failed (" ++ kind ++ js "): "
                          ++ String_of_error err)))
      (fun err =>
         logger_error (js "auto-reply failed: " ++ String_of_error err) >>
         tryCatch
           (clientCall
              (SendText (ra_session account) (normalizeWahaTarget (From ctx))
                 (js "Sorry, I encountered an error processing your message.")
                 None) >> ret tt)
           (fun sendErr =>
              logger_error (js "error reply failed: " ++ String_of_error sendErr))).

(** What [handleMessage] sees when the handler passes it a payload of
    another shape: a reaction has the fields [id], [from], [to], [fromMe]
    and [participant]; a session status has no [from], and reading it
    fails. *)
Definition TypeError_undefined : JsError :=
  {| errName := js "TypeError";
     errMessage := js "Cannot read properties of undefined" |}.

Definition monitorOnMessage (account : ResolvedWahaAccount)
  (p : WahaPayload) (session : jsstring) : M unit :=
  match p with
  | MessagePayload m => handleMessage account m session
  | ReactionPayload r =>
      handleMessage account
        {| mp_id := rp_id r; mp_from := rp_from r; mp_to := Some (rp_to r);
           mp_fromMe := rp_fromMe r; mp_body := None; mp_caption := None;
           mp_participant := rp_participant r; mp_quotedMessage := None;
           mp_mediaUrl := None; mp_mimetype := None; mp_location := None;
           mp_notifyName := None |}
        session
  | SessionStatusPayload _ => throw TypeError_undefined
  end.

Definition monitorOnReaction (p : WahaPayload) (session : jsstring) : M unit :=
  match p with
  | ReactionPayload r =>
      logFn (js "received reaction from " ++ rp_from r ++ js ": "
             ++ rp_reactionText r)
  | _ => throw TypeError_undefined
  end.

Definition monitorOnSessionStatus (account : ResolvedWahaAccount)
  (p : WahaPayload) (session : jsstring) : M unit :=
  match p with
  | SessionStatusPayload s =>
      logFn (js "session " ++ [QUOTE] ++ session ++ [QUOTE]
             ++ js " status changed to " ++ sp_status s) >>
      if streq (sp_status s) (js "FAILED") then
        recordChannelRuntimeState (ra_accountId account)
          (LastError (js "Session failed"))
      else ret tt
  | _ =>
      logFn (js "session " ++ [QUOTE] ++ session ++ [QUOTE]
             ++ js " status changed to undefined")
  end.

(** The handler as [monitorWahaProvider] registers it. *)
Definition monitorHandler (account : ResolvedWahaAccount) (req : IncomingMessage)
  : M unit :=
  handler (monitorOnMessage account) (Some monitorOnReaction)
    (Some (monitorOnSessionStatus account)) account req.

(** ** channel.ts: outbound.sendPayload *)

(** The module variable [runtime] of runtime.ts is set once the plugin is
    registered. *)
Variable runtimeRegistered : bool.

Definition getWahaRuntime : M unit :=
  if runtimeRegistered then ret tt
  else throw (Error (js "WAHA runtime not initialized - plugin not registered")).

Record OutboundResult := {
  or_channel : jsstring;
  or_messageId : jsstring;
  or_chatId : jsstring;
}.

Definition sendPayload (to : jsstring) (payload : ReplyPayload)
  (accountId : option jsstring) (cfg : OpenClawConfig) : M OutboundResult :=
  getWahaRuntime >>
  let account := resolveWahaAccount cfg accountId in
  if negb (isWahaAccountConfigured account) then
    throw (Error (js "WAHA not configured"))
  else
    let chatId := normalizeWahaTarget to in
    let text := nullish (rp_text payload) [] in
    let! lastResult :=
      (if truthy (trim text) then
         forEachWith (chunkMarkdownText text 4000)
           (fun _ chunk =>
              let! r := clientCall (SendText (ra_session account) chatId chunk None) in
              ret (Some r))
           None
       else ret None) in
    let mediaUrls :=
      match rp_mediaUrls payload with
      | Some l => l
      | None =>
          match rp_mediaUrl payload with
          | Some u => if truthy u then [u] else []
          | None => []
          end
      end in
    let! lastResult :=
      forEachWith mediaUrls
        (fun _ mediaUrl =>
           let! r := clientCall (SendImage (ra_session account) chatId mediaUrl) in
           ret (Some r))
        lastResult in
    let! lastResult :=
      match rp_wahaLocation payload with
      | Some location =>
          let! r := clientCall
                      (SendLocation (ra_session account) chatId
                         (cl_latitude location) (cl_longitude location)
                         (cl_title location) (cl_address location)) in
          ret (Some r)
      | None => ret lastResult
      end in
    ret {| or_channel := js "waha";
           or_messageId := nullish lastResult (js "sent");
           or_chatId := chatId |}.

(** A payload with nothing to send: blank text, no media, no location. *)
Definition blankPayload (payload : ReplyPayload) : bool :=
  negb (truthy (trim (nullish (rp_text payload) [])))
  && match rp_mediaUrls payload with
     | Some l => match l with [] => true | _ :: _ => false end
     | None => negb (truthyOpt (rp_mediaUrl payload))
     end
  && match rp_wahaLocation payload with Some _ => false | None => true end.

(** [account.config.dmPolicy ?? "pairing"] *)
Definition effectiveDmPolicy (account : ResolvedWahaAccount) : DmPolicy :=
  nullish (wc_dmPolicy (ra_config account)) DmPairing.

(** The sender matches the combined allow-list: some entry of the static
    [allowFrom] or of the pairing store normalizes to the E.164-like form
    or to the chat id of the sender. *)
Definition senderMatches (account : ResolvedWahaAccount)
  (senderId senderE164 : jsstring) : Prop :=
  exists e,
    e ∈ (String_of_entry <$> nullish (wc_allowFrom (ra_config account)) [])
        ++ nullish readAllowFromStore []
    /\ (normalizeWahaAllowEntry e = senderE164
        \/ normalizeWahaAllowEntry e = senderId).

(** What [handleMessage] does before it acts on the verdict. *)
Definition checkedTrace (account : ResolvedWahaAccount)
  (senderId senderE164 : jsstring) (isGroup : bool) : list Event :=
  [EvRecordState (ra_accountId account) LastInboundAt;
   EvAccessCheck senderId senderE164 isGroup].


(** ** Further code of the adapter *)

(** *** normalize.ts: looksLikeWahaTargetId *)

Definition allDigitsb (s : jsstring) : bool := forallb isDigit s.

(** [/^\d{10,15}$/.test(s)] *)
Definition isDigitRun10to15 (s : jsstring) : bool :=
  allDigitsb s && (10 <=? length s)%nat && (length s <=? 15)%nat.

(** [/^\+\d{10,15}$/.test(s)] *)
Definition isPlusDigitRun10to15 (s : jsstring) : bool :=
  match s with
  | c :: d => (c =? PLUS) && isDigitRun10to15 d
  | [] => false
  end.

Definition looksLikeWahaTargetId (target : jsstring) : bool :=
  let trimmed := trim target in
  if negb (truthy trimmed) then false
  else if endsWith (js "@c.us") trimmed || endsWith (js "@g.us") trimmed
          || endsWith (js "@newsletter") trimmed then true
  else if startsWith_ci (js "waha:") trimmed then true
  else if isPlusDigitRun10to15 trimmed then true
  else if isDigitRun10to15 trimmed then true
  else false.

Definition formatSenderDisplay (chatId : jsstring) (pushName : option jsstring)
  : jsstring :=
  let e164 := chatIdToE164 chatId in
  match pushName with
  | Some p => if truthy (trim p) then p ++ js " (" ++ e164 ++ js ")" else e164
  | None => e164
  end.

(** *** channel.ts: messaging.normalizeTarget *)

Definition messaging_normalizeTarget (target : jsstring) : option jsstring :=
  let trimmed := trim target in
  if negb (truthy trimmed) then None
  else
    let stripped := stripWahaPrefix trimmed in
    if endsWith (js "@c.us") stripped || endsWith (js "@g.us") stripped
       || endsWith (js "@newsletter") stripped then Some stripped
    else if startsWith (js "+") stripped then Some (drop 1 stripped)
    else Some stripped.

(** *** The API client: constructor and request URL *)

Definition SLASH : N := 47.

(** [options.url.replace(/\/+$/, "")] *)
Definition WahaClient_baseUrl (url : jsstring) : jsstring :=
  rev (drop_while (N.eqb SLASH) (rev url)).

(** [`${this.baseUrl}${path}`] *)
Definition requestUrl (url path : jsstring) : jsstring :=
  WahaClient_baseUrl url ++ path.

(** *** accounts.ts: getWahaCredentialSource *)

Definition getWahaCredentialSource (account : ResolvedWahaAccount) : jsstring :=
  if truthy (trim (ra_url account)) && truthy (trim (ra_apiKey account))
  then js "config" else js "none".

(** *** channel.ts: config.describeAccount and status.collectStatusIssues *)

Record AccountSnapshot := {
  as_accountId : option jsstring;
  as_name : option jsstring;
  as_enabled : option bool;
  as_configured : option bool;
  as_credentialSource : option jsstring;
  as_baseUrl : option jsstring;
}.

Definition describeAccount (account : ResolvedWahaAccount) : AccountSnapshot :=
  {| as_accountId := Some (ra_accountId account);
     as_name := ra_name account;
     as_enabled := Some (ra_enabled account);
     as_configured := Some (isWahaAccountConfigured account);
     as_credentialSource := Some (getWahaCredentialSource account);
     as_baseUrl := Some (ra_url account) |}.

Record ChannelStatusIssue := {
  issue_channel : jsstring;
  issue_accountId : jsstring;
  issue_kind : jsstring;
  issue_message : jsstring;
}.

(** One turn of the loop of [collectStatusIssues]. *)
Definition issuesOf (account : AccountSnapshot) : list ChannelStatusIssue :=
  let accountId := nullish (as_accountId account) DEFAULT_ACCOUNT_ID in
  (if negb (truthyOpt (as_baseUrl account)) then
     [{| issue_channel := js "waha"; issue_accountId := accountId;
         issue_kind := js "config";
         issue_message := js "WAHA URL not configured" |}]
   else [])
  ++ (if negb (truthyOpt (as_credentialSource account))
         || streq (nullish (as_credentialSource account) []) (js "none") then
        [{| issue_channel := js "waha"; issue_accountId := accountId;
            issue_kind := js "config";
            issue_message := js "WAHA API key not configured" |}]
      else []).

Definition collectStatusIssues (accounts : list AccountSnapshot)
  : list ChannelStatusIssue :=
  fold_left (fun issues account => issues ++ issuesOf account) accounts [].

(** *** Objects as maps: defining and deleting a property

    Own property keys are listed with the array indices first, in
    ascending order, and the other strings after them in creation order. *)

Fixpoint digitsValue (acc : N) (s : jsstring) : N :=
  match s with
  | [] => acc
  | c :: r => digitsValue (acc * 10 + (c - 48)) r
  end.

(** The array index a key denotes: a canonical decimal numeral below
    [2^32 - 1]. *)
Definition arrayIndex (k : jsstring) : option N :=
  match k with
  | [] => None
  | c :: r =>
      if allDigitsb k && (negb (c =? 48) || negb (truthy r)) then
        let v := digitsValue 0 k in
        if v <? 4294967295 then Some v else None
      else None
  end.

Fixpoint replaceKey {V} (k : jsstring) (v : V) (o : list (jsstring * V))
  : list (jsstring * V) :=
  match o with
  | [] => []
  | (k', v') :: r =>
      if streq k' k then (k', v) :: r else (k', v') :: replaceKey k v r
  end.

Fixpoint insertIndexKey {V} (n : N) (k : jsstring) (v : V)
  (o : list (jsstring * V)) : list (jsstring * V) :=
  match o with
  | [] => [(k, v)]
  | (k', v') :: r =>
      match arrayIndex k' with
      | Some m => if m <? n then (k', v') :: insertIndexKey n k v r
                  else (k, v) :: o
      | None => (k, v) :: o
      end
  end.

(** [{...o, [k]: v}] *)
Definition Object_set {V} (k : jsstring) (v : V) (o : list (jsstring * V))
  : list (jsstring * V) :=
  if includes (Object_keys o) k then replaceKey k v o
  else
    match arrayIndex k with
    | Some n => insertIndexKey n k v o
    | None => o ++ [(k, v)]
    end.

(** [delete o[k]] *)
Definition Object_delete {V} (k : jsstring) (o : list (jsstring * V))
  : list (jsstring * V) :=
  List.filter (fun kv => negb (streq (fst kv) k)) o.

(** *** channel.ts: config.setAccountEnabled and config.deleteAccount *)

(** [{...cfg, channels: {...cfg.channels, waha}}] *)
Definition withWaha (cfg : OpenClawConfig) (wahaConfig : WahaConfig)
  : OpenClawConfig :=
  {| channels := Some {| waha := Some wahaConfig |} |}.

Definition setAccountEnabled (cfg : OpenClawConfig) (accountId : jsstring)
  (enabled : bool) : OpenClawConfig :=
  let wahaConfig := nullish (getWahaConfig cfg) emptyWahaConfig in
  if streq accountId DEFAULT_ACCOUNT_ID then
    withWaha cfg
      {| wc_enabled := Some enabled;
         wc_url := wc_url wahaConfig; wc_apiKey := wc_apiKey wahaConfig;
         wc_session := wc_session wahaConfig; wc_name := wc_name wahaConfig;
         wc_webhookPath := wc_webhookPath wahaConfig;
         wc_hmacKey := wc_hmacKey wahaConfig;
         wc_allowFrom := wc_allowFrom wahaConfig;
         wc_groupAllowFrom := wc_groupAllowFrom wahaConfig;
         wc_dmPolicy := wc_dmPolicy wahaConfig;
         wc_groupPolicy := wc_groupPolicy wahaConfig;
         wc_mediaMaxMb := wc_mediaMaxMb wahaConfig;
         wc_accounts := wc_accounts wahaConfig |}
  else
    let previous :=
      nullish (spreadOf <$> accountEntry wahaConfig accountId)
        emptyAccountConfig in
    let entry :=
      {| ac_enabled := Some enabled;
         ac_session := ac_session previous; ac_name := ac_name previous;
         ac_allowFrom := ac_allowFrom previous;
         ac_groupAllowFrom := ac_groupAllowFrom previous;
         ac_dmPolicy := ac_dmPolicy previous;
         ac_groupPolicy := ac_groupPolicy previous;
         ac_mediaMaxMb := ac_mediaMaxMb previous;
         ac_webhookPath := ac_webhookPath previous |} in
    withWaha cfg
      {| wc_enabled := wc_enabled wahaConfig;
         wc_url := wc_url wahaConfig; wc_apiKey := wc_apiKey wahaConfig;
         wc_session := wc_session wahaConfig; wc_name := wc_name wahaConfig;
         wc_webhookPath := wc_webhookPath wahaConfig;
         wc_hmacKey := wc_hmacKey wahaConfig;
         wc_allowFrom := wc_allowFrom wahaConfig;
         wc_groupAllowFrom := wc_groupAllowFrom wahaConfig;
         wc_dmPolicy := wc_dmPolicy wahaConfig;
         wc_groupPolicy := wc_groupPolicy wahaConfig;
         wc_mediaMaxMb := wc_mediaMaxMb wahaConfig;
         wc_accounts :=
           Some (Object_set accountId entry
                   (nullish (wc_accounts wahaConfig) [])) |}.

Definition deleteAccount (cfg : OpenClawConfig) (accountId : jsstring)
  : OpenClawConfig :=
  let wahaConfig := nullish (getWahaConfig cfg) emptyWahaConfig in
  if streq accountId DEFAULT_ACCOUNT_ID then
    (* const { url, apiKey, session, hmacKey, ...rest } = wahaConfig *)
    withWaha cfg
      {| wc_enabled := wc_enabled wahaConfig;
         wc_url := None; wc_apiKey := None; wc_session := None;
         wc_name := wc_name wahaConfig;
         wc_webhookPath := wc_webhookPath wahaConfig;
         wc_hmacKey := None;
         wc_allowFrom := wc_allowFrom wahaConfig;
         wc_groupAllowFrom := wc_groupAllowFrom wahaConfig;
         wc_dmPolicy := wc_dmPolicy wahaConfig;
         wc_groupPolicy := wc_groupPolicy wahaConfig;
         wc_mediaMaxMb := wc_mediaMaxMb wahaConfig;
         wc_accounts := wc_accounts wahaConfig |}
  else
    let accounts := Object_delete accountId (nullish (wc_accounts wahaConfig) []) in
    withWaha cfg
      {| wc_enabled := wc_enabled wahaConfig;
         wc_url := wc_url wahaConfig; wc_apiKey := wc_apiKey wahaConfig;
         wc_session := wc_session wahaConfig; wc_name := wc_name wahaConfig;
         wc_webhookPath := wc_webhookPath wahaConfig;
         wc_hmacKey := wc_hmacKey wahaConfig;
         wc_allowFrom := wc_allowFrom wahaConfig;
         wc_groupAllowFrom := wc_groupAllowFrom wahaConfig;
         wc_dmPolicy := wc_dmPolicy wahaConfig;
         wc_groupPolicy := wc_groupPolicy wahaConfig;
         wc_mediaMaxMb := wc_mediaMaxMb wahaConfig;
         wc_accounts :=
           match Object_keys accounts with
           | _ :: _ => Some accounts
           | [] => None
           end |}.

(** *** channel.ts: outbound.sendText *)

Definition sendText (to text : jsstring) (accountId : option jsstring)
  (cfg : OpenClawConfig) : M OutboundResult :=
  getWahaRuntime >>
  let account := resolveWahaAccount cfg accountId in
  if negb (isWahaAccountConfigured account) then
    throw (Error (js "WAHA not configured"))
  else
    let chatId := normalizeWahaTarget to in
    let chunks := chunkMarkdownText text 4000 in
    let! lastResult :=
      forEachWith chunks
        (fun _ chunk =>
           let! r := clientCall (SendText (ra_session account) chatId chunk None) in
           ret (Some r))
        None in
    ret {| or_channel := js "waha";
           or_messageId := nullish lastResult (js "sent");
           or_chatId := chatId |}.

(** The calls on the remote API that [sendPayload] sets out to make, in
    program order. *)
Definition plannedRequests (account : ResolvedWahaAccount) (to : jsstring)
  (payload : ReplyPayload) : list ClientRequest :=
  let chatId := normalizeWahaTarget to in
  let text := nullish (rp_text payload) [] in
  (if truthy (trim text) then
     List.map (fun chunk => SendText (ra_session account) chatId chunk None)
       (chunkMarkdownText text 4000)
   else [])
  ++ List.map (fun mediaUrl => SendImage (ra_session account) chatId mediaUrl)
       match rp_mediaUrls payload with
       | Some l => l
       | None =>
           match rp_mediaUrl payload with
           | Some u => if truthy u then [u] else []
           | None => []
           end
       end
  ++ match rp_wahaLocation payload with
     | Some location =>
         [SendLocation (ra_session account) chatId
            (cl_latitude location) (cl_longitude location)
            (cl_title location) (cl_address location)]
     | None => []
     end.

(** *** The monitor: the in-memory runtime state

    [runtimeState] is a [Map] keyed by [`${channel}:${accountId}`]. *)

Record RuntimeState := {
  rs_running : bool;
  rs_lastStartAt : option number;
  rs_lastStopAt : option number;
  rs_lastError : option jsstring;
  rs_lastInboundAt : option (option number);       (* absent, null or a time *)
  rs_lastOutboundAt : option (option number);
}.

(** [Partial<..>]: an absent property is [None]. *)
Record RuntimeStatePatch := {
  p_running : option bool;
  p_lastStartAt : option (option number);
  p_lastStopAt : option (option number);
  p_lastError : option (option jsstring);
  p_lastInboundAt : option (option number);
  p_lastOutboundAt : option (option number);
}.

Definition initialRuntimeState : RuntimeState :=
  {| rs_running := false; rs_lastStartAt := None; rs_lastStopAt := None;
     rs_lastError := None; rs_lastInboundAt := None; rs_lastOutboundAt := None |}.

(** [{ ...existing, ...params.state }] *)
Definition applyPatch (existing : RuntimeState) (patch : RuntimeStatePatch)
  : RuntimeState :=
  {| rs_running := nullish (p_running patch) (rs_running existing);
     rs_lastStartAt := nullish (p_lastStartAt patch) (rs_lastStartAt existing);
     rs_lastStopAt := nullish (p_lastStopAt patch) (rs_lastStopAt existing);
     rs_lastError := nullish (p_lastError patch) (rs_lastError existing);
     rs_lastInboundAt :=
       nullishOpt (p_lastInboundAt patch) (rs_lastInboundAt existing);
     rs_lastOutboundAt :=
       nullishOpt (p_lastOutboundAt patch) (rs_lastOutboundAt existing) |}.

Definition runtimeStateKey (channel accountId : jsstring) : jsstring :=
  channel ++ js ":" ++ accountId.

(** [recordChannelRuntimeState] on the contents of the map. *)
Definition recordRuntimeState (runtimeState : gmap jsstring RuntimeState)
  (channel accountId : jsstring) (state : RuntimeStatePatch)
  : gmap jsstring RuntimeState :=
  let key := runtimeStateKey channel accountId in
  let existing := nullish (runtimeState !! key) initialRuntimeState in
  <[key := applyPatch existing state]> runtimeState.

Definition getWahaRuntimeState (runtimeState : gmap jsstring RuntimeState)
  (accountId : jsstring) : option RuntimeState :=
  runtimeState !! (js "waha:" ++ accountId).

(** *** The responses written on an exchange *)

Definition isResponse (e : Event) : bool :=
  match e with EvRespond _ _ _ => true | _ => false end.

Definition responsesOf (tr : list Event) : list Event :=
  List.filter isResponse tr.

(** A callback of the handler is given the payload and the session, not
    the response object: it writes no response and leaves
    [res.headersSent] as it is. *)
Definition leavesResponseAlone {A} (m : M A) : Prop :=
  forall w, headersSent (snd (m w)) = headersSent w
            /\ responsesOf (trace (snd (m w))) = responsesOf (trace w).

(** What a run leaves behind: no exception, and the responses written. *)
Definition settled (responses : list Event) (r : Outcome unit * World) : Prop :=
  (forall e, fst r <> Throw e)
  /\ responsesOf (trace (snd r)) = responses
  /\ headersSent (snd r) = true.

(** *** Calls on the remote API made one after the other

    [for (const q of reqs) { lastResult = await client.send..(q) }] *)
Fixpoint sendInOrder (reqs : list ClientRequest) (lastResult : option jsstring)
  : M (option jsstring) :=
  match reqs with
  | [] => ret lastResult
  | q :: r => let! id := clientCall q in sendInOrder r (Some id)
  end.

(** *** The monitor: the guarded reply

    The [try { await ..dispatchReplyWithBufferedBlockDispatcher({..}) }
    catch (err) { .. }] statement that ends [handleMessage].  The two
    lookups of the host that [handleMessage] makes before this statement,
    of the agent route and of the messages config, are not part of it. *)
Definition dispatchReplyGuarded (account : ResolvedWahaAccount)
  (ctx : MsgContext) (payload : WahaMessagePayload) : M unit :=
  tryCatch
    (dispatchReplyWithBufferedBlockDispatcher ctx
       (deliver account ctx payload)
       (fun err kind =>
          logger_error (js "reply failed (" ++ kind ++ js "): "
                        ++ String_of_error err)))
    (fun err =>
       logger_error (js "auto-reply failed: " ++ String_of_error err) >>
       tryCatch
         (clientCall
            (SendText (ra_session account) (normalizeWahaTarget (From ctx))
               (js "Sorry, I encountered an error processing your message.")
               None) >> ret tt)
         (fun sendErr =>
            logger_error (js "error reply failed: " ++ String_of_error sendErr))).
(** ** Account resolver *)

Lemma includes_app arr x y :
  includes (arr ++ [y]) x = includes arr x || streq y x.
Proof. unfold includes. rewrite existsb_app. simpl. by rewrite orb_false_r. Qed.

(** The loop of [listWahaAccountIds] over distinct keys appends, in order,
    the keys that are not yet in the array. *)
Lemma fold_pushIfNew keys accountIds :
  NoDup keys ->
  fold_left pushIfNew keys accountIds
  = accountIds ++ List.filter (fun k => negb (includes accountIds k)) keys.
Proof.
  intros Hnd. revert accountIds.
  induction Hnd as [|k ks Hk Hnd IH]; intros accountIds; simpl.
  - by rewrite app_nil_r.
  - rewrite IH. unfold pushIfNew.
    destruct (includes accountIds k) eqn:Hin; simpl; [done|].
    rewrite <- app_assoc. simpl. do 2 f_equal.
    apply List.filter_ext_in. intros x Hx.
    rewrite includes_app. unfold streq.
    rewrite (bool_decide_eq_false_2 (k = x)); [by rewrite orb_false_r|].
    intros ->. apply Hk. by apply list_elem_of_In.
Qed.

Lemma filter_not_included_nil (keys : list jsstring) :
  List.filter (fun k => negb (includes [] k)) keys = keys.
Proof. induction keys as [|k ks IH]; simpl; [done|]. f_equal. exact IH. Qed.

Lemma NoDup_filter_bool (f : jsstring -> bool) (l : list jsstring) :
  NoDup l -> NoDup (List.filter f l).
Proof.
  induction 1 as [|x l Hx Hl IH]; simpl; [constructor|].
  destruct (f x); [|done]. constructor; [|done].
  rewrite list_elem_of_In, List.filter_In, <- list_elem_of_In.
  intros [Hin _]. by apply Hx.
Qed.

(** C9, amended.  With no WAHA section the list is empty.  Otherwise,
    the keys of the accounts object being distinct, the list is the
    default account id, put in front exactly when url, apiKey and session
    of the channel-wide config are all populated, followed by the keys of
    the accounts map in their order, without the ids already in the list;
    it has no duplicates and holds every key of the map.  Hence the list
    starts with the default id iff the three fields are populated or the
    default id is itself the first key of the map. *)
Theorem C9_listWahaAccountIds (cfg : OpenClawConfig) :
  (getWahaConfig cfg = None -> listWahaAccountIds cfg = [])
  /\ forall wahaConfig keys,
       getWahaConfig cfg = Some wahaConfig ->
       keys = Object_keys (nullish (wc_accounts wahaConfig) []) ->
       NoDup keys ->
       (defaultCredentialed wahaConfig = true ->
        listWahaAccountIds cfg
        = DEFAULT_ACCOUNT_ID
          :: List.filter (fun k => negb (streq DEFAULT_ACCOUNT_ID k)) keys)
       /\ (defaultCredentialed wahaConfig = false ->
           listWahaAccountIds cfg = keys)
       /\ NoDup (listWahaAccountIds cfg)
       /\ (forall k, k ∈ keys -> k ∈ listWahaAccountIds cfg)
       /\ ((exists rest, listWahaAccountIds cfg = DEFAULT_ACCOUNT_ID :: rest)
           <-> defaultCredentialed wahaConfig = true
               \/ exists rest, keys = DEFAULT_ACCOUNT_ID :: rest).
Proof.
  split.
  { unfold listWahaAccountIds. by intros ->. }
  intros wahaConfig keys Hcfg -> Hnd.
  assert (Hlist : listWahaAccountIds cfg
    = (if defaultCredentialed wahaConfig then [DEFAULT_ACCOUNT_ID] else [])
      ++ List.filter
           (fun k => negb (includes
              (if defaultCredentialed wahaConfig then [DEFAULT_ACCOUNT_ID] else [])
              k))
           (Object_keys (nullish (wc_accounts wahaConfig) []))).
  { unfold listWahaAccountIds. rewrite Hcfg. cbv zeta.
    destruct (wc_accounts wahaConfig) as [accounts|]; simpl in Hnd |- *.
    - by apply fold_pushIfNew.
    - by rewrite app_nil_r. }
  set (keys := Object_keys (nullish (wc_accounts wahaConfig) [])) in Hnd, Hlist |- *.
  assert (Hfilter : List.filter (fun k => negb (includes [DEFAULT_ACCOUNT_ID] k)) keys
                    = List.filter (fun k => negb (streq DEFAULT_ACCOUNT_ID k)) keys).
  { apply List.filter_ext. intros k. simpl. by rewrite orb_false_r. }
  rewrite Hlist. clear Hlist.
  destruct (defaultCredentialed wahaConfig); cbn [app];
    rewrite ?filter_not_included_nil, ?Hfilter.
  - split; [done|]. split; [done|]. split; [|split].
    + constructor; [|by apply NoDup_filter_bool].
      rewrite list_elem_of_In, List.filter_In. intros [_ H].
      unfold streq in H. by rewrite bool_decide_eq_true_2 in H.
    + intros k Hk. destruct (decide (DEFAULT_ACCOUNT_ID = k)) as [->|Hne].
      * left.
      * right. rewrite list_elem_of_In, List.filter_In, <- list_elem_of_In.
        split; [done|]. unfold streq. by rewrite bool_decide_eq_false_2.
    + split; [by left|]. intros _. by eexists.
  - split; [done|]. split; [done|]. split; [done|]. split; [done|].
    split; [by right|]. by intros [H|H].
Qed.

Lemma mergeConfig_inherited wahaConfig name :
  mergeConfig wahaConfig (InheritedMember name) = wahaConfig.
Proof. by destruct wahaConfig. Qed.

(** C8.  With [normalizedId] the normalized id and [wahaConfig] the
    channel-wide config (empty when absent):
    - when [normalizedId] is not the default sentinel and names an own
      entry of the accounts map, the record carries that id and its
      session is the entry's own session property, whatever the
      channel-wide session is;
    - when [normalizedId] is the default sentinel, or the property read
      [accounts?.[normalizedId]] finds nothing, the record is built from
      the channel-wide config alone, with session falling back to the
      string "default";
    - with no WAHA section at all the record has empty url and apiKey;
    - the code on an id that names no account but a member of
      [Object.prototype], such as "toString", when the accounts map is
      present: the property read finds the inherited member, and the
      record is a named one, with that id, without a session and never
      configured, not the channel-wide record. *)
Theorem C8_resolveWahaAccount (cfg : OpenClawConfig) (accountId : option jsstring) :
  let normalizedId := normalizeAccountId accountId in
  let wahaConfig := nullish (getWahaConfig cfg) emptyWahaConfig in
  let account := resolveWahaAccount cfg accountId in
  (forall accountConfig,
     normalizedId <> DEFAULT_ACCOUNT_ID ->
     accountEntry wahaConfig normalizedId = Some (OwnEntry accountConfig) ->
     ra_accountId account = normalizedId
     /\ ra_session account = ac_session accountConfig)
  /\ (normalizedId = DEFAULT_ACCOUNT_ID
      \/ accountEntry wahaConfig normalizedId = None ->
      account =
        {| ra_accountId := DEFAULT_ACCOUNT_ID;
           ra_name := wc_name wahaConfig;
           ra_enabled := nullish (wc_enabled wahaConfig) true;
           ra_url := nullish (wc_url wahaConfig) [];
           ra_apiKey := nullish (wc_apiKey wahaConfig) [];
           ra_session := Some (nullish (wc_session wahaConfig) (js "default"));
           ra_hmacKey := wc_hmacKey wahaConfig;
           ra_config := wahaConfig |})
  /\ (getWahaConfig cfg = None ->
      ra_url account = [] /\ ra_apiKey account = []
      /\ ra_session account = Some (js "default")
      /\ ra_config account = emptyWahaConfig)
  /\ (forall accounts name,
        normalizedId <> DEFAULT_ACCOUNT_ID ->
        wc_accounts wahaConfig = Some accounts ->
        lookupKey normalizedId accounts = None ->
        objectPrototypeMember normalizedId = Some name ->
        account =
          {| ra_accountId := normalizedId;
             ra_name := Some (nullish name normalizedId);
             ra_enabled := true;
             ra_url := nullish (wc_url wahaConfig) [];
             ra_apiKey := nullish (wc_apiKey wahaConfig) [];
             ra_session := None;
             ra_hmacKey := wc_hmacKey wahaConfig;
             ra_config := wahaConfig |}
        /\ isWahaAccountConfigured account = false).
Proof.
  cbv zeta. unfold resolveWahaAccount. cbv zeta.
  set (normalizedId := normalizeAccountId accountId).
  set (wahaConfig := nullish (getWahaConfig cfg) emptyWahaConfig).
  split; [|split; [|split]].
  - intros accountConfig Hne Hentry. rewrite Hentry. unfold streq.
    by rewrite bool_decide_eq_false_2.
  - intros [Heq|Hnone].
    + unfold streq. by rewrite bool_decide_eq_true_2.
    + rewrite Hnone. by destruct (negb _).
  - intros Hcfg. subst wahaConfig. rewrite Hcfg. simpl.
    by destruct (negb _).
  - intros accounts name Hne Haccounts Hown Hmember.
    assert (Hentry : accountEntry wahaConfig normalizedId
                     = Some (InheritedMember name)).
    { unfold accountEntry. by rewrite Haccounts, Hown, Hmember. }
    rewrite Hentry. unfold streq. rewrite bool_decide_eq_false_2 by done.
    cbn [negb propertiesOf ac_name ac_enabled ac_session nullish].
    rewrite mergeConfig_inherited. split; [done|].
    unfold isWahaAccountConfigured. cbn [ra_session].
    cbn [fmap option_fmap option_map truthyOpt]. by rewrite andb_false_r.
Qed.

(** ** Webhook ingestion endpoint *)

Section HandlerFacts.

Variable onMessage : WahaPayload -> jsstring -> M unit.
Variable onReaction : option (WahaPayload -> jsstring -> M unit).
Variable onSessionStatus : option (WahaPayload -> jsstring -> M unit).

Ltac run :=
  cbv [bind ret throw tryCatch emit respond logFn logger_error liftResult
       res_headersSent readRequestBody onHandlerError];
  cbn [trace headersSent fst snd app negb].

Lemma hmacGate_accepted account req rawBody w :
  hmacAccepted account req rawBody ->
  hmacGate account req rawBody w = (Ok true, w).
Proof.
  unfold hmacGate. intros [Hnone|(key & sig & alg & Hk & Hs & Ht & Ha & Hv)].
  - destruct (ra_hmacKey account) as [key|]; [|done].
    simpl in Hnone. by rewrite Hnone.
  - rewrite Hk, Hs, Ht, Ha.
    destruct (truthy key); [|done]. run. by rewrite Hv.
Qed.

(** The gate lets the request through, answers 401, or throws; it never
    parses the body. *)
Lemma hmacGate_cases account req rawBody w :
  hmacGate account req rawBody w = (Ok true, w)
  \/ (exists msg err,
        hmacGate account req rawBody w
        = (Ok false,
           {| trace := trace w ++
                [EvLog msg;
                 EvRespond 401 [contentTypeJson] (BodyJson [(js "error", err)])];
              headersSent := true |}))
  \/ (exists e, hmacGate account req rawBody w = (Throw e, w)).
Proof.
  unfold hmacGate.
  destruct (ra_hmacKey account) as [key|]; [|by left].
  destruct (truthy key); [|by left].
  destruct (x_webhook_hmac req) as [|signature|l].
  - right; left. do 2 eexists. run. by rewrite <- app_assoc.
  - destruct (truthy signature).
    + destruct (algorithmOf (x_webhook_hmac_algorithm req)) as [e|algorithm].
      { right; right. by exists e. }
      destruct (validateWahaHmac rawBody signature key algorithm)
        as [e|[|]] eqn:Hv; run; rewrite Hv.
      * right; right. by exists e.
      * by left.
      * right; left. do 2 eexists. cbn [negb]. by rewrite <- app_assoc.
    + right; left. do 2 eexists. run. by rewrite <- app_assoc.
  - right; left. do 2 eexists. run. by rewrite <- app_assoc.
Qed.

Lemma handler_post account req :
  method req = js "POST" ->
  handler onMessage onReaction onSessionStatus account req
  = tryCatch
      (let! rawBody := readRequestBody req in
       let! verified := hmacGate account req rawBody in
       if verified then
         let! payload := emit (EvJsonParse rawBody) >> liftResult (JSON_parse rawBody) in
         respond 200 [contentTypeJson] (BodyJson [(js "status", js "ok")]) >>
         logFn (js "waha: received webhook event " ++ [QUOTE] ++ ev_event payload
                ++ [QUOTE] ++ js " for session " ++ [QUOTE] ++ ev_session payload
                ++ [QUOTE]) >>
         dispatchEvent onMessage onReaction onSessionStatus payload
       else ret tt)
      onHandlerError.
Proof. unfold handler. intros ->. reflexivity. Qed.

(** An accepted POST: the dispatch runs in the world in which the 200
    response is already written. *)
Lemma handler_accepted account req rawBody payload :
  method req = js "POST" ->
  requestBody req = inr rawBody ->
  hmacAccepted account req rawBody ->
  JSON_parse rawBody = inr payload ->
  handler onMessage onReaction onSessionStatus account req initialWorld
  = tryCatch (dispatchEvent onMessage onReaction onSessionStatus payload)
      onHandlerError (acknowledged rawBody payload).
Proof.
  intros Hm Hb Hacc Hp. rewrite (handler_post _ _ Hm).
  unfold tryCatch at 1. unfold bind at 1. unfold readRequestBody. rewrite Hb.
  cbn [liftResult ret]. unfold bind at 1. rewrite (hmacGate_accepted _ _ _ _ Hacc).
  run. rewrite Hp. reflexivity.
Qed.

Lemma dispatchEvent_message payload w :
  isMessageEvent (ev_event payload) = true ->
  payload_fromMe (ev_payload payload) = false ->
  dispatchEvent onMessage onReaction onSessionStatus payload w
  = tryCatch (onMessage (ev_payload payload) (ev_session payload))
      (fun err =>
         logger_error (js "webhook message handler failed: "
                       ++ String_of_error err))
      {| trace := trace w ++ [EvOnMessage (ev_payload payload) (ev_session payload)];
         headersSent := headersSent w |}.
Proof. unfold dispatchEvent. intros -> ->. reflexivity. Qed.

Lemma dispatchEvent_fromMe payload :
  isMessageEvent (ev_event payload) = true ->
  payload_fromMe (ev_payload payload) = true ->
  dispatchEvent onMessage onReaction onSessionStatus payload = ret tt.
Proof. unfold dispatchEvent. intros -> ->. reflexivity. Qed.

(** A POST whose body arrives is let through by the gate, or ends with
    exactly a 401 response, or with exactly a 500 response; in the last
    two cases the body is not parsed and no callback is invoked. *)
Lemma handler_gate_outcomes account req rawBody :
  method req = js "POST" ->
  requestBody req = inr rawBody ->
  hmacGate account req rawBody initialWorld = (Ok true, initialWorld)
  \/ (exists msg err,
        traceOf (handler onMessage onReaction onSessionStatus account req)
        = [EvLog msg;
           EvRespond 401 [contentTypeJson] (BodyJson [(js "error", err)])])
  \/ (exists e,
        traceOf (handler onMessage onReaction onSessionStatus account req)
        = [EvLogError (js "webhook error: " ++ String_of_error e);
           EvRespond 500 [contentTypeJson]
             (BodyJson [(js "error", js "Internal server error")])]).
Proof.
  intros Hm Hb.
  destruct (hmacGate_cases account req rawBody initialWorld)
    as [H|[(msg & err & H)|(e & H)]]; [by left|right; left|right; right].
  - exists msg, err. unfold traceOf. rewrite (handler_post _ _ Hm).
    unfold tryCatch at 1. unfold bind at 1. unfold readRequestBody. rewrite Hb.
    cbn [liftResult ret]. unfold bind at 1. by rewrite H.
  - exists e. unfold traceOf. rewrite (handler_post _ _ Hm).
    unfold tryCatch at 1. unfold bind at 1. unfold readRequestBody. rewrite Hb.
    cbn [liftResult ret]. unfold bind at 1. by rewrite H.
Qed.

(** C1, the code on a signature of the wrong length.  With an HMAC key
    configured and a signature header whose byte length differs from that
    of the computed digest, [timingSafeEqual] throws inside
    [validateWahaHmac]; the handler's catch block answers 500, not 401.
    The body is not parsed and nothing is dispatched. *)
Theorem C1_signature_length_mismatch_answers_500
  account req rawBody key signature algorithm computed :
  method req = js "POST" ->
  requestBody req = inr rawBody ->
  ra_hmacKey account = Some key -> truthy key = true ->
  x_webhook_hmac req = HeaderString signature -> truthy signature = true ->
  algorithmOf (x_webhook_hmac_algorithm req) = inr algorithm ->
  createHmacHex algorithm key rawBody = inr computed ->
  length (Buffer_from computed) <> length (Buffer_from signature) ->
  handler onMessage onReaction onSessionStatus account req initialWorld
  = (Ok tt,
     {| trace :=
          [EvLogError (js "webhook error: "
                       ++ String_of_error ERR_CRYPTO_TIMING_SAFE_EQUAL_LENGTH);
           EvRespond 500 [contentTypeJson]
             (BodyJson [(js "error", js "Internal server error")])];
        headersSent := true |}).
Proof.
  intros Hm Hb Hk Htk Hs Hts Ha Hc Hlen. rewrite (handler_post _ _ Hm).
  unfold tryCatch at 1. unfold bind at 1. unfold readRequestBody. rewrite Hb.
  cbn [liftResult ret]. unfold bind at 1.
  unfold hmacGate. rewrite Hk, Htk, Hs, Hts, Ha.
  run. unfold validateWahaHmac. rewrite Hc. unfold timingSafeEqual.
  apply Nat.eqb_neq in Hlen. rewrite Hlen. reflexivity.
Qed.

(** C2.  For an accepted POST the handler is the dispatch started in the
    world [acknowledged], whose trace ends with the 200 response and the
    log line: the response is written before the dispatch begins.  For a
    message event not from the account itself the message handler is
    invoked in that world; when its promise never settles the handler
    hangs too, with the response already written. *)
Theorem C2_response_before_dispatch account req rawBody payload :
  method req = js "POST" ->
  requestBody req = inr rawBody ->
  hmacAccepted account req rawBody ->
  JSON_parse rawBody = inr payload ->
  let invoked :=
    {| trace := trace (acknowledged rawBody payload)
                  ++ [EvOnMessage (ev_payload payload) (ev_session payload)];
       headersSent := true |} in
  handler onMessage onReaction onSessionStatus account req initialWorld
  = tryCatch (dispatchEvent onMessage onReaction onSessionStatus payload)
      onHandlerError (acknowledged rawBody payload)
  /\ (isMessageEvent (ev_event payload) = true ->
      payload_fromMe (ev_payload payload) = false ->
      dispatchEvent onMessage onReaction onSessionStatus payload
        (acknowledged rawBody payload)
      = tryCatch (onMessage (ev_payload payload) (ev_session payload))
          (fun err =>
             logger_error (js "webhook message handler failed: "
                           ++ String_of_error err))
          invoked)
  /\ (isMessageEvent (ev_event payload) = true ->
      payload_fromMe (ev_payload payload) = false ->
      forall w,
        onMessage (ev_payload payload) (ev_session payload) invoked = (Hang, w) ->
        handler onMessage onReaction onSessionStatus account req initialWorld
        = (Hang, w)).
Proof.
  intros Hm Hb Hacc Hp invoked.
  pose proof (handler_accepted account req rawBody payload Hm Hb Hacc Hp) as H.
  split; [exact H|]. split.
  - intros He Hf. by rewrite dispatchEvent_message.
  - intros He Hf w Hhang. rewrite H.
    unfold tryCatch at 1. rewrite dispatchEvent_message by done.
    unfold tryCatch.
    change ({| trace := trace (acknowledged rawBody payload)
                 ++ [EvOnMessage (ev_payload payload) (ev_session payload)];
               headersSent := headersSent (acknowledged rawBody payload) |})
      with invoked.
    by rewrite Hhang.
Qed.

End HandlerFacts.

(** C7.  When the body of a request parses to a [message] or
    [message.any] event whose payload has [fromMe] set, the dispatch is a
    no-op whatever the callbacks are, and a run of the handler registered
    by the monitor contains no invocation of the message handler, no
    access-control evaluation, no pairing step, no call on the remote API
    and no reply dispatch, for every account record. *)
Theorem C7_self_echo_suppressed account req rawBody payload :
  requestBody req = inr rawBody ->
  JSON_parse rawBody = inr payload ->
  isMessageEvent (ev_event payload) = true ->
  payload_fromMe (ev_payload payload) = true ->
  (forall onMessage onReaction onSessionStatus,
     dispatchEvent onMessage onReaction onSessionStatus payload = ret tt)
  /\ Forall (fun e => isHandlingEvent e = false)
       (traceOf (monitorHandler account req)).
Proof.
  intros Hb Hp He Hf. split.
  { intros. by apply dispatchEvent_fromMe. }
  unfold traceOf, monitorHandler, handler.
  destruct (streq (method req) (js "GET")); [by repeat constructor|].
  destruct (negb (streq (method req) (js "POST"))); [by repeat constructor|].
  unfold tryCatch at 1. unfold bind at 1. unfold readRequestBody. rewrite Hb.
  cbn [liftResult ret]. unfold bind at 1.
  destruct (hmacGate_cases account req rawBody initialWorld)
    as [H|[(msg & err & H)|(e & H)]]; rewrite H.
  - cbv [bind ret emit liftResult respond logFn throw]. rewrite Hp.
    rewrite dispatchEvent_fromMe by done. by repeat constructor.
  - by repeat constructor.
  - by repeat constructor.
Qed.

(** ** Access control *)

Lemma has_normalizedSet entries x :
  has (normalizedSet entries) x = true
  <-> exists e, e ∈ entries /\ normalizeWahaAllowEntry e = x.
Proof.
  unfold has, normalizedSet.
  rewrite bool_decide_eq_true, elem_of_list_to_set, list_elem_of_fmap.
  split.
  - intros (e & -> & He). by exists e.
  - intros (e & He & <-). by exists e.
Qed.

Lemma allowlist_matches account senderId senderE164 :
  let set :=
    normalizedSet
      ((String_of_entry <$> nullish (wc_allowFrom (ra_config account)) [])
       ++ nullish readAllowFromStore []) in
  has set senderE164 || has set senderId = true
  <-> senderMatches account senderId senderE164.
Proof.
  cbv zeta. unfold senderMatches.
  rewrite orb_true_iff, !has_normalizedSet. split.
  - intros [(e & He & H)|(e & He & H)]; exists e; auto.
  - intros (e & He & [H|H]); [left|right]; by exists e.
Qed.

(** C3.  For a direct message ([isGroup] false) and any account record,
    with [policy] the effective DM policy:
    - disabled rejects and open accepts, whatever the allow-list holds;
    - allowlist and pairing accept iff some entry of the static allowFrom
      or of the pairing store normalizes to the sender's E.164-like form
      or to its chat id;
    - on no match the reason is "pairing required" iff the policy is
      pairing;
    - [handleMessage] runs the pairing workflow (reply built, request
      recorded, reply sent) when the reason is "pairing required", and on
      any other rejection it only logs the drop. *)
Theorem C3_dm_access_control account senderId senderE164 :
  let verdict := checkInboundAccessControl senderId senderE164 false account in
  let policy := effectiveDmPolicy account in
  (policy = DmDisabled ->
   allowed verdict = false /\ reason verdict <> Some (js "pairing required"))
  /\ (policy = DmOpen -> allowed verdict = true)
  /\ (policy = DmAllowlist \/ policy = DmPairing ->
      (allowed verdict = true <-> senderMatches account senderId senderE164))
  /\ (policy = DmAllowlist \/ policy = DmPairing ->
      ~ senderMatches account senderId senderE164 ->
      (reason verdict = Some (js "pairing required") <-> policy = DmPairing))
  /\ (forall payload session,
        senderId = nullish (mp_participant payload) (mp_from payload) ->
        senderE164 = chatIdToE164 senderId ->
        isGroupChatId (mp_from payload) = false ->
        allowed verdict = false ->
        let senderName :=
          nullishOpt (mp_notifyName payload) (mp_participant payload) in
        let dropped :=
          checkedTrace account senderId senderE164 false
          ++ [EvLog (js "dropping message from " ++ senderE164 ++ js ": "
                     ++ String_of_optional (reason verdict))] in
        (reason verdict = Some (js "pairing required") ->
         traceOf (handleMessage account payload session)
         = dropped
           ++ [EvBuildPairingReply senderE164;
               EvUpsertPairingRequest senderE164 senderName;
               EvClient (SendText (ra_session account)
                           (normalizeWahaTarget (mp_from payload))
                           (buildPairingReply senderE164 senderName) None)])
        /\ (reason verdict <> Some (js "pairing required") ->
            traceOf (handleMessage account payload session) = dropped
            /\ Forall (fun e => isPairingEvent e = false)
                 (traceOf (handleMessage account payload session)))).
Proof.
  cbv zeta. unfold effectiveDmPolicy.
  pose proof (allowlist_matches account senderId senderE164) as Hm.
  cbv zeta in Hm.
  split; [|split; [|split; [|split]]].
  - intros Hp. unfold checkInboundAccessControl. rewrite Hp. by split.
  - intros Hp. unfold checkInboundAccessControl. by rewrite Hp.
  - intros Hp. unfold checkInboundAccessControl.
    destruct Hp as [Hp|Hp]; rewrite Hp; cbv zeta; rewrite <- Hm;
      by destruct (_ || _).
  - intros Hp Hno. unfold checkInboundAccessControl.
    assert (Hf : has (normalizedSet
                   ((String_of_entry <$> nullish (wc_allowFrom (ra_config account)) [])
                    ++ nullish readAllowFromStore [])) senderE164
                 || has (normalizedSet
                   ((String_of_entry <$> nullish (wc_allowFrom (ra_config account)) [])
                    ++ nullish readAllowFromStore [])) senderId = false).
    { apply not_true_is_false. by rewrite Hm. }
    destruct Hp as [Hp|Hp]; rewrite Hp; cbv zeta; rewrite Hf; by split.
  - intros payload session Hsid He164 Hgroup Hrej.
    unfold traceOf, handleMessage, buildMsgContext. cbv zeta.
    rewrite Hgroup, <- Hsid, <- He164.
    cbv [bind emit recordChannelRuntimeState logFn ret].
    cbn [trace headersSent initialWorld app fst snd].
    rewrite Hrej. cbn [negb].
    split.
    + intros Hr. rewrite Hr. rewrite bool_decide_eq_true_2 by done.
      unfold clientCall. cbn [trace headersSent].
      by destruct (remote _ _).
    + intros Hr. rewrite bool_decide_eq_false_2 by done.
      split; [done|]. by repeat constructor.
Qed.

(** ** Outbound dispatch *)

Lemma blankPayload_spec payload :
  blankPayload payload = true ->
  truthy (trim (nullish (rp_text payload) [])) = false
  /\ match rp_mediaUrls payload with
     | Some l => l
     | None =>
         match rp_mediaUrl payload with
         | Some u => if truthy u then [u] else []
         | None => []
         end
     end = []
  /\ rp_wahaLocation payload = None.
Proof.
  unfold blankPayload.
  intros [[H1%negb_true_iff H2]%andb_true_iff H3]%andb_true_iff.
  split; [done|]. split.
  - destruct (rp_mediaUrls payload) as [[|u l]|]; [done|done|].
    destruct (rp_mediaUrl payload) as [u|]; [|done].
    simpl in H2. apply negb_true_iff in H2. by rewrite H2.
  - by destruct (rp_wahaLocation payload).
Qed.

(** C10, amended.  For a payload with blank text, no media URL and no
    location, [sendPayload] makes no call on the remote API.  Once the
    plugin runtime is registered: on a configured account it returns the
    placeholder message id "sent"; on an account that is not configured it
    throws "WAHA not configured". *)
Theorem C10_blank_payload to payload accountId cfg :
  blankPayload payload = true ->
  Forall (fun e => match e with EvClient _ => False | _ => True end)
    (traceOf (sendPayload to payload accountId cfg))
  /\ (runtimeRegistered = true ->
      isWahaAccountConfigured (resolveWahaAccount cfg accountId) = true ->
      sendPayload to payload accountId cfg initialWorld
      = (Ok {| or_channel := js "waha";
               or_messageId := js "sent";
               or_chatId := normalizeWahaTarget to |},
         initialWorld))
  /\ (runtimeRegistered = true ->
      isWahaAccountConfigured (resolveWahaAccount cfg accountId) = false ->
      sendPayload to payload accountId cfg initialWorld
      = (Throw (Error (js "WAHA not configured")), initialWorld)).
Proof.
  intros Hblank.
  destruct (blankPayload_spec payload Hblank) as (Ht & Hm & Hl).
  assert (H1 : runtimeRegistered = true ->
    isWahaAccountConfigured (resolveWahaAccount cfg accountId) = true ->
    sendPayload to payload accountId cfg initialWorld
    = (Ok {| or_channel := js "waha"; or_messageId := js "sent";
             or_chatId := normalizeWahaTarget to |}, initialWorld)).
  { intros Hrt Hc. unfold sendPayload, getWahaRuntime. rewrite Hrt.
    cbv zeta. unfold bind at 1. cbn [ret]. rewrite Hc. cbn [negb].
    rewrite Ht, Hm, Hl. reflexivity. }
  assert (H2 : runtimeRegistered = true ->
    isWahaAccountConfigured (resolveWahaAccount cfg accountId) = false ->
    sendPayload to payload accountId cfg initialWorld
    = (Throw (Error (js "WAHA not configured")), initialWorld)).
  { intros Hrt Hc. unfold sendPayload, getWahaRuntime. rewrite Hrt.
    cbv zeta. unfold bind at 1. cbn [ret]. by rewrite Hc. }
  split; [|split; [exact H1|exact H2]].
  unfold traceOf. destruct runtimeRegistered eqn:Hrt.
  - destruct (isWahaAccountConfigured (resolveWahaAccount cfg accountId));
      [rewrite H1 by done|rewrite H2 by done]; constructor.
  - unfold sendPayload, getWahaRuntime. rewrite Hrt. constructor.
Qed.

(** ** Further facts about the account resolver *)

(** X8.  [normalizeAccountId] sends an absent id, the empty string and
    the string "default" to the default id, and normalizing twice is
    normalizing once. *)
Theorem X8_normalizeAccountId_idempotent (accountId : option jsstring) :
  normalizeAccountId (Some (normalizeAccountId accountId))
  = normalizeAccountId accountId
  /\ normalizeAccountId None = DEFAULT_ACCOUNT_ID
  /\ normalizeAccountId (Some []) = DEFAULT_ACCOUNT_ID
  /\ normalizeAccountId (Some (js "default")) = DEFAULT_ACCOUNT_ID.
Proof.
  assert (Hd : normalizeAccountId (Some DEFAULT_ACCOUNT_ID) = DEFAULT_ACCOUNT_ID).
  { unfold normalizeAccountId, streq.
    rewrite (bool_decide_eq_true_2 (DEFAULT_ACCOUNT_ID = DEFAULT_ACCOUNT_ID)) by done.
    by rewrite orb_true_r. }
  split; [|by repeat split].
  destruct accountId as [a|]; [|exact Hd].
  destruct (negb (truthy a) || streq a (js "default") || streq a DEFAULT_ACCOUNT_ID)
    eqn:E.
  - assert (normalizeAccountId (Some a) = DEFAULT_ACCOUNT_ID) as ->; [|exact Hd].
    unfold normalizeAccountId. by rewrite E.
  - assert (normalizeAccountId (Some a) = a) as Ha.
    { unfold normalizeAccountId. by rewrite E. }
    by rewrite !Ha.
Qed.

Lemma fold_pushIfNew_head keys a accountIds :
  exists rest, fold_left pushIfNew keys (a :: accountIds) = a :: rest.
Proof.
  revert accountIds. induction keys as [|k ks IH]; intros accountIds; simpl.
  - by eexists.
  - unfold pushIfNew at 2. destruct (negb (includes (a :: accountIds) k)).
    + apply (IH (accountIds ++ [k])).
    + apply IH.
Qed.

Lemma fold_pushIfNew_elem keys accountIds x :
  x ∈ fold_left pushIfNew keys accountIds <-> x ∈ accountIds \/ x ∈ keys.
Proof.
  revert accountIds. induction keys as [|k ks IH]; intros accountIds; simpl.
  - split; [by left|]. intros [H|H]; [done|]. by apply elem_of_nil in H.
  - rewrite IH, elem_of_cons. unfold pushIfNew.
    destruct (includes accountIds k) eqn:Hin; simpl.
    + split.
      * intros [H|H]; [by left|by right; right].
      * intros [H|[->|H]]; [by left| |by right].
        left. unfold includes in Hin.
        apply existsb_exists in Hin as (y & Hy & Heq).
        apply bool_decide_eq_true_1 in Heq. subst y. by apply list_elem_of_In.
    + rewrite elem_of_app, list_elem_of_singleton. split.
      * intros [[H|H]|H]; [by left|by right; left|by right; right].
      * intros [H|[H|H]]; [by left; left|by left; right|by right].
Qed.

(** The ids listed for a configuration. *)
Lemma listWahaAccountIds_elem cfg wahaConfig x :
  getWahaConfig cfg = Some wahaConfig ->
  x ∈ listWahaAccountIds cfg
  <-> (defaultCredentialed wahaConfig = true /\ x = DEFAULT_ACCOUNT_ID)
      \/ x ∈ Object_keys (nullish (wc_accounts wahaConfig) []).
Proof.
  intros Hcfg. unfold listWahaAccountIds. rewrite Hcfg. cbv zeta.
  assert (Hfold : forall keys,
    x ∈ fold_left pushIfNew keys
          (if defaultCredentialed wahaConfig then [DEFAULT_ACCOUNT_ID] else [])
    <-> (defaultCredentialed wahaConfig = true /\ x = DEFAULT_ACCOUNT_ID)
        \/ x ∈ keys).
  { intros keys. rewrite fold_pushIfNew_elem.
    destruct (defaultCredentialed wahaConfig).
    - rewrite list_elem_of_singleton. split.
      + intros [H|H]; [by left|by right].
      + intros [[_ H]|H]; [by left|by right].
    - split.
      + intros [H|H]; [by apply elem_of_nil in H|by right].
      + intros [[H _]|H]; [done|by right]. }
  destruct (wc_accounts wahaConfig) as [accounts|]; cbn [nullish].
  - apply Hfold.
  - apply (Hfold []).
Qed.

(** X9.  [resolveDefaultWahaAccountId] returns the first listed id when
    that id is a non-empty string, and the default id when nothing is
    listed. *)
Theorem X9_default_account_is_first_listed (cfg : OpenClawConfig) :
  (listWahaAccountIds cfg = [] ->
   resolveDefaultWahaAccountId cfg = DEFAULT_ACCOUNT_ID)
  /\ (forall k rest,
        listWahaAccountIds cfg = k :: rest -> truthy k = true ->
        resolveDefaultWahaAccountId cfg = k).
Proof.
  unfold listWahaAccountIds, resolveDefaultWahaAccountId.
  destruct (getWahaConfig cfg) as [wahaConfig|]; [|by split]. cbv zeta.
  destruct (defaultCredentialed wahaConfig).
  - split.
    + destruct (wc_accounts wahaConfig) as [accounts|]; [|done].
      destruct (fold_pushIfNew_head (Object_keys accounts) DEFAULT_ACCOUNT_ID [])
        as [rest ->]. done.
    + intros k rest Hl _.
      destruct (wc_accounts wahaConfig) as [accounts|]; [|congruence].
      destruct (fold_pushIfNew_head (Object_keys accounts) DEFAULT_ACCOUNT_ID [])
        as [rest' E]. rewrite E in Hl. congruence.
  - destruct (wc_accounts wahaConfig) as [accounts|]; [|by split].
    destruct (Object_keys accounts) as [|k0 ks]; [by split|].
    cbn [fold_left]. change (pushIfNew [] k0) with [k0].
    destruct (fold_pushIfNew_head ks k0 []) as [rest' E]. rewrite E.
    split; [done|]. intros k rest Hl Hk. injection Hl as <- _. by rewrite Hk.
Qed.


Lemma resolveWahaAccount_named cfg accountId accountConfig :
  normalizeAccountId accountId <> DEFAULT_ACCOUNT_ID ->
  accountEntry (nullish (getWahaConfig cfg) emptyWahaConfig)
    (normalizeAccountId accountId) = Some (OwnEntry accountConfig) ->
  resolveWahaAccount cfg accountId
  = let wahaConfig := nullish (getWahaConfig cfg) emptyWahaConfig in
    {| ra_accountId := normalizeAccountId accountId;
       ra_name := Some (nullish (ac_name accountConfig)
                          (normalizeAccountId accountId));
       ra_enabled := nullish (ac_enabled accountConfig) true;
       ra_url := nullish (wc_url wahaConfig) [];
       ra_apiKey := nullish (wc_apiKey wahaConfig) [];
       ra_session := ac_session accountConfig;
       ra_hmacKey := wc_hmacKey wahaConfig;
       ra_config := mergeConfig wahaConfig (OwnEntry accountConfig) |}.
Proof.
  intros Hne Hentry. unfold resolveWahaAccount. cbv zeta. rewrite Hentry.
  unfold streq. by rewrite bool_decide_eq_false_2.
Qed.

Lemma resolveWahaAccount_default cfg accountId :
  normalizeAccountId accountId = DEFAULT_ACCOUNT_ID
  \/ accountEntry (nullish (getWahaConfig cfg) emptyWahaConfig)
       (normalizeAccountId accountId) = None ->
  resolveWahaAccount cfg accountId
  = let wahaConfig := nullish (getWahaConfig cfg) emptyWahaConfig in
    {| ra_accountId := DEFAULT_ACCOUNT_ID;
       ra_name := wc_name wahaConfig;
       ra_enabled := nullish (wc_enabled wahaConfig) true;
       ra_url := nullish (wc_url wahaConfig) [];
       ra_apiKey := nullish (wc_apiKey wahaConfig) [];
       ra_session := Some (nullish (wc_session wahaConfig) (js "default"));
       ra_hmacKey := wc_hmacKey wahaConfig;
       ra_config := wahaConfig |}.
Proof.
  unfold resolveWahaAccount. cbv zeta. intros [Heq|Hnone].
  - unfold streq. by rewrite bool_decide_eq_true_2.
  - rewrite Hnone. by destruct (negb _).
Qed.

(** X10.  A named account takes url and apiKey from the channel-wide
    config and its session from its own entry only: it is configured iff
    those three are non-blank, and an entry without a session is never
    configured, whatever the channel-wide session is. *)
Theorem X10_named_account_configured cfg accountId accountConfig :
  let wahaConfig := nullish (getWahaConfig cfg) emptyWahaConfig in
  normalizeAccountId accountId <> DEFAULT_ACCOUNT_ID ->
  accountEntry wahaConfig (normalizeAccountId accountId)
  = Some (OwnEntry accountConfig) ->
  isWahaAccountConfigured (resolveWahaAccount cfg accountId)
  = truthy (trim (nullish (wc_url wahaConfig) []))
    && truthy (trim (nullish (wc_apiKey wahaConfig) []))
    && truthyOpt (trim <$> ac_session accountConfig)
  /\ (ac_session accountConfig = None ->
      isWahaAccountConfigured (resolveWahaAccount cfg accountId) = false).
Proof.
  intros wahaConfig Hne Hentry.
  rewrite (resolveWahaAccount_named cfg accountId accountConfig Hne Hentry).
  cbv zeta. unfold isWahaAccountConfigured. cbn [ra_url ra_apiKey ra_session].
  split; [done|]. intros ->. simpl. by rewrite andb_false_r.
Qed.

Lemma truthy_trim s : truthy (trim s) = true -> truthy s = true.
Proof. by destruct s. Qed.

Lemma fold_issues (accounts : list AccountSnapshot) issues :
  fold_left (fun issues account => issues ++ issuesOf account) accounts issues
  = issues ++ List.flat_map issuesOf accounts.
Proof.
  revert issues. induction accounts as [|a l IH]; intros issues; simpl.
  - by rewrite app_nil_r.
  - by rewrite IH, app_assoc.
Qed.

(** X11.  A configured account has credential source "config", and the
    snapshots of configured accounts raise no status issue; for any
    snapshots there are at most two issues per account. *)
Theorem X11_configured_accounts_raise_no_issue (accounts : list ResolvedWahaAccount) :
  Forall (fun account => isWahaAccountConfigured account = true) accounts ->
  Forall (fun account => getWahaCredentialSource account = js "config") accounts
  /\ collectStatusIssues (describeAccount <$> accounts) = []
  /\ forall snapshots,
       (length (collectStatusIssues snapshots) <= 2 * length snapshots)%nat.
Proof.
  intros Hall.
  assert (Hone : forall account, isWahaAccountConfigured account = true ->
            getWahaCredentialSource account = js "config"
            /\ issuesOf (describeAccount account) = []).
  { intros account Hc. unfold isWahaAccountConfigured in Hc.
    apply andb_true_iff in Hc as [[Hu Hk]%andb_true_iff _].
    assert (Hsrc : getWahaCredentialSource account = js "config").
    { unfold getWahaCredentialSource. by rewrite Hu, Hk. }
    split; [done|]. unfold issuesOf, describeAccount.
    cbn [as_baseUrl as_credentialSource as_accountId truthyOpt nullish].
    rewrite Hsrc, (truthy_trim _ Hu). reflexivity. }
  split; [|split].
  - eapply Forall_impl; [exact Hall|]. intros a Ha. by apply Hone.
  - unfold collectStatusIssues. rewrite fold_issues. simpl.
    induction Hall as [|a l Ha Hl IH]; simpl; [done|].
    destruct (Hone a Ha) as [_ ->]. exact IH.
  - intros snapshots. unfold collectStatusIssues. rewrite fold_issues. simpl.
    induction snapshots as [|a l IH]; simpl; [lia|].
    rewrite length_app. unfold issuesOf at 1. rewrite length_app.
    destruct (negb (truthyOpt (as_baseUrl a)));
      destruct (negb (truthyOpt (as_credentialSource a))
                || streq (nullish (as_credentialSource a) []) (js "none"));
      simpl; lia.
Qed.

Lemma lookupKey_Some {V} k (o : list (jsstring * V)) :
  k ∈ Object_keys o -> exists v, lookupKey k o = Some v.
Proof.
  unfold lookupKey, Object_keys. induction o as [|[k' v] o IH]; simpl.
  - intros H. by apply elem_of_nil in H.
  - intros H. unfold streq at 1. simpl. case_bool_decide as Hk; simpl.
    + by eexists.
    + apply elem_of_cons in H as [->|H]; [done|]. by apply IH.
Qed.

Lemma lookupKey_None {V} k (o : list (jsstring * V)) :
  k ∉ Object_keys o -> lookupKey k o = None.
Proof.
  unfold lookupKey, Object_keys. induction o as [|[k' v] o IH]; simpl; [done|].
  intros H. apply not_elem_of_cons in H as [Hne H].
  unfold streq at 1. simpl. rewrite bool_decide_eq_false_2 by done.
  by apply IH.
Qed.

(** X12.  Every listed id that is its own normal form resolves to a
    record that carries this id. *)
Theorem X12_listed_id_resolves_to_itself cfg accountId :
  accountId ∈ listWahaAccountIds cfg ->
  normalizeAccountId (Some accountId) = accountId ->
  ra_accountId (resolveWahaAccount cfg (Some accountId)) = accountId.
Proof.
  intros Hin Hnorm.
  destruct (decide (accountId = DEFAULT_ACCOUNT_ID)) as [Heq|Hne].
  { rewrite resolveWahaAccount_default; [by rewrite Heq|].
    left. by rewrite Hnorm. }
  destruct (getWahaConfig cfg) as [wahaConfig|] eqn:Hcfg.
  - apply (listWahaAccountIds_elem cfg wahaConfig accountId Hcfg) in Hin
      as [[_ Heq]|Hkey]; [done|].
    assert (exists ac, accountEntry wahaConfig accountId = Some (OwnEntry ac))
      as [ac Hac].
    { unfold accountEntry.
      destruct (wc_accounts wahaConfig) as [accounts|]; cbn [nullish] in Hkey.
      - destruct (lookupKey_Some accountId accounts Hkey) as [ac ->].
        by exists ac.
      - by apply elem_of_nil in Hkey. }
    rewrite (resolveWahaAccount_named cfg (Some accountId) ac).
    + by rewrite Hnorm.
    + by rewrite Hnorm.
    + by rewrite Hnorm, Hcfg.
  - unfold listWahaAccountIds in Hin. rewrite Hcfg in Hin.
    by apply elem_of_nil in Hin.
Qed.

(** ** Editing the configuration *)

Lemma lookupKey_cons {V} k k' (v : V) o :
  lookupKey k ((k', v) :: o) = if streq k' k then Some v else lookupKey k o.
Proof. unfold lookupKey. simpl. by destruct (streq k' k). Qed.

Lemma includes_elem arr x : includes arr x = true <-> x ∈ arr.
Proof.
  unfold includes. rewrite existsb_exists. split.
  - intros (y & Hy & Heq). apply bool_decide_eq_true_1 in Heq. subst y.
    by apply list_elem_of_In.
  - intros Hx. exists x. split; [by apply list_elem_of_In|].
    by apply bool_decide_eq_true_2.
Qed.

Lemma lookupKey_replaceKey_eq {V} k (v : V) o :
  k ∈ Object_keys o -> lookupKey k (replaceKey k v o) = Some v.
Proof.
  induction o as [|[k' v'] o IH]; simpl.
  - intros H. by apply elem_of_nil in H.
  - intros H. destruct (streq k' k) eqn:E.
    + by rewrite lookupKey_cons, E.
    + rewrite lookupKey_cons, E. apply IH.
      apply elem_of_cons in H as [->|H]; [|done].
      unfold streq in E. by rewrite bool_decide_eq_true_2 in E.
Qed.

Lemma lookupKey_replaceKey_ne {V} k k' (v : V) o :
  k <> k' -> lookupKey k' (replaceKey k v o) = lookupKey k' o.
Proof.
  intros Hne. induction o as [|[k0 v0] o IH]; simpl; [done|].
  destruct (streq k0 k) eqn:E.
  - apply bool_decide_eq_true_1 in E. subst k0.
    rewrite !lookupKey_cons. unfold streq. by rewrite bool_decide_eq_false_2.
  - by rewrite !lookupKey_cons, IH.
Qed.

Lemma Object_keys_replaceKey {V} k (v : V) o :
  Object_keys (replaceKey k v o) = Object_keys o.
Proof.
  unfold Object_keys. induction o as [|[k0 v0] o IH]; simpl; [done|].
  destruct (streq k0 k); simpl; [done|]. by rewrite IH.
Qed.

Lemma lookupKey_insertIndexKey_eq {V} n k (v : V) o :
  k ∉ Object_keys o -> lookupKey k (insertIndexKey n k v o) = Some v.
Proof.
  assert (Hk : lookupKey k ((k, v) :: o) = Some v).
  { rewrite lookupKey_cons. unfold streq. by rewrite bool_decide_eq_true_2. }
  induction o as [|[k0 v0] o IH]; simpl.
  - intros _. rewrite lookupKey_cons. unfold streq.
    by rewrite bool_decide_eq_true_2.
  - intros Hnot. apply not_elem_of_cons in Hnot as [Hne Hnot].
    assert (Hhead : lookupKey k ((k, v) :: (k0, v0) :: o) = Some v).
    { rewrite lookupKey_cons. unfold streq. by rewrite bool_decide_eq_true_2. }
    destruct (arrayIndex k0) as [m|]; [|exact Hhead].
    destruct (m <? n); [|exact Hhead].
    rewrite lookupKey_cons. unfold streq.
    rewrite bool_decide_eq_false_2 by done. apply IH; [|done].
    rewrite lookupKey_cons. unfold streq. by rewrite bool_decide_eq_true_2.
Qed.

Lemma lookupKey_insertIndexKey_ne {V} n k k' (v : V) o :
  k <> k' -> lookupKey k' (insertIndexKey n k v o) = lookupKey k' o.
Proof.
  intros Hne.
  assert (Hhead : forall o', lookupKey k' ((k, v) :: o') = lookupKey k' o').
  { intros o'. rewrite lookupKey_cons. unfold streq.
    by rewrite bool_decide_eq_false_2. }
  induction o as [|[k0 v0] o IH]; simpl; [apply Hhead|].
  destruct (arrayIndex k0) as [m|]; [|apply Hhead].
  destruct (m <? n); [|apply Hhead].
  by rewrite !lookupKey_cons, IH.
Qed.

Lemma Object_keys_insertIndexKey {V} n k (v : V) o x :
  x ∈ Object_keys (insertIndexKey n k v o) <-> x = k \/ x ∈ Object_keys o.
Proof.
  unfold Object_keys. induction o as [|[k0 v0] o IH]; simpl.
  - by rewrite !elem_of_cons.
  - assert (Hhead : x ∈ k :: k0 :: List.map fst o
                    <-> x = k \/ x ∈ k0 :: List.map fst o).
    { by rewrite elem_of_cons. }
    destruct (arrayIndex k0) as [m|]; [|exact Hhead].
    destruct (m <? n); [|exact Hhead].
    simpl. rewrite !elem_of_cons, IH. split.
    + intros [H|[H|H]]; [by right; left|by left|by right; right].
    + intros [H|[H|H]]; [by right; left|by left|by right; right].
Qed.

Lemma lookupKey_app_None {V} k (o o' : list (jsstring * V)) :
  lookupKey k (o ++ o') = match lookupKey k o with
                          | Some v => Some v
                          | None => lookupKey k o'
                          end.
Proof.
  induction o as [|[k0 v0] o IH]; simpl; [done|].
  rewrite !lookupKey_cons. by destruct (streq k0 k).
Qed.

(** Reading a property that has just been defined. *)
Lemma lookupKey_Object_set_eq {V} k (v : V) o :
  lookupKey k (Object_set k v o) = Some v.
Proof.
  unfold Object_set. destruct (includes (Object_keys o) k) eqn:Hin.
  - apply lookupKey_replaceKey_eq. by apply includes_elem.
  - assert (Hnot : k ∉ Object_keys o).
    { intros H. apply includes_elem in H. congruence. }
    destruct (arrayIndex k) as [n|].
    + by apply lookupKey_insertIndexKey_eq.
    + rewrite lookupKey_app_None, (lookupKey_None k o Hnot), lookupKey_cons.
      unfold streq. by rewrite bool_decide_eq_true_2.
Qed.

(** Defining a property leaves the other properties as they are. *)
Lemma lookupKey_Object_set_ne {V} k k' (v : V) o :
  k <> k' -> lookupKey k' (Object_set k v o) = lookupKey k' o.
Proof.
  intros Hne. unfold Object_set. destruct (includes (Object_keys o) k).
  - by apply lookupKey_replaceKey_ne.
  - destruct (arrayIndex k) as [n|].
    + by apply lookupKey_insertIndexKey_ne.
    + rewrite lookupKey_app_None, lookupKey_cons. unfold streq.
      rewrite bool_decide_eq_false_2 by done. simpl.
      by destruct (lookupKey k' o).
Qed.

Lemma Object_keys_Object_set {V} k (v : V) o x :
  x ∈ Object_keys (Object_set k v o) <-> x = k \/ x ∈ Object_keys o.
Proof.
  unfold Object_set. destruct (includes (Object_keys o) k) eqn:Hin.
  - rewrite Object_keys_replaceKey. apply includes_elem in Hin. split.
    + by right.
    + by intros [->|H].
  - destruct (arrayIndex k) as [n|].
    + apply Object_keys_insertIndexKey.
    + unfold Object_keys. rewrite List.map_app, elem_of_app. simpl.
      rewrite list_elem_of_singleton. split; (intros [H|H]; [by right|by left]).
Qed.

Lemma Object_keys_Object_delete {V} k (o : list (jsstring * V)) x :
  x ∈ Object_keys (Object_delete k o) <-> x <> k /\ x ∈ Object_keys o.
Proof.
  unfold Object_keys, Object_delete. induction o as [|[k0 v0] o IH]; simpl.
  - split; [intros H|intros [_ H]]; by apply elem_of_nil in H.
  - unfold streq at 1. case_bool_decide as E; simpl.
    + subst k0. rewrite IH, elem_of_cons. split.
      * intros [H1 H2]. by split; [|right].
      * intros [H1 [H2|H2]]; [done|by split].
    + rewrite !elem_of_cons, IH. split.
      * intros [->|[H1 H2]]; [by split; [|left]|by split; [|right]].
      * intros [H1 [H2|H2]]; [by left|by right].
Qed.

Lemma lookupKey_Object_delete_ne {V} k k' (o : list (jsstring * V)) :
  k <> k' -> lookupKey k' (Object_delete k o) = lookupKey k' o.
Proof.
  intros Hne. unfold Object_delete. induction o as [|[k0 v0] o IH]; simpl; [done|].
  unfold streq at 1. case_bool_decide as E; simpl.
  - subst k0. rewrite lookupKey_cons. unfold streq.
    by rewrite bool_decide_eq_false_2.
  - by rewrite !lookupKey_cons, IH.
Qed.

Lemma getWahaConfig_withWaha cfg wahaConfig :
  getWahaConfig (withWaha cfg wahaConfig) = Some wahaConfig.
Proof. reflexivity. Qed.

Lemma normalizeAccountId_fixed accountId :
  normalizeAccountId (Some accountId) = accountId ->
  accountId <> DEFAULT_ACCOUNT_ID ->
  normalizeAccountId (Some accountId) <> DEFAULT_ACCOUNT_ID.
Proof. by intros ->. Qed.

(** What [resolveWahaAccount] reads of an own entry of [accounts]. *)
Lemma named_entry cfg accountId :
  accountId <> DEFAULT_ACCOUNT_ID ->
  accountId ∈ listWahaAccountIds cfg ->
  exists accountConfig,
    lookupKey accountId
      (nullish (wc_accounts (nullish (getWahaConfig cfg) emptyWahaConfig)) [])
    = Some accountConfig
    /\ accountEntry (nullish (getWahaConfig cfg) emptyWahaConfig) accountId
       = Some (OwnEntry accountConfig).
Proof.
  intros Hne Hin. destruct (getWahaConfig cfg) as [wahaConfig|] eqn:Hcfg.
  - destruct (proj1 (listWahaAccountIds_elem cfg wahaConfig accountId Hcfg) Hin)
      as [[_ Heq]|Hkey]; [done|].
    unfold accountEntry. cbn [nullish].
    destruct (wc_accounts wahaConfig) as [accounts|]; cbn [nullish] in Hkey |- *.
    + destruct (lookupKey_Some accountId accounts Hkey) as [ac Hac].
      exists ac. by rewrite Hac.
    + by apply elem_of_nil in Hkey.
  - unfold listWahaAccountIds in Hin. rewrite Hcfg in Hin.
    by apply elem_of_nil in Hin.
Qed.

(** X13.  After [setAccountEnabled cfg id enabled] the account [id]
    resolves under its own id with [enabled] as set; if [id] was the
    default account or a listed one, the rest of its record is as before,
    and every other such account keeps its enabled flag. *)
Theorem X13_setAccountEnabled_round_trip cfg accountId enabled :
  normalizeAccountId (Some accountId) = accountId ->
  let cfg' := setAccountEnabled cfg accountId enabled in
  let known id := id = DEFAULT_ACCOUNT_ID \/ id ∈ listWahaAccountIds cfg in
  let before := resolveWahaAccount cfg (Some accountId) in
  let after := resolveWahaAccount cfg' (Some accountId) in
  ra_accountId after = accountId
  /\ ra_enabled after = enabled
  /\ (known accountId ->
      ra_name after = ra_name before /\ ra_url after = ra_url before
      /\ ra_apiKey after = ra_apiKey before
      /\ ra_session after = ra_session before
      /\ ra_hmacKey after = ra_hmacKey before)
  /\ (forall other,
        other <> accountId -> normalizeAccountId (Some other) = other ->
        known other ->
        ra_enabled (resolveWahaAccount cfg' (Some other))
        = ra_enabled (resolveWahaAccount cfg (Some other))).
Proof.
  intros Hnorm cfg' known before after. subst cfg' before after.
  unfold setAccountEnabled. cbv zeta.
  set (wahaConfig := nullish (getWahaConfig cfg) emptyWahaConfig).
  unfold streq. case_bool_decide as Hid.
  - (* the default account *)
    subst accountId.
    rewrite (resolveWahaAccount_default (withWaha _ _)); [|by left].
    rewrite (resolveWahaAccount_default cfg); [|by left].
    rewrite getWahaConfig_withWaha. cbv zeta.
    cbn [ra_accountId ra_enabled ra_name ra_url ra_apiKey ra_session ra_hmacKey
         nullish wc_enabled wc_name wc_url wc_apiKey wc_session wc_hmacKey].
    fold wahaConfig.
    split; [done|]. split; [done|]. split; [done|].
    intros other Hne Hother Hknown.
    destruct Hknown as [->|Hin]; [done|].
    destruct (named_entry cfg other Hne Hin) as (ac & _ & Hac).
    rewrite (resolveWahaAccount_named (withWaha _ _) (Some other) ac);
      [|by rewrite Hother|by rewrite Hother, getWahaConfig_withWaha].
    rewrite (resolveWahaAccount_named cfg (Some other) ac);
      [|by rewrite Hother|by rewrite Hother].
    reflexivity.
  - (* a named account *)
    set (previous := nullish (spreadOf <$> accountEntry wahaConfig accountId)
                       emptyAccountConfig).
    match goal with |- context [withWaha cfg ?w] => set (wahaConfig' := w) end.
    match goal with
    | _ := context [Object_set accountId ?e _] |- _ => set (entry := e) in *
    end.
    assert (Hentry : accountEntry wahaConfig' accountId = Some (OwnEntry entry)).
    { unfold accountEntry, wahaConfig'. cbn [wc_accounts].
      by rewrite lookupKey_Object_set_eq. }
    rewrite (resolveWahaAccount_named (withWaha cfg wahaConfig') (Some accountId) entry);
      [|by rewrite Hnorm|by rewrite Hnorm, getWahaConfig_withWaha].
    rewrite getWahaConfig_withWaha, Hnorm. cbv zeta.
    cbn [ra_accountId ra_enabled ra_name ra_url ra_apiKey ra_session ra_hmacKey
         nullish].
    split; [done|]. split; [done|]. split.
    + intros [Heq|Hin]; [done|].
      destruct (named_entry cfg accountId Hid Hin) as (ac & _ & Hac).
      rewrite (resolveWahaAccount_named cfg (Some accountId) ac);
        [|by rewrite Hnorm|by rewrite Hnorm].
      rewrite Hnorm. cbv zeta.
      cbn [ra_accountId ra_enabled ra_name ra_url ra_apiKey ra_session ra_hmacKey].
      fold wahaConfig in Hac. unfold entry, previous. rewrite Hac.
      cbn [nullish ac_name ac_session fmap option_fmap option_map spreadOf].
      fold wahaConfig.
      unfold wahaConfig'. cbn [wc_url wc_apiKey wc_hmacKey]. done.
    + intros other Hne Hother [Heq|Hin].
      * subst other.
        rewrite (resolveWahaAccount_default (withWaha _ _)); [|by left].
        rewrite (resolveWahaAccount_default cfg); [|by left].
        rewrite getWahaConfig_withWaha. cbv zeta. cbn [ra_enabled nullish].
        fold wahaConfig. unfold wahaConfig'. by cbn [wc_enabled].
      * destruct (decide (other = DEFAULT_ACCOUNT_ID)) as [Heq|Hnd].
        { subst other.
          rewrite (resolveWahaAccount_default (withWaha _ _)); [|by left].
          rewrite (resolveWahaAccount_default cfg); [|by left].
          rewrite getWahaConfig_withWaha. cbv zeta. cbn [ra_enabled nullish].
          fold wahaConfig. unfold wahaConfig'. by cbn [wc_enabled]. }
        destruct (named_entry cfg other Hnd Hin) as (ac & Hown & Hac).
        fold wahaConfig in Hown, Hac.
        assert (Hac' : accountEntry wahaConfig' other = Some (OwnEntry ac)).
        { unfold accountEntry, wahaConfig'. cbn [wc_accounts].
          by rewrite lookupKey_Object_set_ne, Hown. }
        rewrite (resolveWahaAccount_named (withWaha cfg wahaConfig') (Some other) ac);
          [|by rewrite Hother|by rewrite Hother, getWahaConfig_withWaha].
        rewrite (resolveWahaAccount_named cfg (Some other) ac);
          [|by rewrite Hother|by rewrite Hother].
        reflexivity.
Qed.

Lemma resolveWahaAccount_url cfg accountId :
  ra_url (resolveWahaAccount cfg accountId)
  = nullish (wc_url (nullish (getWahaConfig cfg) emptyWahaConfig)) [].
Proof.
  unfold resolveWahaAccount. cbv zeta.
  destruct (negb (streq (normalizeAccountId accountId) DEFAULT_ACCOUNT_ID));
    [|done].
  by destruct (accountEntry _ (normalizeAccountId accountId)).
Qed.

Lemma listWahaAccountIds_elem' cfg x :
  let wahaConfig := nullish (getWahaConfig cfg) emptyWahaConfig in
  x ∈ listWahaAccountIds cfg
  <-> (defaultCredentialed wahaConfig = true /\ x = DEFAULT_ACCOUNT_ID)
      \/ x ∈ Object_keys (nullish (wc_accounts wahaConfig) []).
Proof.
  cbv zeta. destruct (getWahaConfig cfg) as [wahaConfig|] eqn:Hcfg.
  - by apply listWahaAccountIds_elem.
  - unfold listWahaAccountIds. rewrite Hcfg. cbn [nullish]. split.
    + intros H. by apply elem_of_nil in H.
    + intros [[H _]|H]; [done|by apply elem_of_nil in H].
Qed.

Lemma Object_keys_or_undefined {V} (accounts : list (jsstring * V)) :
  Object_keys (nullish match Object_keys accounts with
                       | _ :: _ => Some accounts
                       | [] => None
                       end [])
  = Object_keys accounts.
Proof. by destruct accounts. Qed.

(** X14.  [deleteAccount] leaves the listing of every other id as it
    was; a named id is no longer listed afterwards; and after deleting the
    default account no account resolves to a configured record. *)
Theorem X14_deleteAccount cfg accountId :
  let cfg' := deleteAccount cfg accountId in
  (forall other, other <> accountId ->
     other ∈ listWahaAccountIds cfg' <-> other ∈ listWahaAccountIds cfg)
  /\ (accountId <> DEFAULT_ACCOUNT_ID -> accountId ∉ listWahaAccountIds cfg')
  /\ (accountId = DEFAULT_ACCOUNT_ID ->
      forall id, isWahaAccountConfigured (resolveWahaAccount cfg' id) = false).
Proof.
  cbv zeta. unfold deleteAccount. cbv zeta.
  set (wahaConfig := nullish (getWahaConfig cfg) emptyWahaConfig).
  pose proof (fun x => listWahaAccountIds_elem' cfg x) as Hcfg.
  cbv zeta in Hcfg. fold wahaConfig in Hcfg.
  unfold streq. case_bool_decide as Hid.
  - (* the default account *)
    match goal with |- context [withWaha cfg ?w] => set (wahaConfig' := w) end.
    assert (Hlist : forall x, x ∈ listWahaAccountIds (withWaha cfg wahaConfig')
              <-> x ∈ Object_keys (nullish (wc_accounts wahaConfig) [])).
    { intros x. rewrite (listWahaAccountIds_elem _ wahaConfig' x
                           (getWahaConfig_withWaha cfg wahaConfig')).
      unfold wahaConfig' at 1 2. unfold defaultCredentialed.
      cbn [wc_url wc_accounts truthyOpt andb]. split.
      - by intros [[H _]|H].
      - by right. }
    split; [|split; [done|]].
    + intros other Hne. rewrite Hlist, Hcfg. split; [by right|].
      intros [[_ H]|H]; [congruence|done].
    + intros _ id. unfold isWahaAccountConfigured.
      rewrite resolveWahaAccount_url, getWahaConfig_withWaha. reflexivity.
  - (* a named account *)
    match goal with |- context [withWaha cfg ?w] => set (wahaConfig' := w) end.
    assert (Hlist : forall x, x ∈ listWahaAccountIds (withWaha cfg wahaConfig')
              <-> (defaultCredentialed wahaConfig = true /\ x = DEFAULT_ACCOUNT_ID)
                  \/ (x <> accountId
                      /\ x ∈ Object_keys (nullish (wc_accounts wahaConfig) []))).
    { intros x. rewrite (listWahaAccountIds_elem _ wahaConfig' x
                           (getWahaConfig_withWaha cfg wahaConfig')).
      unfold wahaConfig' at 2. cbn [wc_accounts].
      rewrite Object_keys_or_undefined, Object_keys_Object_delete.
      reflexivity. }
    split; [|split; [|done]].
    + intros other Hne. rewrite Hlist, Hcfg. split.
      * intros [H|[_ H]]; [by left|by right].
      * intros [H|H]; [by left|by right].
    + intros _. rewrite Hlist. intros [[_ H]|[H _]]; done.
Qed.

(** ** Further facts about the webhook endpoint *)

Section HandlerResponses.

Variable onMessage : WahaPayload -> jsstring -> M unit.
Variable onReaction : option (WahaPayload -> jsstring -> M unit).
Variable onSessionStatus : option (WahaPayload -> jsstring -> M unit).

Ltac run :=
  cbv [bind ret throw tryCatch emit respond logFn logger_error liftResult
       res_headersSent readRequestBody onHandlerError];
  cbn [trace headersSent fst snd app negb].

Lemma responsesOf_snoc_other tr e :
  isResponse e = false -> responsesOf (tr ++ [e]) = responsesOf tr.
Proof.
  intros He. unfold responsesOf. rewrite List.filter_app. simpl.
  by rewrite He, app_nil_r.
Qed.

Lemma responsesOf_snoc_response tr e :
  isResponse e = true -> responsesOf (tr ++ [e]) = responsesOf tr ++ [e].
Proof.
  intros He. unfold responsesOf. rewrite List.filter_app. simpl.
  by rewrite He.
Qed.

(** The [catch] block: it never throws, and writes the 500 response only
    when no response has been written. *)
Lemma onHandlerError_run err w :
  onHandlerError err w
  = (Ok tt,
     if headersSent w then
       {| trace := trace w ++ [EvLogError (js "webhook error: "
                                          ++ String_of_error err)];
          headersSent := true |}
     else
       {| trace := trace w
                   ++ [EvLogError (js "webhook error: " ++ String_of_error err);
                       EvRespond 500 [contentTypeJson]
                         (BodyJson [(js "error", js "Internal server error")])];
          headersSent := true |}).
Proof.
  run. destruct (headersSent w) eqn:E; cbn [negb].
  - reflexivity.
  - cbn [trace]. by rewrite <- app_assoc.
Qed.

Lemma dispatchEvent_settled payload w :
  (forall p s, leavesResponseAlone (onMessage p s)) ->
  (forall f p s, onReaction = Some f -> leavesResponseAlone (f p s)) ->
  (forall f p s, onSessionStatus = Some f -> leavesResponseAlone (f p s)) ->
  headersSent w = true ->
  settled (responsesOf (trace w))
    (tryCatch (dispatchEvent onMessage onReaction onSessionStatus payload)
       onHandlerError w).
Proof.
  intros Hmsg Hreact Hstatus Hsent.
  assert (Hcall : forall (m : M unit) e,
            leavesResponseAlone m -> isResponse e = false ->
            settled (responsesOf (trace w))
              (tryCatch (emit e >> m) onHandlerError w)).
  { intros m e Hm He. unfold tryCatch, bind, emit.
    set (w1 := {| trace := trace w ++ [e]; headersSent := headersSent w |}).
    destruct (Hm w1) as [Hs Hr]. destruct (m w1) as [[[]|err|] w2].
    - cbn [fst snd] in *. unfold settled; cbn [fst snd].
      split; [done|]. split.
      + by rewrite Hr; unfold w1; cbn [trace]; rewrite responsesOf_snoc_other.
      + by rewrite Hs.
    - cbn [fst snd] in Hs, Hr. rewrite onHandlerError_run.
      unfold w1 in Hs; cbn [headersSent] in Hs. rewrite Hs, Hsent.
      unfold settled; cbn [fst snd trace headersSent].
      split; [done|]. split; [|done].
      rewrite responsesOf_snoc_other by done. rewrite Hr.
      unfold w1; cbn [trace]. by rewrite responsesOf_snoc_other.
    - cbn [fst snd] in *. unfold settled; cbn [fst snd].
      split; [done|]. split.
      + by rewrite Hr; unfold w1; cbn [trace]; rewrite responsesOf_snoc_other.
      + by rewrite Hs. }
  assert (Hnone : settled (responsesOf (trace w))
                    (tryCatch (ret tt) onHandlerError w)).
  { unfold tryCatch, ret, settled; cbn [fst snd]. by repeat split. }
  unfold dispatchEvent. cbv zeta.
  destruct (isMessageEvent (ev_event payload)).
  - destruct (negb (payload_fromMe (ev_payload payload))); [|exact Hnone].
    unfold tryCatch at 1, bind, emit.
    set (w1 := {| trace := trace w ++ [_]; headersSent := headersSent w |}).
    destruct (Hmsg (ev_payload payload) (ev_session payload) w1) as [Hs Hr].
    unfold tryCatch.
    destruct (onMessage (ev_payload payload) (ev_session payload) w1)
      as [[[]|err|] w2]; cbn [fst snd] in Hs, Hr;
      unfold settled, logger_error, emit; cbn [fst snd trace headersSent].
    + split; [done|]. split.
      * by rewrite Hr; unfold w1; cbn [trace]; rewrite responsesOf_snoc_other.
      * by rewrite Hs.
    + split; [done|]. split.
      * rewrite responsesOf_snoc_other by done. rewrite Hr.
        unfold w1; cbn [trace]. by rewrite responsesOf_snoc_other.
      * by rewrite Hs.
    + split; [done|]. split.
      * by rewrite Hr; unfold w1; cbn [trace]; rewrite responsesOf_snoc_other.
      * by rewrite Hs.
  - destruct (streq (ev_event payload) (js "message.reaction")).
    { destruct onReaction as [f|] eqn:Hf; [|exact Hnone].
      apply Hcall; [|done]. by apply (Hreact f). }
    destruct (streq (ev_event payload) (js "session.status")).
    { destruct onSessionStatus as [f|] eqn:Hf; [|exact Hnone].
      apply Hcall; [|done]. by apply (Hstatus f). }
    unfold tryCatch, logFn, emit, settled; cbn [fst snd trace headersSent].
    split; [done|]. split; [|done]. by rewrite responsesOf_snoc_other.
Qed.

Lemma tryCatch_bind_ok {A B} (m : M A) (k : A -> M B) h w a w' :
  m w = (Ok a, w') -> tryCatch (bind m k) h w = tryCatch (k a) h w'.
Proof. intros H. unfold tryCatch, bind. by rewrite H. Qed.

Lemma tryCatch_bind_throw {A B} (m : M A) (k : A -> M B) h w e w' :
  m w = (Throw e, w') -> tryCatch (bind m k) h w = h e w'.
Proof. intros H. unfold tryCatch, bind. by rewrite H. Qed.

(** The run of a POST request, by the point at which it leaves the
    straight path. *)
Lemma handler_post_run account req :
  method req = js "POST" ->
  let run := handler onMessage onReaction onSessionStatus account req initialWorld in
  (exists e, requestBody req = inl e
             /\ run = onHandlerError e initialWorld)
  \/ (exists rawBody msg err,
        requestBody req = inr rawBody
        /\ hmacGate account req rawBody initialWorld
           = (Ok false,
              {| trace := [EvLog msg;
                           EvRespond 401 [contentTypeJson]
                             (BodyJson [(js "error", err)])];
                 headersSent := true |})
        /\ run = (Ok tt,
                  {| trace := [EvLog msg;
                               EvRespond 401 [contentTypeJson]
                                 (BodyJson [(js "error", err)])];
                     headersSent := true |}))
  \/ (exists rawBody e,
        requestBody req = inr rawBody
        /\ hmacGate account req rawBody initialWorld = (Throw e, initialWorld)
        /\ run = onHandlerError e initialWorld)
  \/ (exists rawBody e,
        requestBody req = inr rawBody
        /\ hmacGate account req rawBody initialWorld = (Ok true, initialWorld)
        /\ JSON_parse rawBody = inl e
        /\ run = onHandlerError e
                   {| trace := [EvJsonParse rawBody]; headersSent := false |})
  \/ (exists rawBody payload,
        requestBody req = inr rawBody
        /\ hmacGate account req rawBody initialWorld = (Ok true, initialWorld)
        /\ JSON_parse rawBody = inr payload
        /\ run = tryCatch
                   (dispatchEvent onMessage onReaction onSessionStatus payload)
                   onHandlerError (acknowledged rawBody payload)).
Proof.
  intros Hm. cbv zeta. rewrite (handler_post _ _ _ account req Hm).
  destruct (requestBody req) as [e|rawBody] eqn:Hb.
  { left. exists e. split; [done|].
    apply tryCatch_bind_throw. unfold readRequestBody. by rewrite Hb. }
  right.
  rewrite (tryCatch_bind_ok _ _ _ _ rawBody initialWorld)
    by (unfold readRequestBody; by rewrite Hb).
  destruct (hmacGate_cases account req rawBody initialWorld)
    as [H|[(msg & err & H)|(e & H)]].
  - right; right.
    rewrite (tryCatch_bind_ok _ _ _ _ true initialWorld H).
    destruct (JSON_parse rawBody) as [e|payload] eqn:Hp.
    + left. exists rawBody, e. do 3 (split; [done|]).
      by apply tryCatch_bind_throw.
    + right. exists rawBody, payload. do 3 (split; [done|]).
      rewrite (tryCatch_bind_ok _ _ _ _ payload
                 {| trace := [EvJsonParse rawBody]; headersSent := false |})
        by reflexivity.
      rewrite (tryCatch_bind_ok _ _ _ _ tt
                 {| trace := [EvJsonParse rawBody;
                              EvRespond 200 [contentTypeJson]
                                (BodyJson [(js "status", js "ok")])];
                    headersSent := true |}) by reflexivity.
      by rewrite (tryCatch_bind_ok _ _ _ _ tt (acknowledged rawBody payload))
        by reflexivity.
  - left. exists rawBody, msg, err. cbn [trace initialWorld app] in H.
    do 2 (split; [done|]).
    rewrite (tryCatch_bind_ok _ _ _ _ false _ H). reflexivity.
  - right; left. exists rawBody, e. do 2 (split; [done|]).
    by apply tryCatch_bind_throw.
Qed.

Lemma handler_settled account req :
  (forall p s, leavesResponseAlone (onMessage p s)) ->
  (forall f p s, onReaction = Some f -> leavesResponseAlone (f p s)) ->
  (forall f p s, onSessionStatus = Some f -> leavesResponseAlone (f p s)) ->
  (forall e,
     outcomeOf (handler onMessage onReaction onSessionStatus account req)
     <> Throw e)
  /\ length (responsesOf
               (traceOf (handler onMessage onReaction onSessionStatus account req)))
     = 1%nat.
Proof.
  intros Hmsg Hreact Hstatus. unfold outcomeOf, traceOf.
  destruct (streq (method req) (js "GET")) eqn:Hget.
  { unfold handler. rewrite Hget. by split. }
  destruct (streq (method req) (js "POST")) eqn:Hpost.
  2:{ unfold handler. rewrite Hget, Hpost. by split. }
  apply bool_decide_eq_true_1 in Hpost.
  destruct (handler_post_run account req Hpost)
    as [(e & _ & ->)|[(rawBody & msg & err & _ & _ & ->)
       |[(rawBody & e & _ & _ & ->)|[(rawBody & e & _ & _ & _ & ->)
       |(rawBody & payload & _ & _ & _ & ->)]]]].
  - rewrite onHandlerError_run. by split.
  - by split.
  - rewrite onHandlerError_run. by split.
  - rewrite onHandlerError_run. by split.
  - destruct (dispatchEvent_settled payload (acknowledged rawBody payload)
                Hmsg Hreact Hstatus eq_refl) as (Hok & Hr & _).
    split; [exact Hok|]. by rewrite Hr.
Qed.

(** X15.  Whatever the request, the handler does not throw and writes
    exactly one response, provided the callbacks leave the response
    alone. *)
Theorem X15_handler_writes_one_response account req :
  (forall p s, leavesResponseAlone (onMessage p s)) ->
  (forall f p s, onReaction = Some f -> leavesResponseAlone (f p s)) ->
  (forall f p s, onSessionStatus = Some f -> leavesResponseAlone (f p s)) ->
  (forall e,
     outcomeOf (handler onMessage onReaction onSessionStatus account req)
     <> Throw e)
  /\ length (responsesOf
               (traceOf (handler onMessage onReaction onSessionStatus account req)))
     = 1%nat.
Proof. apply handler_settled. Qed.

(** The gate lets a request through on a configured key only for a
    signature that [validateWahaHmac] accepts. *)
Lemma hmacGate_true_inv account req rawBody key w w' :
  ra_hmacKey account = Some key -> truthy key = true ->
  hmacGate account req rawBody w = (Ok true, w') ->
  exists signature algorithm,
    x_webhook_hmac req = HeaderString signature
    /\ truthy signature = true
    /\ algorithmOf (x_webhook_hmac_algorithm req) = inr algorithm
    /\ validateWahaHmac rawBody signature key algorithm = inr true.
Proof.
  intros Hk Ht. unfold hmacGate. rewrite Hk, Ht.
  destruct (x_webhook_hmac req) as [|signature|l]; [by run| |by run].
  destruct (truthy signature) eqn:Hs; [|by run].
  destruct (algorithmOf (x_webhook_hmac_algorithm req)) as [e|algorithm];
    [by run|].
  destruct (validateWahaHmac rawBody signature key algorithm) as [e|[|]] eqn:Hv;
    run; rewrite Hv; cbn [negb]; [done| |done].
  intros _. by exists signature, algorithm.
Qed.

(** X16.  With an HMAC key configured, a POST request that does not
    carry a signature accepted by [validateWahaHmac] is not processed: the
    handler logs one line and answers 401 or 500, and does nothing else;
    the body is not parsed and no callback runs. *)
Theorem X16_unauthenticated_post_is_not_processed account req key :
  ra_hmacKey account = Some key -> truthy key = true ->
  method req = js "POST" ->
  ~ (exists rawBody signature algorithm,
       requestBody req = inr rawBody
       /\ x_webhook_hmac req = HeaderString signature
       /\ algorithmOf (x_webhook_hmac_algorithm req) = inr algorithm
       /\ validateWahaHmac rawBody signature key algorithm = inr true) ->
  exists line statusCode err,
    handler onMessage onReaction onSessionStatus account req initialWorld
    = (Ok tt,
       {| trace := [line;
                    EvRespond statusCode [contentTypeJson]
                      (BodyJson [(js "error", err)])];
          headersSent := true |})
    /\ (statusCode = 401 \/ statusCode = 500)
    /\ ((exists msg, line = EvLog msg) \/ (exists msg, line = EvLogError msg)).
Proof.
  intros Hk Ht Hpost Hnot.
  destruct (handler_post_run account req Hpost)
    as [(e & _ & ->)|[(rawBody & msg & err & _ & _ & ->)
       |[(rawBody & e & _ & _ & ->)|[(rawBody & e & Hb & Hg & _ & _)
       |(rawBody & payload & Hb & Hg & _ & _)]]]].
  - rewrite onHandlerError_run. cbn [headersSent initialWorld trace app].
    do 3 eexists. split; [reflexivity|]. split; [by right|]. right. by eexists.
  - do 3 eexists. split; [reflexivity|]. split; [by left|]. left. by eexists.
  - rewrite onHandlerError_run. cbn [headersSent initialWorld trace app].
    do 3 eexists. split; [reflexivity|]. split; [by right|]. right. by eexists.
  - destruct (hmacGate_true_inv _ _ _ _ _ _ Hk Ht Hg) as (s & a & H1 & _ & H2 & H3).
    destruct Hnot. by exists rawBody, s, a.
  - destruct (hmacGate_true_inv _ _ _ _ _ _ Hk Ht Hg) as (s & a & H1 & _ & H2 & H3).
    destruct Hnot. by exists rawBody, s, a.
Qed.

Lemma testbit7_small v : v < 128 -> N.testbit v 7 = false.
Proof.
  intros Hv. apply N.bits_above_log2.
  destruct (decide (v = 0)) as [->|Hz]; [done|].
  apply N.log2_lt_pow2; [lia|]. exact Hv.
Qed.

Lemma utf8_of_code_point_head cp :
  128 <= cp ->
  exists h t, utf8_of_code_point cp = h :: t /\ N.testbit h 7 = true.
Proof.
  intros Hcp. unfold utf8_of_code_point.
  destruct (N.ltb_spec cp 128) as [H|_]; [lia|].
  destruct (cp <? 2048); [|destruct (cp <? 65536)];
    do 2 eexists; (split; [reflexivity|]); by rewrite N.lor_spec.
Qed.

Lemma Buffer_from_head_ascii c r h t :
  Buffer_from (c :: r) = h :: t -> h < 128 ->
  c < 128 /\ h = c /\ t = Buffer_from r.
Proof.
  intros Hb Hh.
  assert (Hbad : forall cp rest,
            128 <= cp -> utf8_of_code_point cp ++ rest = h :: t -> False).
  { intros cp rest Hcp Heq.
    destruct (utf8_of_code_point_head cp Hcp) as (h' & t' & E & Hbit).
    rewrite E in Heq. injection Heq as -> _.
    by rewrite (testbit7_small h Hh) in Hbit. }
  cbn [Buffer_from] in Hb.
  destruct (isHighSurrogate c) eqn:Hhi.
  { unfold isHighSurrogate in Hhi. apply andb_true_iff in Hhi as [H1 H2].
    apply N.leb_le in H1. apply N.leb_le in H2. exfalso.
    destruct r as [|lo r'].
    - apply (Hbad 65533 []); [lia|]. by rewrite app_nil_r.
    - destruct (isLowSurrogate lo); (eapply Hbad; [|exact Hb]); lia. }
  destruct (isLowSurrogate c) eqn:Hlo.
  { exfalso. eapply Hbad; [|exact Hb]. lia. }
  destruct (N.lt_ge_cases c 128) as [Hc|Hc].
  - unfold utf8_of_code_point in Hb. apply N.ltb_lt in Hc as Hc'.
    rewrite Hc' in Hb. injection Hb as <- <-. done.
  - exfalso. by eapply Hbad; [|exact Hb].
Qed.

(** Over digests made of ASCII characters, as hexadecimal digests are,
    the bytes of a string equal the digest only for the digest itself. *)
Lemma Buffer_from_ascii_inv s b :
  Forall (fun c => c < 128) b -> Buffer_from s = b -> s = b.
Proof.
  revert b. induction s as [|c r IH]; intros b Hb Heq.
  - done.
  - destruct b as [|h t].
    + clear Hb IH.
      assert (Hlen : forall cp, utf8_of_code_point cp <> []).
      { intros cp. unfold utf8_of_code_point.
        destruct (cp <? 128), (cp <? 2048), (cp <? 65536); done. }
      cbn [Buffer_from] in Heq.
      destruct (isHighSurrogate c).
      * destruct r as [|lo r']; [by destruct (Hlen 65533)|].
        destruct (isLowSurrogate lo);
          apply app_eq_nil in Heq as [Heq _]; by apply Hlen in Heq.
      * destruct (isLowSurrogate c);
          apply app_eq_nil in Heq as [Heq _]; by apply Hlen in Heq.
    + apply Forall_cons in Hb as [Hh Ht].
      destruct (Buffer_from_head_ascii c r h t Heq Hh) as (_ & -> & ->).
      f_equal. by apply IH.
Qed.

Lemma Buffer_from_ascii s :
  Forall (fun c => c < 128) s -> Buffer_from s = s.
Proof.
  induction 1 as [|c r Hc Hr IH]; [done|].
  cbn [Buffer_from].
  assert (isHighSurrogate c = false) as ->.
  { unfold isHighSurrogate. destruct (N.leb_spec 55296 c); [lia|done]. }
  assert (isLowSurrogate c = false) as ->.
  { unfold isLowSurrogate. destruct (N.leb_spec 56320 c); [lia|done]. }
  unfold utf8_of_code_point. apply N.ltb_lt in Hc. rewrite Hc, IH. done.
Qed.

(** X17.  For a digest made of ASCII characters, as the hexadecimal
    digest is, [validateWahaHmac] returns [true] exactly for the signature
    equal to the digest: no other string, ASCII or not, is accepted. *)
Theorem X17_validateWahaHmac_accepts_only_the_digest
  rawBody signature hmacKey algorithm computed :
  createHmacHex algorithm hmacKey rawBody = inr computed ->
  Forall (fun c => c < 128) computed ->
  validateWahaHmac rawBody signature hmacKey algorithm = inr true
  <-> signature = computed.
Proof.
  intros Hc Hascii. unfold validateWahaHmac. rewrite Hc.
  rewrite (Buffer_from_ascii computed Hascii). unfold timingSafeEqual. split.
  - destruct (length computed =? length (Buffer_from signature))%nat; [|done].
    intros [= Heq]. apply bool_decide_eq_true_1 in Heq.
    by apply Buffer_from_ascii_inv.
  - intros ->. rewrite (Buffer_from_ascii computed Hascii), Nat.eqb_refl.
    by rewrite bool_decide_eq_true_2.
Qed.

Lemma handler_gate_rejects account req rawBody w :
  method req = js "POST" ->
  requestBody req = inr rawBody ->
  hmacGate account req rawBody initialWorld = (Ok false, w) ->
  handler onMessage onReaction onSessionStatus account req initialWorld
  = (Ok tt, w).
Proof.
  intros Hm Hb Hg. rewrite (handler_post _ _ _ account req Hm).
  rewrite (tryCatch_bind_ok _ _ _ _ rawBody initialWorld)
    by (unfold readRequestBody; by rewrite Hb).
  by rewrite (tryCatch_bind_ok _ _ _ _ false w Hg).
Qed.

(** X18.  With an HMAC key configured, a POST request is answered 401
    and nothing else happens in two cases: "Missing HMAC signature" when
    the value of the signature header is absent, empty or not a string
    (an array), without the digest being computed; "Invalid HMAC
    signature" when the signature has as many bytes as the digest and
    differs from it.  (A header sent twice is not such an array: the
    server joins its values into one string, which is then compared with
    the digest like any other signature.) *)
Theorem X18_rejected_signatures_answer_401 account req rawBody key :
  method req = js "POST" ->
  requestBody req = inr rawBody ->
  ra_hmacKey account = Some key -> truthy key = true ->
  let answer401 line err :=
    handler onMessage onReaction onSessionStatus account req initialWorld
    = (Ok tt,
       {| trace := [EvLog line;
                    EvRespond 401 [contentTypeJson]
                      (BodyJson [(js "error", err)])];
          headersSent := true |}) in
  ((forall signature,
      x_webhook_hmac req = HeaderString signature -> signature = []) ->
   answer401 (js "waha: webhook missing X-Webhook-Hmac header")
     (js "Missing HMAC signature"))
  /\ (forall signature algorithm computed,
        x_webhook_hmac req = HeaderString signature ->
        algorithmOf (x_webhook_hmac_algorithm req) = inr algorithm ->
        createHmacHex algorithm key rawBody = inr computed ->
        Forall (fun c => c < 128) computed ->
        length (Buffer_from signature) = length computed ->
        signature <> computed ->
        answer401 (js "waha: webhook HMAC validation failed")
          (js "Invalid HMAC signature")).
Proof.
  intros Hm Hb Hk Ht. cbv zeta. split.
  - intros Hs.
    apply (handler_gate_rejects account req rawBody _ Hm Hb).
    unfold hmacGate. rewrite Hk, Ht.
    destruct (x_webhook_hmac req) as [|signature|l]; [done| |done].
    by rewrite (Hs signature eq_refl).
  - intros signature algorithm computed Hs Ha Hc Hascii Hlen Hne.
    apply (handler_gate_rejects account req rawBody _ Hm Hb).
    assert (Hsig : truthy signature = true).
    { destruct signature; [|done]. destruct computed; done. }
    assert (Hv : validateWahaHmac rawBody signature key algorithm = inr false).
    { unfold validateWahaHmac. rewrite Hc, (Buffer_from_ascii computed Hascii).
      unfold timingSafeEqual. rewrite Hlen, Nat.eqb_refl.
      rewrite bool_decide_eq_false_2; [done|].
      intros Heq. apply Hne. symmetry in Heq.
      by apply Buffer_from_ascii_inv. }
    unfold hmacGate. rewrite Hk, Ht, Hs, Hsig, Ha. run. rewrite Hv. reflexivity.
Qed.

(** X20.  A POST request whose body cannot be read, or whose body passes
    the gate and is not JSON, is answered 500 "Internal server error":
    the error is logged, and no callback runs. *)
Theorem X20_unreadable_body_answers_500 account req :
  method req = js "POST" ->
  (forall e,
     requestBody req = inl e ->
     handler onMessage onReaction onSessionStatus account req initialWorld
     = (Ok tt,
        {| trace := [EvLogError (js "webhook error: " ++ String_of_error e);
                     EvRespond 500 [contentTypeJson]
                       (BodyJson [(js "error", js "Internal server error")])];
           headersSent := true |}))
  /\ (forall rawBody e,
        requestBody req = inr rawBody ->
        hmacAccepted account req rawBody ->
        JSON_parse rawBody = inl e ->
        handler onMessage onReaction onSessionStatus account req initialWorld
        = (Ok tt,
           {| trace := [EvJsonParse rawBody;
                        EvLogError (js "webhook error: " ++ String_of_error e);
                        EvRespond 500 [contentTypeJson]
                          (BodyJson [(js "error", js "Internal server error")])];
              headersSent := true |})).
Proof.
  intros Hm. rewrite (handler_post _ _ _ account req Hm). split.
  - intros e Hb.
    rewrite (tryCatch_bind_throw _ _ _ _ e initialWorld)
      by (unfold readRequestBody; by rewrite Hb).
    by rewrite onHandlerError_run.
  - intros rawBody e Hb Hacc Hp.
    rewrite (tryCatch_bind_ok _ _ _ _ rawBody initialWorld)
      by (unfold readRequestBody; by rewrite Hb).
    rewrite (tryCatch_bind_ok _ _ _ _ true initialWorld
               (hmacGate_accepted account req rawBody initialWorld Hacc)).
    rewrite (tryCatch_bind_throw _ _ _ _ e
               {| trace := [EvJsonParse rawBody]; headersSent := false |})
      by (unfold bind, emit, liftResult; by rewrite Hp).
    by rewrite onHandlerError_run.
Qed.

Lemma handler_accepted_run account req rawBody payload :
  method req = js "POST" ->
  requestBody req = inr rawBody ->
  hmacAccepted account req rawBody ->
  JSON_parse rawBody = inr payload ->
  handler onMessage onReaction onSessionStatus account req initialWorld
  = tryCatch (dispatchEvent onMessage onReaction onSessionStatus payload)
      onHandlerError (acknowledged rawBody payload).
Proof.
  intros Hm Hb Hacc Hp. rewrite (handler_post _ _ _ account req Hm).
  rewrite (tryCatch_bind_ok _ _ _ _ rawBody initialWorld)
    by (unfold readRequestBody; by rewrite Hb).
  rewrite (tryCatch_bind_ok _ _ _ _ true initialWorld
             (hmacGate_accepted account req rawBody initialWorld Hacc)).
  rewrite (tryCatch_bind_ok _ _ _ _ payload
             {| trace := [EvJsonParse rawBody]; headersSent := false |})
    by (unfold bind, emit, liftResult; by rewrite Hp).
  rewrite (tryCatch_bind_ok _ _ _ _ tt
             {| trace := [EvJsonParse rawBody;
                          EvRespond 200 [contentTypeJson]
                            (BodyJson [(js "status", js "ok")])];
                headersSent := true |}) by reflexivity.
  by rewrite (tryCatch_bind_ok _ _ _ _ tt (acknowledged rawBody payload))
    by reflexivity.
Qed.

(** X21.  An accepted event of a kind the handler does not know is
    acknowledged with 200, logged as ignored and dropped; a reaction or a
    session status for which no callback is registered is acknowledged
    and dropped without a further log line. *)
Theorem X21_unhandled_events_are_dropped account req rawBody payload :
  method req = js "POST" ->
  requestBody req = inr rawBody ->
  hmacAccepted account req rawBody ->
  JSON_parse rawBody = inr payload ->
  isMessageEvent (ev_event payload) = false ->
  let run := handler onMessage onReaction onSessionStatus account req initialWorld in
  (ev_event payload <> js "message.reaction" ->
   ev_event payload <> js "session.status" ->
   run = (Ok tt,
          {| trace := trace (acknowledged rawBody payload)
                      ++ [EvLog (js "waha: ignoring unhandled event type "
                                 ++ [QUOTE] ++ ev_event payload ++ [QUOTE])];
             headersSent := true |}))
  /\ (ev_event payload = js "message.reaction" -> onReaction = None ->
      run = (Ok tt, acknowledged rawBody payload))
  /\ (ev_event payload = js "session.status" -> onSessionStatus = None ->
      run = (Ok tt, acknowledged rawBody payload)).
Proof.
  intros Hm Hb Hacc Hp Hev. cbv zeta.
  rewrite (handler_accepted_run account req rawBody payload Hm Hb Hacc Hp).
  unfold dispatchEvent. cbv zeta. rewrite Hev. split; [|split].
  - intros H1 H2. unfold streq. by rewrite !bool_decide_eq_false_2.
  - intros H1 H2.
    assert (streq (ev_event payload) (js "message.reaction") = true) as ->
      by by rewrite H1.
    by rewrite H2.
  - intros H1 H2.
    assert (streq (ev_event payload) (js "message.reaction") = false) as ->
      by by rewrite H1.
    assert (streq (ev_event payload) (js "session.status") = true) as ->
      by by rewrite H1.
    by rewrite H2.
Qed.

(** X22.  A failure of a callback after the acknowledgement changes
    nothing for the sender: a rejected message callback is logged as a
    message handler failure, a throwing reaction or status callback as a
    webhook error, and in neither case is a second response written or
    the exception passed on. *)
Theorem X22_callback_failures_are_logged account req rawBody payload e w :
  method req = js "POST" ->
  requestBody req = inr rawBody ->
  hmacAccepted account req rawBody ->
  JSON_parse rawBody = inr payload ->
  let run := handler onMessage onReaction onSessionStatus account req initialWorld in
  let session := ev_session payload in
  (isMessageEvent (ev_event payload) = true ->
   payload_fromMe (ev_payload payload) = false ->
   onMessage (ev_payload payload) session
     {| trace := trace (acknowledged rawBody payload)
                 ++ [EvOnMessage (ev_payload payload) session];
        headersSent := true |}
   = (Throw e, w) ->
   run = (Ok tt,
          {| trace := trace w
                      ++ [EvLogError (js "webhook message handler failed: "
                                      ++ String_of_error e)];
             headersSent := headersSent w |}))
  /\ (forall f,
        ev_event payload = js "message.reaction" ->
        onReaction = Some f ->
        f (ev_payload payload) session
          {| trace := trace (acknowledged rawBody payload)
                      ++ [EvOnReaction (ev_payload payload) session];
             headersSent := true |}
        = (Throw e, w) ->
        headersSent w = true ->
        run = (Ok tt,
               {| trace := trace w
                           ++ [EvLogError (js "webhook error: "
                                           ++ String_of_error e)];
                  headersSent := true |})).
Proof.
  intros Hm Hb Hacc Hp. cbv zeta.
  rewrite (handler_accepted_run account req rawBody payload Hm Hb Hacc Hp).
  split.
  - intros Hev Hfm Hrun.
    unfold dispatchEvent. cbv zeta. rewrite Hev, Hfm. cbn [negb].
    unfold tryCatch, bind, emit. cbn [trace headersSent acknowledged].
    cbn [trace acknowledged] in Hrun. rewrite Hrun. reflexivity.
  - intros f Hev Hf Hrun Hsent.
    assert (Hm1 : isMessageEvent (ev_event payload) = false) by by rewrite Hev.
    assert (Hm2 : streq (ev_event payload) (js "message.reaction") = true)
      by by rewrite Hev.
    unfold dispatchEvent. cbv zeta. rewrite Hm1, Hm2, Hf.
    unfold tryCatch, bind, emit. cbn [trace headersSent acknowledged].
    cbn [trace acknowledged] in Hrun. rewrite Hrun.
    rewrite onHandlerError_run, Hsent. reflexivity.
Qed.

End HandlerResponses.

(** ** Further facts about access control and the message pipeline *)

(** X23.  A group message is accepted iff the group policy is open, or
    it is allowlist (the default) and some entry of [groupAllowFrom]
    normalizes to the sender; the DM policy, [allowFrom] and the pairing
    store play no part, the reason is never "pairing required", and a
    rejected group message is logged and dropped without a pairing step. *)
Theorem X23_group_access_control account senderId senderE164 :
  let verdict := checkInboundAccessControl senderId senderE164 true account in
  let policy := nullish (wc_groupPolicy (ra_config account)) GroupAllowlist in
  let listed :=
    exists e,
      e ∈ String_of_entry <$> nullish (wc_groupAllowFrom (ra_config account)) []
      /\ (normalizeWahaAllowEntry e = senderE164
          \/ normalizeWahaAllowEntry e = senderId) in
  (allowed verdict = true
   <-> policy = GroupOpen \/ (policy = GroupAllowlist /\ listed))
  /\ reason verdict <> Some (js "pairing required")
  /\ (forall payload session,
        senderId = nullish (mp_participant payload) (mp_from payload) ->
        senderE164 = chatIdToE164 senderId ->
        isGroupChatId (mp_from payload) = true ->
        allowed verdict = false ->
        traceOf (handleMessage account payload session)
        = checkedTrace account senderId senderE164 true
          ++ [EvLog (js "dropping message from " ++ senderE164 ++ js ": "
                     ++ String_of_optional (reason verdict))]).
Proof.
  cbv zeta.
  set (entries := String_of_entry
                  <$> nullish (wc_groupAllowFrom (ra_config account)) []).
  assert (Hset : has (normalizedSet entries) senderE164
                 || has (normalizedSet entries) senderId = true
                 <-> exists e, e ∈ entries
                       /\ (normalizeWahaAllowEntry e = senderE164
                           \/ normalizeWahaAllowEntry e = senderId)).
  { rewrite orb_true_iff, !has_normalizedSet. split.
    - intros [(e & He & H)|(e & He & H)]; exists e; auto.
    - intros (e & He & [H|H]); [left|right]; by exists e. }
  assert (Hreason : reason (checkInboundAccessControl senderId senderE164 true
                              account) <> Some (js "pairing required")).
  { unfold checkInboundAccessControl. cbv zeta. fold entries.
    destruct (nullish (wc_groupPolicy (ra_config account)) GroupAllowlist);
      [done| |done].
    by destruct (negb _ && negb _). }
  split; [|split; [exact Hreason|]].
  - unfold checkInboundAccessControl. cbv zeta. fold entries.
    destruct (nullish (wc_groupPolicy (ra_config account)) GroupAllowlist).
    + split; [by left|done].
    + rewrite <- Hset.
      destruct (has (normalizedSet entries) senderE164),
               (has (normalizedSet entries) senderId); cbn [negb andb orb allowed].
      all: split; [intros H; try done; by right|intros [H|[_ H]]; done].
    + split; [done|]. intros [H|[H _]]; done.
  - intros payload session Hsid He164 Hgroup Hrej.
    unfold traceOf, handleMessage, buildMsgContext. cbv zeta.
    rewrite Hgroup, <- Hsid, <- He164.
    cbv [bind emit recordChannelRuntimeState logFn ret].
    cbn [trace headersSent initialWorld app fst snd].
    rewrite Hrej. cbn [negb].
    by rewrite bool_decide_eq_false_2.
Qed.

(** ** Calls on the remote API in sequence *)

Lemma forEachWith_sendInOrder {A} (g : A -> ClientRequest) l lastResult w :
  forEachWith l
    (fun _ x => let! r := clientCall (g x) in ret (Some r)) lastResult w
  = sendInOrder (g <$> l) lastResult w.
Proof.
  revert lastResult w. induction l as [|x l IH]; intros lastResult w; [done|].
  cbn [forEachWith sendInOrder fmap list_fmap].
  change (forEachWith (x :: l) ?f lastResult w) with
    (forEachWith (x :: l) f lastResult w).
  unfold bind at 1. unfold bind at 1. unfold bind at 2.
  destruct (clientCall (g x) w) as [[id|e|] w1]; [|done|done].
  cbn [ret]. apply IH.
Qed.

Lemma forEach_sendInOrder {A} (g : A -> ClientRequest) l w :
  forEach l (fun x => clientCall (g x) >> ret tt) w
  = (sendInOrder (g <$> l) None >> ret tt) w.
Proof.
  assert (H : forall lastResult w,
            forEach l (fun x => clientCall (g x) >> ret tt) w
            = (sendInOrder (g <$> l) lastResult >> ret tt) w).
  { induction l as [|x l IH]; intros lastResult w'; [done|].
    cbn [forEach sendInOrder fmap list_fmap].
    unfold bind at 1. unfold bind at 1. unfold bind at 2. unfold bind at 2.
    destruct (clientCall (g x) w') as [[id|e|] w1]; [|done|done].
    cbn [ret]. rewrite (IH (Some id) w1). reflexivity. }
  apply H.
Qed.

Lemma sendInOrder_app reqs reqs' lastResult w :
  sendInOrder (reqs ++ reqs') lastResult w
  = (let! r := sendInOrder reqs lastResult in sendInOrder reqs' r) w.
Proof.
  revert lastResult w. induction reqs as [|q reqs IH]; intros lastResult w;
    [done|].
  cbn [sendInOrder app]. unfold bind at 1. unfold bind at 1. unfold bind at 1.
  destruct (clientCall q w) as [[id|e|] w1]; [|done|done].
  rewrite IH. reflexivity.
Qed.

(** A sequence of calls stops at the first one that fails; otherwise all
    are made, in order, and the result is that of the last one. *)
Lemma sendInOrder_run reqs lastResult w :
  let run := sendInOrder reqs lastResult w in
  headersSent (snd run) = headersSent w
  /\ match fst run with
     | Ok r =>
         trace (snd run) = trace w ++ (EvClient <$> reqs)
         /\ ((reqs = [] /\ r = lastResult)
             \/ exists init q id,
                  reqs = init ++ [q] /\ r = Some id
                  /\ remote (trace w ++ (EvClient <$> init)) q = inr id)
     | Throw e =>
         exists init q rest,
           reqs = init ++ q :: rest
           /\ trace (snd run) = trace w ++ (EvClient <$> init ++ [q])
           /\ remote (trace w ++ (EvClient <$> init)) q = inl e
     | Hang => False
     end.
Proof.
  cbv zeta. revert lastResult w.
  induction reqs as [|q reqs IH]; intros lastResult w.
  - cbn. split; [done|]. split; [by rewrite app_nil_r|by left].
  - cbn [sendInOrder]. unfold bind, clientCall.
    destruct (remote (trace w) q) as [e|id] eqn:Hq.
    + cbn [fst snd trace headersSent]. split; [done|].
      exists [], q, reqs. cbn [fmap list_fmap app].
      by rewrite app_nil_r.
    + set (w1 := {| trace := trace w ++ [EvClient q];
                    headersSent := headersSent w |}).
      destruct (IH (Some id) w1) as [Hs Hrun]. split; [exact Hs|].
      destruct (sendInOrder reqs (Some id) w1) as [[r|e|] w2];
        cbn [fst snd] in Hrun |- *.
      * destruct Hrun as [Htr Hlast]. split.
        { rewrite Htr. unfold w1. cbn [trace fmap list_fmap].
          by rewrite <- app_assoc. }
        right. destruct Hlast as [[-> ->]|(init & q' & id' & -> & -> & Hr)].
        { exists [], q, id. cbn [fmap list_fmap app].
          by rewrite app_nil_r. }
        exists (q :: init), q', id'. split; [done|]. split; [done|].
        unfold w1 in Hr. cbn [trace] in Hr. cbn [fmap list_fmap].
        by rewrite <- app_assoc in Hr.
      * destruct Hrun as (init & q' & rest & -> & Htr & Hr).
        exists (q :: init), q', rest. split; [done|].
        unfold w1 in Htr, Hr. cbn [trace] in Htr, Hr.
        rewrite <- app_assoc in Htr, Hr. by split.
      * done.
Qed.

Lemma bind_run {A B} (m : M A) (k : A -> M B) w :
  bind m k w
  = match m w with
    | (Ok a, w') => k a w'
    | (Throw e, w') => (Throw e, w')
    | (Hang, w') => (Hang, w')
    end.
Proof. reflexivity. Qed.

Lemma sendInOrder_app_bind {B} reqs reqs' lastResult
  (k : option jsstring -> M B) w :
  bind (sendInOrder (reqs ++ reqs') lastResult) k w
  = bind (sendInOrder reqs lastResult)
      (fun r => bind (sendInOrder reqs' r) k) w.
Proof.
  revert lastResult w. induction reqs as [|q reqs IH]; intros lastResult w;
    [done|].
  cbn [sendInOrder app].
  rewrite (bind_run (let! id := clientCall q in sendInOrder (reqs ++ reqs') (Some id))).
  rewrite (bind_run (let! id := clientCall q in sendInOrder reqs (Some id))).
  rewrite !(bind_run (clientCall q)).
  destruct (clientCall q w) as [[id|e|] w1]; [|done|done].
  exact (IH (Some id) w1).
Qed.

(** The result of a sequence of calls does not matter to a continuation
    that does not read it. *)
Lemma sendInOrder_ignore {B} reqs lastResult lastResult' (k : M B) w :
  (sendInOrder reqs lastResult >> k) w = (sendInOrder reqs lastResult' >> k) w.
Proof.
  by destruct reqs.
Qed.

Lemma deliver_sendInOrder account ctx payload replyPayload w :
  let chatId := normalizeWahaTarget (From ctx) in
  let text := nullish (rp_text replyPayload) [] in
  let planned :=
    (if truthy (trim text) then
       (fun chunk => SendText (ra_session account) chatId chunk
                       (Some (mp_id payload)))
       <$> chunkMarkdownText text 4000
     else [])
    ++ ((fun mediaUrl => SendImage (ra_session account) chatId mediaUrl)
        <$> nullish (rp_mediaUrls replyPayload) []) in
  deliver account ctx payload replyPayload w
  = (sendInOrder planned None >>
     recordChannelRuntimeState (ra_accountId account) LastOutboundAt) w.
Proof.
  cbv zeta. unfold deliver. cbv zeta.
  rewrite sendInOrder_app_bind.
  match goal with
  | |- bind ?A (fun _ => bind ?B (fun _ => ?C)) w = _ =>
      set (first := A); set (second := B); set (third := C)
  end.
  match goal with
  | |- _ = bind (sendInOrder ?a None) _ w => set (texts := a)
  end.
  match goal with
  | |- _ = bind _ (fun r => bind (sendInOrder ?b r) _) w => set (images := b)
  end.
  assert (Hfirst : forall w, first w = (sendInOrder texts None >> ret tt) w).
  { intros w'. unfold first, texts.
    destruct (truthy (trim (nullish (rp_text replyPayload) []))); [|done].
    apply forEach_sendInOrder. }
  assert (Hsecond : forall w, second w = (sendInOrder images None >> ret tt) w).
  { intros w'. apply forEach_sendInOrder. }
  rewrite (bind_run first), Hfirst, (bind_run (sendInOrder texts None)).
  rewrite (bind_run (sendInOrder texts None)).
  destruct (sendInOrder texts None w) as [[r|e|] w1]; [|done|done].
  cbn [ret].
  rewrite (bind_run second), Hsecond, (bind_run (sendInOrder images None)).
  rewrite <- (sendInOrder_ignore images None r third w1).
  rewrite (bind_run (sendInOrder images None)).
  by destruct (sendInOrder images None w1) as [[r'|e|] w2].
Qed.

(** X24.  [deliver] sends the text chunks of a reply, each quoting the
    inbound message, then the media, in order; it records the outbound
    time only after every call has succeeded, and rejects with the error
    of the first call that fails, making no further call. *)
Theorem X24_deliver_sends_in_order account ctx payload replyPayload w :
  let chatId := normalizeWahaTarget (From ctx) in
  let text := nullish (rp_text replyPayload) [] in
  let planned :=
    (if truthy (trim text) then
       (fun chunk => SendText (ra_session account) chatId chunk
                       (Some (mp_id payload)))
       <$> chunkMarkdownText text 4000
     else [])
    ++ ((fun mediaUrl => SendImage (ra_session account) chatId mediaUrl)
        <$> nullish (rp_mediaUrls replyPayload) []) in
  let run := deliver account ctx payload replyPayload w in
  match fst run with
  | Ok _ =>
      trace (snd run)
      = trace w ++ (EvClient <$> planned)
        ++ [EvRecordState (ra_accountId account) LastOutboundAt]
  | Throw e =>
      exists init q rest,
        planned = init ++ q :: rest
        /\ trace (snd run) = trace w ++ (EvClient <$> init ++ [q])
        /\ remote (trace w ++ (EvClient <$> init)) q = inl e
  | Hang => False
  end.
Proof.
  cbv zeta. rewrite deliver_sendInOrder. cbv zeta.
  match goal with
  | |- context [sendInOrder ?p None] => set (planned := p)
  end.
  rewrite (bind_run (sendInOrder planned None)).
  pose proof (sendInOrder_run planned None w) as [_ Hrun]. cbv zeta in Hrun.
  destruct (sendInOrder planned None w) as [[r|e|] w1]; cbn [fst snd] in Hrun.
  - destruct Hrun as [Htr _].
    unfold recordChannelRuntimeState, emit. cbn [fst snd trace].
    by rewrite Htr, <- app_assoc.
  - exact Hrun.
  - done.
Qed.

Lemma bind_ext {A B} (m m' : M A) (k k' : A -> M B) w :
  m w = m' w -> (forall a w', k a w' = k' a w') ->
  bind m k w = bind m' k' w.
Proof.
  intros Hm Hk. rewrite !bind_run, Hm.
  destruct (m' w) as [[a|e|] w1]; [apply Hk|done|done].
Qed.

Lemma map_fmap {A B} (f : A -> B) (l : list A) : List.map f l = f <$> l.
Proof. induction l as [|x l IH]; [done|]. cbn. by rewrite IH. Qed.

Lemma sendPayload_sendInOrder to payload accountId cfg w :
  runtimeRegistered = true ->
  isWahaAccountConfigured (resolveWahaAccount cfg accountId) = true ->
  sendPayload to payload accountId cfg w
  = (let! lastResult :=
       sendInOrder
         (plannedRequests (resolveWahaAccount cfg accountId) to payload) None in
     ret {| or_channel := js "waha";
            or_messageId := nullish lastResult (js "sent");
            or_chatId := normalizeWahaTarget to |}) w.
Proof.
  intros Hrt Hc. unfold sendPayload, getWahaRuntime, plannedRequests.
  rewrite Hrt. cbv zeta. rewrite (bind_run (ret tt)).
  change (ret tt w) with (Ok tt, w). cbv beta iota. rewrite Hc. cbn [negb].
  rewrite map_fmap, sendInOrder_app_bind.
  apply bind_ext.
  { destruct (truthy (trim (nullish (rp_text payload) []))); [|done].
    apply forEachWith_sendInOrder. }
  intros l1 w1. rewrite map_fmap, sendInOrder_app_bind. apply bind_ext.
  { apply forEachWith_sendInOrder. }
  intros l2 w2. apply bind_ext; [|done].
  by destruct (rp_wahaLocation payload).
Qed.

(** X25.  On a configured account [sendPayload] makes the planned calls
    in order: the text chunks, the media, the location.  It resolves only
    when every call has succeeded, with the id the remote service
    returned for the last call, or "sent" when there was nothing to send;
    it rejects with the error of the first call that fails, and makes no
    call after it. *)
Theorem X25_sendPayload_sends_in_order to payload accountId cfg w :
  runtimeRegistered = true ->
  isWahaAccountConfigured (resolveWahaAccount cfg accountId) = true ->
  let planned :=
    plannedRequests (resolveWahaAccount cfg accountId) to payload in
  let run := sendPayload to payload accountId cfg w in
  match fst run with
  | Ok result =>
      trace (snd run) = trace w ++ (EvClient <$> planned)
      /\ or_channel result = js "waha"
      /\ or_chatId result = normalizeWahaTarget to
      /\ ((planned = [] /\ or_messageId result = js "sent")
          \/ exists init q,
               planned = init ++ [q]
               /\ remote (trace w ++ (EvClient <$> init)) q
                  = inr (or_messageId result))
  | Throw e =>
      exists init q rest,
        planned = init ++ q :: rest
        /\ trace (snd run) = trace w ++ (EvClient <$> init ++ [q])
        /\ remote (trace w ++ (EvClient <$> init)) q = inl e
  | Hang => False
  end.
Proof.
  intros Hrt Hc. cbv zeta. rewrite (sendPayload_sendInOrder _ _ _ _ _ Hrt Hc).
  set (planned := plannedRequests (resolveWahaAccount cfg accountId) to payload).
  rewrite (bind_run (sendInOrder planned None)).
  pose proof (sendInOrder_run planned None w) as [_ Hrun]. cbv zeta in Hrun.
  destruct (sendInOrder planned None w) as [[r|e|] w1]; cbn [fst snd] in Hrun.
  - destruct Hrun as [Htr Hlast]. cbn [ret fst snd or_channel or_chatId
                                       or_messageId].
    split; [done|]. split; [done|]. split; [done|].
    destruct Hlast as [[-> ->]|(init & q & id & -> & -> & Hr)].
    + by left.
    + right. by exists init, q.
  - exact Hrun.
  - done.
Qed.

(** X26.  For a text that is not blank, [sendText] is [sendPayload] on
    the payload that carries this text and nothing else. *)
Theorem X26_sendText_is_sendPayload_of_text to text accountId cfg w :
  truthy (trim text) = true ->
  sendText to text accountId cfg w
  = sendPayload to
      {| rp_text := Some text; rp_mediaUrls := None; rp_mediaUrl := None;
         rp_wahaLocation := None |}
      accountId cfg w.
Proof.
  intros Htext. unfold sendText, sendPayload. cbv zeta.
  apply bind_ext; [done|]. intros _ w1.
  destruct (negb (isWahaAccountConfigured (resolveWahaAccount cfg accountId)));
    [done|].
  cbn [rp_text rp_mediaUrls rp_mediaUrl rp_wahaLocation nullish].
  rewrite Htext. apply bind_ext; [done|]. by intros l1 w2.
Qed.

(** The statement [handleMessage] ends with, on a message that passed
    access control, is the guarded reply. *)
Lemma handleMessage_accepted account payload session w :
  let senderId := nullish (mp_participant payload) (mp_from payload) in
  let senderE164 := chatIdToE164 senderId in
  let isGroup := isGroupChatId (mp_from payload) in
  let ctx := fst (fst (fst (buildMsgContext payload session account))) in
  allowed (checkInboundAccessControl senderId senderE164 isGroup account)
  = true ->
  handleMessage account payload session w
  = dispatchReplyGuarded account ctx payload
      {| trace := trace w
                  ++ checkedTrace account senderId senderE164 isGroup
                  ++ [EvDispatchReply ctx];
         headersSent := headersSent w |}.
Proof.
  cbv zeta. intros Hallowed.
  unfold handleMessage, buildMsgContext, dispatchReplyGuarded. cbv zeta.
  cbn [fst snd From].
  rewrite (bind_run (recordChannelRuntimeState _ _)).
  change (recordChannelRuntimeState ?a ?f w)
    with (Ok tt, {| trace := trace w ++ [EvRecordState a f];
                    headersSent := headersSent w |}).
  cbv beta iota. rewrite (bind_run (emit _)).
  match goal with
  | |- context [emit ?e ?w0] =>
      change (emit e w0)
        with (Ok tt, {| trace := trace w0 ++ [e];
                        headersSent := headersSent w0 |})
  end.
  cbv beta iota. rewrite Hallowed. cbn [negb].
  rewrite (bind_run (emit _)).
  match goal with
  | |- context [emit ?e ?w0] =>
      change (emit e w0)
        with (Ok tt, {| trace := trace w0 ++ [e];
                        headersSent := headersSent w0 |})
  end.
  cbv beta iota. cbn [trace headersSent]. unfold checkedTrace.
  rewrite <- !app_assoc. reflexivity.
Qed.

(** X27.  The guarded reply, the try statement that ends
    [handleMessage], never rejects.  When the reply dispatcher rejects,
    the failure is logged and one apology is sent to the chat; when that
    send fails too, the second failure is only logged.  Otherwise the run
    is the run of the dispatcher.  (Before this statement
    [handleMessage] asks the host for the agent route and the messages
    config, outside any try; the property says nothing about those.) *)
Theorem X27_guarded_reply_never_rejects account ctx payload w :
  let dispatched :=
    dispatchReplyWithBufferedBlockDispatcher ctx (deliver account ctx payload)
      (fun err kind =>
         logger_error (js "reply failed (" ++ kind ++ js "): "
                       ++ String_of_error err))
      w in
  let apology :=
    SendText (ra_session account) (normalizeWahaTarget (From ctx))
      (js "Sorry, I encountered an error processing your message.") None in
  let run := dispatchReplyGuarded account ctx payload w in
  (forall e, fst run <> Throw e)
  /\ (forall err,
        fst dispatched = Throw err ->
        let failed :=
          trace (snd dispatched)
          ++ [EvLogError (js "auto-reply failed: " ++ String_of_error err)] in
        fst run = Ok tt
        /\ trace (snd run)
           = failed ++ [EvClient apology]
             ++ match remote failed apology with
                | inl sendErr =>
                    [EvLogError (js "error reply failed: "
                                 ++ String_of_error sendErr)]
                | inr _ => []
                end)
  /\ ((forall err, fst dispatched <> Throw err) -> run = dispatched).
Proof.
  cbv zeta. unfold dispatchReplyGuarded.
  match goal with
  | |- context [tryCatch ?m ?h w] =>
      set (dispatch := m); set (onFailure := h)
  end.
  assert (Hfail : forall err w1,
            onFailure err w1
            = (Ok tt,
               {| trace :=
                    (trace w1 ++ [EvLogError (js "auto-reply failed: "
                                              ++ String_of_error err)])
                    ++ [EvClient
                          (SendText (ra_session account)
                             (normalizeWahaTarget (From ctx))
                             (js "Sorry, I encountered an error processing your message.")
                             None)]
                    ++ match remote
                               (trace w1 ++ [EvLogError (js "auto-reply failed: "
                                                         ++ String_of_error err)])
                               (SendText (ra_session account)
                                  (normalizeWahaTarget (From ctx))
                                  (js "Sorry, I encountered an error processing your message.")
                                  None) with
                       | inl sendErr =>
                           [EvLogError (js "error reply failed: "
                                        ++ String_of_error sendErr)]
                       | inr _ => []
                       end;
                  headersSent := headersSent w1 |})).
  { intros err w1. unfold onFailure.
    rewrite (bind_run (logger_error _)). unfold logger_error at 1.
    unfold emit at 1. cbv beta iota.
    unfold tryCatch. rewrite (bind_run (clientCall _)). unfold clientCall.
    cbn [trace headersSent].
    match goal with
    | |- context [remote ?tr ?q] => destruct (remote tr q) as [sendErr|id]
    end.
    - unfold logger_error, emit. cbn [trace headersSent].
      by rewrite <- !app_assoc.
    - cbn [ret]. by rewrite app_nil_r. }
  assert (Hrun : tryCatch dispatch onFailure w
                 = match dispatch w with
                   | (Throw e, w1) => onFailure e w1
                   | r => r
                   end) by reflexivity.
  rewrite Hrun. clear Hrun.
  destruct (dispatch w) as [[[]|err|] w1]; cbn [fst snd].
  - split; [done|]. split; [done|]. done.
  - rewrite Hfail. cbn [fst snd trace].
    split; [done|]. split; [|intros H; by destruct (H err)].
    by intros err' [= <-].
  - split; [done|]. split; [done|]. done.
Qed.

(** ** The runtime state of the monitor *)

(** X28.  After [recordChannelRuntimeState] on channel "waha",
    [getWahaRuntimeState] of that account returns the previous state, or
    the initial one when there was none, overlaid with the patch; the
    state of every other account is as before. *)
Theorem X28_runtime_state_round_trip
  (runtimeState : gmap jsstring RuntimeState) accountId state :
  let updated := recordRuntimeState runtimeState (js "waha") accountId state in
  getWahaRuntimeState updated accountId
  = Some (applyPatch
            (nullish (getWahaRuntimeState runtimeState accountId)
               initialRuntimeState)
            state)
  /\ (forall other,
        other <> accountId ->
        getWahaRuntimeState updated other
        = getWahaRuntimeState runtimeState other)
  /\ (forall state',
        let twice := recordRuntimeState updated (js "waha") accountId state' in
        rs_running <$> getWahaRuntimeState twice accountId
        = Some (nullish (p_running state')
                  (nullish (p_running state)
                     (nullish (rs_running
                               <$> getWahaRuntimeState runtimeState accountId)
                        false)))).
Proof.
  cbv zeta. unfold recordRuntimeState, getWahaRuntimeState, runtimeStateKey.
  cbv zeta.
  change (js "waha" ++ js ":" ++ accountId) with (js "waha:" ++ accountId).
  split; [|split].
  - by rewrite lookup_insert_eq.
  - intros other Hne. rewrite lookup_insert_ne; [done|].
    intros Heq. apply Hne. symmetry. by apply app_inv_head in Heq.
  - intros state'. rewrite !lookup_insert_eq. cbn [nullish fmap option_fmap option_map].
    unfold applyPatch. cbn [rs_running].
    by destruct (runtimeState !! (js "waha:" ++ accountId)).
Qed.

(** ** The handler as the monitor registers it *)

Lemma lra_ret {A} (a : A) : leavesResponseAlone (ret a).
Proof. by intros w. Qed.

Lemma lra_throw {A} e : leavesResponseAlone (@throw A e).
Proof. by intros w. Qed.

Lemma lra_emit e : isResponse e = false -> leavesResponseAlone (emit e).
Proof.
  intros He w. unfold emit. cbn [fst snd trace headersSent].
  split; [done|]. unfold responsesOf. rewrite List.filter_app. simpl.
  by rewrite He, app_nil_r.
Qed.

Lemma lra_clientCall q : leavesResponseAlone (clientCall q).
Proof.
  intros w. unfold clientCall.
  assert (H : responsesOf (trace w ++ [EvClient q]) = responsesOf (trace w)).
  { unfold responsesOf. rewrite List.filter_app. simpl. by rewrite app_nil_r. }
  by destruct (remote (trace w) q).
Qed.

Lemma lra_bind {A B} (m : M A) (k : A -> M B) :
  leavesResponseAlone m -> (forall a, leavesResponseAlone (k a)) ->
  leavesResponseAlone (bind m k).
Proof.
  intros Hm Hk w. rewrite bind_run. destruct (Hm w) as [Hs Hr].
  destruct (m w) as [[a|e|] w1]; cbn [fst snd] in Hs, Hr; [|done|done].
  destruct (Hk a w1) as [Hs' Hr']. split; congruence.
Qed.

Lemma lra_tryCatch {A} (m : M A) (h : JsError -> M A) :
  leavesResponseAlone m -> (forall e, leavesResponseAlone (h e)) ->
  leavesResponseAlone (tryCatch m h).
Proof.
  intros Hm Hh w. unfold tryCatch. destruct (Hm w) as [Hs Hr].
  destruct (m w) as [[a|e|] w1]; cbn [fst snd] in Hs, Hr; [done| |done].
  destruct (Hh e w1) as [Hs' Hr']. split; congruence.
Qed.

Lemma lra_forEach {A} (l : list A) (f : A -> M unit) :
  (forall x, leavesResponseAlone (f x)) -> leavesResponseAlone (forEach l f).
Proof.
  intros Hf. induction l as [|x l IH]; [apply lra_ret|].
  cbn [forEach]. apply lra_bind; [apply Hf|]. by intros _.
Qed.

Lemma lra_deliver account ctx payload replyPayload :
  leavesResponseAlone (deliver account ctx payload replyPayload).
Proof.
  unfold deliver. cbv zeta. apply lra_bind.
  { destruct (truthy _); [|apply lra_ret].
    apply lra_forEach. intros chunk.
    apply lra_bind; [apply lra_clientCall|]. intros _. apply lra_ret. }
  intros _. apply lra_bind.
  { apply lra_forEach. intros mediaUrl.
    apply lra_bind; [apply lra_clientCall|]. intros _. apply lra_ret. }
  intros _. by apply lra_emit.
Qed.

Lemma lra_handleMessage account payload session :
  (forall ctx deliver onError,
     (forall p, leavesResponseAlone (deliver p)) ->
     (forall e kind, leavesResponseAlone (onError e kind)) ->
     leavesResponseAlone
       (dispatchReplyWithBufferedBlockDispatcher ctx deliver onError)) ->
  leavesResponseAlone (handleMessage account payload session).
Proof.
  intros Hdispatch. unfold handleMessage, buildMsgContext. cbv zeta.
  apply lra_bind; [by apply lra_emit|]. intros _.
  apply lra_bind; [by apply lra_emit|]. intros _.
  destruct (negb (allowed _)).
  - apply lra_bind; [by apply lra_emit|]. intros _.
    destruct (bool_decide _); [|apply lra_ret].
    apply lra_bind; [by apply lra_emit|]. intros _.
    apply lra_bind; [by apply lra_emit|]. intros _.
    apply lra_bind; [apply lra_clientCall|]. intros _. apply lra_ret.
  - apply lra_bind; [by apply lra_emit|]. intros _.
    apply lra_tryCatch.
    + apply Hdispatch.
      * intros p. apply lra_deliver.
      * intros e kind. by apply lra_emit.
    + intros err. apply lra_bind; [by apply lra_emit|]. intros _.
      apply lra_tryCatch.
      * apply lra_bind; [apply lra_clientCall|]. intros _. apply lra_ret.
      * intros sendErr. by apply lra_emit.
Qed.

(** X30.  The handler as the monitor registers it, with [handleMessage]
    and the reaction and session status callbacks of the monitor, answers
    every request with exactly one response and never throws, as long as
    the reply dispatcher of the host writes no response itself. *)
Theorem X30_monitor_handler_writes_one_response account req :
  (forall ctx deliver onError,
     (forall p, leavesResponseAlone (deliver p)) ->
     (forall e kind, leavesResponseAlone (onError e kind)) ->
     leavesResponseAlone
       (dispatchReplyWithBufferedBlockDispatcher ctx deliver onError)) ->
  (forall e, outcomeOf (monitorHandler account req) <> Throw e)
  /\ length (responsesOf (traceOf (monitorHandler account req))) = 1%nat.
Proof.
  intros Hdispatch. unfold monitorHandler. apply handler_settled.
  - intros p s. unfold monitorOnMessage.
    destruct p as [m|r|st]; [by apply lra_handleMessage
                            |by apply lra_handleMessage|apply lra_throw].
  - intros f p s [= <-]. unfold monitorOnReaction.
    destruct p as [m|r|st]; [apply lra_throw|by apply lra_emit|apply lra_throw].
  - intros f p s [= <-]. unfold monitorOnSessionStatus.
    destruct p as [m|r|st]; [by apply lra_emit|by apply lra_emit|].
    apply lra_bind; [by apply lra_emit|]. intros _.
    destruct (streq _ _); [by apply lra_emit|apply lra_ret].
Qed.

(** ** The message context *)

(** X19.  The context built for a message names as sender the group
    participant when there is one and the chat otherwise, in the form
    [chatIdToE164] gives; its [SenderTag] is what [formatSenderDisplay]
    returns for that sender, except for a name made of white space only,
    which the context keeps and [formatSenderDisplay] leaves out. *)
Theorem X19_sender_of_message_context payload session account :
  let ctx := fst (fst (fst (buildMsgContext payload session account))) in
  let senderId := nullish (mp_participant payload) (mp_from payload) in
  let senderName := nullishOpt (mp_notifyName payload) (mp_participant payload) in
  SenderId ctx = senderId
  /\ SenderE164 ctx = chatIdToE164 senderId
  /\ (truthyOpt (trim <$> senderName) = truthyOpt senderName ->
      SenderTag ctx = formatSenderDisplay senderId senderName)
  /\ (forall name,
        senderName = Some name -> truthy name = true -> trim name = [] ->
        SenderTag ctx = name ++ js " (" ++ chatIdToE164 senderId ++ js ")"
        /\ formatSenderDisplay senderId senderName = chatIdToE164 senderId).
Proof.
  cbv zeta. unfold buildMsgContext, formatSenderDisplay. cbv zeta.
  cbn [fst snd SenderId SenderE164 SenderTag].
  split; [done|]. split; [done|]. split.
  - destruct (nullishOpt (mp_notifyName payload) (mp_participant payload))
      as [name|]; [|done].
    cbn [fmap option_fmap option_map truthyOpt]. by intros ->.
  - intros name -> Hname Htrim. by rewrite Hname, Htrim.
Qed.

End Adapter.

(** ** Facts about the string primitives *)

Section StringFacts.

Implicit Types (s t p d : jsstring) (c : N).

(** Decide a boolean fact about one code unit by arithmetic. *)
Ltac char_arith :=
  unfold isDigit, isWhiteSpace, eqb_ci, foldCase in *;
  repeat match goal with
  | H : context [N.leb ?a ?b] |- _ => destruct (N.leb_spec a b)
  | H : context [N.eqb ?a ?b] |- _ => destruct (N.eqb_spec a b)
  | |- context [N.leb ?a ?b] => destruct (N.leb_spec a b)
  | |- context [N.eqb ?a ?b] => destruct (N.eqb_spec a b)
  end; simpl in *; try congruence; try lia.

Lemma digit_not_space c : isDigit c = true -> isWhiteSpace c = false.
Proof. intros H. char_arith. Qed.

Lemma digit_neq c (k : N) :
  isDigit c = true -> k < 48 \/ 57 < k -> (k =? c) = false.
Proof. intros H Hk. char_arith. Qed.

Lemma digit_not_ci c (k : N) :
  isDigit c = true -> 65 <= k -> eqb_ci k c = false.
Proof. intros H Hk. char_arith. Qed.

Lemma drop_while_length f s : (length (drop_while f s) <= length s)%nat.
Proof.
  induction s as [|c r IH]; simpl; [lia|].
  destruct (f c); simpl; lia.
Qed.

Lemma drop_while_same_or_shorter f s :
  drop_while f s = s \/ (length (drop_while f s) < length s)%nat.
Proof.
  destruct s as [|c r]; simpl; [by left|].
  destruct (f c); [right|by left].
  pose proof (drop_while_length f r). lia.
Qed.

Lemma drop_while_head f s :
  drop_while f s = [] \/
  exists c r, drop_while f s = c :: r /\ f c = false.
Proof.
  induction s as [|c r IH]; simpl; [by left|].
  destruct (f c) eqn:E; [exact IH|].
  right. by exists c, r.
Qed.

Lemma take_drop_while f s : take_while f s ++ drop_while f s = s.
Proof.
  induction s as [|c r IH]; simpl; [done|].
  destruct (f c); simpl; [by rewrite IH|done].
Qed.

Lemma take_while_app_stop f d c r :
  Forall (fun x => f x = true) d -> f c = false ->
  take_while f (d ++ c :: r) = d /\ drop_while f (d ++ c :: r) = c :: r.
Proof.
  intros Hd Hc. induction Hd as [|x d Hx Hd IH]; simpl.
  - by rewrite Hc.
  - rewrite Hx. destruct IH as [-> ->]. done.
Qed.

Lemma trimStart_length s : (length (trimStart s) <= length s)%nat.
Proof. apply drop_while_length. Qed.

Lemma trimEnd_length s : (length (trimEnd s) <= length s)%nat.
Proof.
  unfold trimEnd. rewrite length_rev.
  pose proof (trimStart_length (rev s)) as H. by rewrite length_rev in H.
Qed.

Lemma trim_length s : (length (trim s) <= length s)%nat.
Proof.
  unfold trim. pose proof (trimEnd_length (trimStart s)).
  pose proof (trimStart_length s). lia.
Qed.

Lemma trimEnd_snoc s c : isWhiteSpace c = false -> trimEnd (s ++ [c]) = s ++ [c].
Proof.
  intros H. unfold trimEnd, trimStart. rewrite rev_app_distr. simpl.
  rewrite H. simpl. by rewrite rev_involutive.
Qed.

Lemma trimEnd_shape s :
  trimEnd s = [] \/ exists t c, trimEnd s = t ++ [c] /\ isWhiteSpace c = false.
Proof.
  unfold trimEnd, trimStart.
  destruct (drop_while_head isWhiteSpace (rev s)) as [->|(c & r & -> & Hc)].
  - by left.
  - right. exists (rev r), c. by simpl.
Qed.

(** A string is tail-clean when [trimEnd] leaves it alone. *)
Lemma trimEnd_idem s : trimEnd (trimEnd s) = trimEnd s.
Proof.
  destruct (trimEnd_shape s) as [->|(t & c & -> & Hc)]; [done|].
  by apply trimEnd_snoc.
Qed.

Lemma trimEnd_drop (n : nat) s : trimEnd s = s -> trimEnd (drop n s) = drop n s.
Proof.
  intros Hs. destruct (trimEnd_shape s) as [E|(t & c & E & Hc)]; rewrite Hs in E.
  - subst s. by rewrite drop_nil.
  - subst s. destruct (decide (n <= length t)%nat) as [Hle|Hgt].
    + rewrite drop_app_le by done. by apply trimEnd_snoc.
    + rewrite drop_ge; [done|]. rewrite length_app. simpl. lia.
Qed.

Lemma trim_tail_clean s : trimEnd (trim s) = trim s.
Proof. apply trimEnd_idem. Qed.

Lemma trimEnd_same_length s :
  length (trimEnd s) = length s -> trimEnd s = s.
Proof.
  unfold trimEnd, trimStart. rewrite length_rev. intros H.
  destruct (drop_while_same_or_shorter isWhiteSpace (rev s)) as [->|Hlt].
  - apply rev_involutive.
  - rewrite length_rev in Hlt. lia.
Qed.

Lemma startsWith_app p s : startsWith p (p ++ s) = true.
Proof. induction p as [|a p IH]; simpl; [done|]. by rewrite N.eqb_refl. Qed.

Lemma endsWith_app p s : endsWith p (s ++ p) = true.
Proof. unfold endsWith. rewrite rev_app_distr. apply startsWith_app. Qed.


Lemma startsWith_ci_length p s :
  startsWith_ci p s = true -> (length p <= length s)%nat.
Proof.
  revert s. induction p as [|a p IH]; intros s; simpl; [lia|].
  destruct s as [|b s]; [done|].
  intros [_ H]%andb_true_iff. apply IH in H. simpl. lia.
Qed.

Lemma stripWahaPrefix_drop s : exists n : nat, stripWahaPrefix s = drop n s.
Proof.
  unfold stripWahaPrefix.
  destruct (startsWith_ci (js "waha:") s); [|by exists 0%nat].
  destruct (startsWith_ci (js "user:") (drop 5 s)).
  { exists 10%nat. by rewrite drop_drop. }
  destruct (startsWith_ci (js "group:") (drop 5 s)).
  { exists 11%nat. by rewrite drop_drop. }
  by exists 5%nat.
Qed.

Lemma stripWahaPrefix_length s : (length (stripWahaPrefix s) <= length s)%nat.
Proof.
  destruct (stripWahaPrefix_drop s) as [n ->]. rewrite length_drop. lia.
Qed.

Lemma stripWahaPrefix_shorter s :
  hasWahaPrefix s = true -> (length (stripWahaPrefix s) < length s)%nat.
Proof.
  unfold hasWahaPrefix, stripWahaPrefix. intros H. rewrite H.
  apply startsWith_ci_length in H. change (length (js "waha:")) with 5%nat in H.
  repeat match goal with |- context [if ?b then _ else _] => destruct b end;
    rewrite ?length_drop; lia.
Qed.

Lemma stripWahaPrefix_none s : hasWahaPrefix s = false -> stripWahaPrefix s = s.
Proof. unfold hasWahaPrefix, stripWahaPrefix. by intros ->. Qed.

Lemma trimStart_none s : startsWithSpace s = false -> trimStart s = s.
Proof. unfold trimStart. destruct s as [|c r]; simpl; [done|]. by intros ->. Qed.

Lemma trim_none s : startsWithSpace s = false -> trimEnd s = s -> trim s = s.
Proof. intros H1 H2. unfold trim. by rewrite trimStart_none. Qed.

Lemma trim_same_length s : length (trim s) = length s -> trim s = s.
Proof.
  intros H. unfold trim in *.
  pose proof (trimEnd_length (trimStart s)). pose proof (trimStart_length s).
  destruct (drop_while_same_or_shorter isWhiteSpace s) as [E|Hlt];
    unfold trimStart in *; [|lia].
  rewrite E in *. by apply trimEnd_same_length.
Qed.

Lemma trim_space_shorter s :
  startsWithSpace s = true -> (length (trim s) < length s)%nat.
Proof.
  destruct s as [|c r]; simpl; [done|]. intros H.
  pose proof (trimEnd_length (trimStart (c :: r))) as H1.
  unfold trim. unfold trimStart in *. simpl in *. rewrite H in *.
  pose proof (drop_while_length isWhiteSpace r). lia.
Qed.

Lemma strippedOf_tail_clean x : trimEnd (strippedOf x) = strippedOf x.
Proof.
  unfold strippedOf. destruct (stripWahaPrefix_drop (trim x)) as [n ->].
  apply trimEnd_drop, trim_tail_clean.
Qed.

Lemma strippedOf_clean s :
  cleanRemainder s = true -> trimEnd s = s -> strippedOf s = s.
Proof.
  unfold cleanRemainder, strippedOf.
  intros [H1%negb_true_iff H2%negb_true_iff]%andb_true_iff Ht.
  rewrite trim_none by done. by apply stripWahaPrefix_none.
Qed.

Lemma digit_head_clean c s : isDigit c = true -> cleanRemainder (c :: s) = true.
Proof.
  intros H. unfold cleanRemainder, hasWahaPrefix.
  change (js "waha:") with (119 :: js "aha:").
  cbn [startsWithSpace startsWith_ci].
  rewrite (digit_not_space c H), (digit_not_ci c 119 H); [done|lia].
Qed.

Lemma digitsOf_allDigits s : allDigits (digitsOf s).
Proof.
  unfold allDigits, digitsOf. apply List.Forall_forall.
  intros c Hc. by apply List.filter_In in Hc as [_ Hc].
Qed.

Lemma digitsOf_id d : allDigits d -> digitsOf d = d.
Proof.
  unfold digitsOf. induction 1 as [|c d Hc Hd IH]; simpl; [done|].
  by rewrite Hc, IH.
Qed.

Lemma allDigits_last d :
  allDigits d -> d <> [] ->
  exists t c, d = t ++ [c] /\ isDigit c = true.
Proof.
  intros Hd Hne. destruct d as [|a d] using rev_ind; [done|].
  apply Forall_app in Hd as [_ Hd]. inversion Hd; subst. eauto.
Qed.

Lemma digits_no_suffix d : allDigits d -> d <> [] -> hasWahaSuffix d = false.
Proof.
  intros Hd Hne. destruct (allDigits_last d Hd Hne) as (t & c & -> & Hc).
  unfold hasWahaSuffix, endsWith. rewrite rev_app_distr.
  change (rev (js "@c.us")) with (115 :: rev (js "@c.u")).
  change (rev (js "@g.us")) with (115 :: rev (js "@g.u")).
  change (rev (js "@newsletter")) with (114 :: rev (js "@newslette")).
  cbn [rev app startsWith].
  rewrite (digit_neq c 115 Hc), (digit_neq c 114 Hc); [done|lia|lia].
Qed.

Lemma plus_digits_no_suffix d :
  allDigits d -> d <> [] -> hasWahaSuffix (PLUS :: d) = false.
Proof.
  intros Hd Hne. destruct (allDigits_last d Hd Hne) as (t & c & -> & Hc).
  unfold hasWahaSuffix, endsWith.
  change (PLUS :: t ++ [c]) with ((PLUS :: t) ++ [c]).
  rewrite rev_app_distr.
  change (rev (js "@c.us")) with (115 :: rev (js "@c.u")).
  change (rev (js "@g.us")) with (115 :: rev (js "@g.u")).
  change (rev (js "@newsletter")) with (114 :: rev (js "@newslette")).
  cbn [rev app startsWith].
  rewrite (digit_neq c 115 Hc), (digit_neq c 114 Hc); [done|lia|lia].
Qed.

Lemma digits_tail_clean d : allDigits d -> trimEnd d = d.
Proof.
  intros Hd. destruct d as [|a d]; [done|].
  destruct (allDigits_last (a :: d) Hd) as (t & c & -> & Hc); [done|].
  by apply trimEnd_snoc, digit_not_space.
Qed.

(** The chat id of an individual chat is a fixed point of the normalizer. *)
Lemma normalize_chat_id d :
  allDigits d -> d <> [] ->
  normalizeWahaTarget (d ++ js "@c.us") = d ++ js "@c.us".
Proof.
  intros Hd Hne. destruct d as [|c d']; [done|]. inversion Hd; subst.
  assert (Hs : strippedOf ((c :: d') ++ js "@c.us") = (c :: d') ++ js "@c.us").
  { apply strippedOf_clean; [by apply digit_head_clean|].
    change (js "@c.us") with (js "@c.u" ++ [115]). rewrite app_assoc.
    by apply trimEnd_snoc. }
  unfold normalizeWahaTarget. fold (strippedOf ((c :: d') ++ js "@c.us")).
  rewrite Hs. unfold hasWahaSuffix. by rewrite endsWith_app.
Qed.

Lemma normalize_digits d :
  allDigits d -> d <> [] -> normalizeWahaTarget d = d ++ js "@c.us".
Proof.
  intros Hd Hne.
  assert (Hs : strippedOf d = d).
  { apply strippedOf_clean; [|by apply digits_tail_clean].
    destruct d; [done|]. inversion Hd; subst. by apply digit_head_clean. }
  unfold normalizeWahaTarget. fold (strippedOf d). rewrite Hs.
  rewrite (digits_no_suffix d Hd Hne). rewrite (digitsOf_id d Hd).
  destruct d as [|c d']; [done|]. inversion Hd; subst.
  change (js "+") with [43]. cbn [startsWith truthy andb].
  rewrite (digit_neq c 43); [|done|lia].
  cbn [andb]. unfold streq. by rewrite bool_decide_eq_true_2.
Qed.

Lemma normalize_plus_digits d :
  allDigits d -> d <> [] -> normalizeWahaTarget (PLUS :: d) = d ++ js "@c.us".
Proof.
  intros Hd Hne.
  assert (Hs : strippedOf (PLUS :: d) = PLUS :: d).
  { apply strippedOf_clean; [done|].
    destruct (allDigits_last d Hd Hne) as (t & c & -> & Hc).
    change (PLUS :: t ++ [c]) with ((PLUS :: t) ++ [c]).
    by apply trimEnd_snoc, digit_not_space. }
  unfold normalizeWahaTarget. fold (strippedOf (PLUS :: d)). rewrite Hs.
  rewrite (plus_digits_no_suffix d Hd Hne).
  change (startsWith (js "+") (PLUS :: d)) with true. cbv iota.
  unfold e164ToChatId.
  change (digitsOf (PLUS :: d)) with (digitsOf d).
  rewrite (digitsOf_id d Hd). by destruct d.
Qed.

Lemma chatIdToE164_chat_id d :
  allDigits d -> d <> [] -> chatIdToE164 (d ++ js "@c.us") = PLUS :: d.
Proof.
  intros Hd Hne. unfold chatIdToE164, matchDigitsCUs.
  change (js "@c.us") with (64 :: js "c.us").
  destruct (take_while_app_stop isDigit d 64 (js "c.us") Hd eq_refl) as [-> ->].
  by destruct d.
Qed.

Lemma normalize_depends x y :
  strippedOf x = strippedOf y -> normalizeWahaTarget x = normalizeWahaTarget y.
Proof. unfold normalizeWahaTarget, strippedOf. cbv zeta. by intros ->. Qed.

(** The result is the remainder itself, or the chat id built from the
    digits of a remainder that starts with a plus sign or a digit. *)
Lemma normalize_cases x :
  normalizeWahaTarget x = strippedOf x \/
  (cleanRemainder (strippedOf x) = true /\
   exists d, allDigits d /\ d <> [] /\ normalizeWahaTarget x = d ++ js "@c.us").
Proof.
  unfold normalizeWahaTarget. fold (strippedOf x). cbv zeta.
  set (s := strippedOf x).
  destruct (hasWahaSuffix s); [by left|].
  destruct (startsWith (js "+") s) eqn:Hplus.
  - unfold e164ToChatId. destruct (digitsOf s) as [|c d] eqn:Hd; [by left|].
    right. split.
    + destruct s as [|b s']; [done|]. change (js "+") with [43] in Hplus.
      cbn [startsWith] in Hplus. apply andb_true_iff in Hplus as [Hb _].
      apply N.eqb_eq in Hb. by subst b.
    + exists (c :: d). split; [rewrite <- Hd; apply digitsOf_allDigits|done].
  - destruct (truthy (digitsOf s) && streq (digitsOf s) s) eqn:Hds; [|by left].
    apply andb_true_iff in Hds as [Ht Heq].
    apply bool_decide_eq_true_1 in Heq.
    right. pose proof (digitsOf_allDigits s) as Hall. rewrite Heq in *.
    split.
    + destruct s as [|c s']; [done|]. inversion Hall; subst.
      by apply digit_head_clean.
    + exists s. split; [done|]. split; [by destruct s|done].
Qed.

(** A fixed point of the normalizer is a clean remainder. *)
Lemma normalize_fixed_clean y :
  normalizeWahaTarget y = y -> cleanRemainder y = true.
Proof.
  intros Hfix.
  destruct (normalize_cases y) as [E|(_ & d & Hd & Hne & E)].
  - rewrite Hfix in E. unfold strippedOf in E.
    pose proof (stripWahaPrefix_length (trim y)) as H1.
    pose proof (trim_length y) as H2. rewrite <- E in H1.
    assert (Ht : trim y = y) by (apply trim_same_length; lia).
    rewrite Ht in E. unfold cleanRemainder.
    destruct (startsWithSpace y) eqn:Hs.
    { apply trim_space_shorter in Hs. rewrite Ht in Hs. lia. }
    destruct (hasWahaPrefix y) eqn:Hp; [|done].
    apply stripWahaPrefix_shorter in Hp. rewrite <- E in Hp. lia.
  - rewrite Hfix in E. subst y. destruct d as [|c d]; [done|].
    inversion Hd; subst. by apply digit_head_clean.
Qed.

Lemma normalize_stripped x :
  cleanRemainder (strippedOf x) = true ->
  normalizeWahaTarget (strippedOf x) = normalizeWahaTarget x.
Proof.
  intros Hc. apply normalize_depends.
  apply strippedOf_clean; [done|]. apply strippedOf_tail_clean.
Qed.

Lemma chatIdToE164_plus s :
  startsWith (js "+") s = true -> chatIdToE164 s = s.
Proof.
  intros H. destruct s as [|b r]; [done|].
  change (js "+") with [43] in H. cbn [startsWith] in H.
  apply andb_true_iff in H as [Hb _]. apply N.eqb_eq in Hb. by subst b.
Qed.

Lemma take_drop_while_all f d :
  Forall (fun c => f c = true) d -> take_while f d = d /\ drop_while f d = [].
Proof.
  induction 1 as [|c d Hc Hd [IH1 IH2]]; simpl; [done|].
  by rewrite Hc, IH1, IH2.
Qed.

Lemma chatIdToE164_digits d :
  allDigits d -> d <> [] -> chatIdToE164 d = PLUS :: d.
Proof.
  intros Hd Hne. unfold chatIdToE164, matchDigitsCUs.
  destruct (take_drop_while_all isDigit d Hd) as [-> ->].
  change (equals_ci (js "@c.us") []) with false. rewrite andb_false_r.
  rewrite (digitsOf_id d Hd).
  destruct d as [|c d']; [done|]. inversion Hd; subst.
  change (js "+") with [43]. cbn [startsWith truthy].
  rewrite (digit_neq c 43); [done|done|lia].
Qed.

End StringFacts.

(** What [chatIdToE164] returns on an input that is not an individual
    chat id and does not start with a plus sign: the plus sign and the
    digits of the input as soon as it holds one digit, wherever it is. *)
Lemma chatIdToE164_other_input (s : jsstring) :
  matchDigitsCUs s = None -> startsWith (js "+") s = false ->
  chatIdToE164 s = if truthy (digitsOf s) then PLUS :: digitsOf s else s.
Proof. unfold chatIdToE164. by intros -> ->. Qed.

(** ** Target normalizer: the claims *)

(** C4, counterexample.  A doubled scheme prefix is removed one layer per
    application, so the second application still changes the result. *)
Lemma C4_counterexample :
  normalizeWahaTarget (normalizeWahaTarget (js "waha:waha:123"))
  <> normalizeWahaTarget (js "waha:waha:123").
Proof. vm_compute. discriminate. Qed.

(** C4, amended.  Applying the target normalizer twice gives the same
    result as applying it once exactly when the remainder left after
    trimming the input and removing one scheme prefix does not itself begin
    with white space or with another scheme prefix.  Already-suffixed,
    plus-prefixed, bare-digit and garbage inputs without a scheme prefix
    all have such a remainder. *)
Theorem C4_normalize_idempotent_iff (x : jsstring) :
  normalizeWahaTarget (normalizeWahaTarget x) = normalizeWahaTarget x
  <-> cleanRemainder (strippedOf x) = true.
Proof.
  split.
  - intros Hid.
    destruct (normalize_cases x) as [E|[Hc _]]; [|done].
    rewrite E in Hid. by apply normalize_fixed_clean.
  - intros Hc.
    destruct (normalize_cases x) as [E|(_ & d & Hd & Hne & E)]; rewrite E.
    + rewrite (normalize_stripped x Hc). exact E.
    + by apply normalize_chat_id.
Qed.

(** C5, the code at the failing input.  A group id is not an individual
    chat id, does not start with a plus sign and is not a pure digit run,
    yet [chatIdToE164] does not pass it through: it returns the plus sign
    followed by the digits found anywhere in the input. *)
Theorem C5_chatIdToE164_group_id :
  chatIdToE164 (js "120363041234567890@g.us") = js "+120363041234567890"
  /\ chatIdToE164 (js "120363041234567890@g.us") <> js "120363041234567890@g.us"
  /\ normalizeWahaAllowEntry (js "120363041234567890@g.us")
     = js "120363041234567890@g.us".
Proof. vm_compute. repeat split; discriminate. Qed.

(** C6.  For every non-empty digit run [d], both starting forms, [d] and
    [+d], are sent by [normalizeWahaTarget] and then [chatIdToE164] to the
    canonical E.164 form [+d]. *)
Theorem C6_round_trip (d : jsstring) :
  allDigits d -> d <> [] ->
  chatIdToE164 (normalizeWahaTarget d) = PLUS :: d
  /\ chatIdToE164 (normalizeWahaTarget (PLUS :: d)) = PLUS :: d
  /\ chatIdToE164 (normalizeWahaTarget d)
     = chatIdToE164 (normalizeWahaTarget (PLUS :: d)).
Proof.
  intros Hd Hne.
  rewrite (normalize_digits d Hd Hne), (normalize_plus_digits d Hd Hne).
  by rewrite (chatIdToE164_chat_id d Hd Hne).
Qed.

Lemma C6_round_trip_witness :
  chatIdToE164 (normalizeWahaTarget (js "5511976819114")) = js "+5511976819114"
  /\ chatIdToE164 (normalizeWahaTarget (js "+5511976819114"))
     = js "+5511976819114".
Proof.
  assert (Hd : allDigits (js "5511976819114")).
  { unfold allDigits. repeat constructor. }
  assert (Hne : js "5511976819114" <> []) by discriminate.
  destruct (C6_round_trip (js "5511976819114") Hd Hne) as (H1 & H2 & _).
  split; [exact H1|exact H2].
Defined.

(** Sanity checks on the documented examples of normalize.ts. *)
Example normalize_e164 :
  normalizeWahaTarget (js "+5511976819114") = js "5511976819114@c.us".
Proof. vm_compute. reflexivity. Qed.

Example normalize_prefixed :
  normalizeWahaTarget (js " WAHA:user:5511976819114 ") = js "5511976819114@c.us".
Proof. vm_compute. reflexivity. Qed.

Example normalize_group :
  normalizeWahaTarget (js "123456789@g.us") = js "123456789@g.us".
Proof. vm_compute. reflexivity. Qed.

Example chatIdToE164_doc :
  chatIdToE164 (js "5511976819114@C.US") = js "+5511976819114".
Proof. vm_compute. reflexivity. Qed.



(** ** Further facts about the target normalizer *)

Section NormalizerFacts.

Implicit Types (s t d x : jsstring) (c : N).

Ltac char_cases :=
  unfold isDigit, isWhiteSpace, eqb_ci, foldCase in *;
  repeat match goal with
  | H : context [N.leb ?a ?b] |- _ => destruct (N.leb_spec a b)
  | H : context [N.eqb ?a ?b] |- _ => destruct (N.eqb_spec a b)
  | |- context [N.leb ?a ?b] => destruct (N.leb_spec a b)
  | |- context [N.eqb ?a ?b] => destruct (N.eqb_spec a b)
  end; simpl in *; try congruence; try lia.

Lemma allDigitsb_spec s : allDigitsb s = true <-> allDigits s.
Proof.
  unfold allDigitsb, allDigits. rewrite forallb_forall, List.Forall_forall.
  reflexivity.
Qed.

Lemma strippedOf_digits d : allDigits d -> strippedOf d = d.
Proof.
  intros Hd. apply strippedOf_clean; [|by apply digits_tail_clean].
  destruct d; [done|]. inversion Hd; subst. by apply digit_head_clean.
Qed.

Lemma strippedOf_plus_digits d :
  allDigits d -> d <> [] -> strippedOf (PLUS :: d) = PLUS :: d.
Proof.
  intros Hd Hne. apply strippedOf_clean; [done|].
  destruct (allDigits_last d Hd Hne) as (t & c & -> & Hc).
  change (PLUS :: t ++ [c]) with ((PLUS :: t) ++ [c]).
  by apply trimEnd_snoc, digit_not_space.
Qed.

Lemma strippedOf_chat_id d :
  allDigits d -> d <> [] -> strippedOf (d ++ js "@c.us") = d ++ js "@c.us".
Proof.
  intros Hd Hne. destruct d as [|c d']; [done|]. inversion Hd; subst.
  apply strippedOf_clean; [by apply digit_head_clean|].
  change (js "@c.us") with (js "@c.u" ++ [115]). rewrite app_assoc.
  by apply trimEnd_snoc.
Qed.

Lemma matchDigitsCUs_digits d : allDigits d -> matchDigitsCUs d = None.
Proof.
  intros Hd. unfold matchDigitsCUs.
  destruct (take_drop_while_all isDigit d Hd) as [-> ->].
  change (equals_ci (js "@c.us") []) with false. by rewrite andb_false_r.
Qed.

Lemma matchDigitsCUs_chat_id d :
  allDigits d -> d <> [] -> matchDigitsCUs (d ++ js "@c.us") = Some d.
Proof.
  intros Hd Hne. unfold matchDigitsCUs.
  change (js "@c.us") with (64 :: js "c.us").
  destruct (take_while_app_stop isDigit d 64 (js "c.us") Hd eq_refl) as [-> ->].
  by destruct d.
Qed.

(** X1.  No chat id is both a group id and a direct id. *)
Theorem X1_group_direct_exclusive s :
  isGroupChatId s && isDirectChatId s = false.
Proof.
  unfold isGroupChatId, isDirectChatId, endsWith.
  change (rev (js "@c.us")) with [115; 117; 46; 99; 64].
  change (rev (js "@g.us")) with [115; 117; 46; 103; 64].
  change (rev (js "@newsletter")) with (114 :: rev (js "@newslette")).
  generalize (rev (js "@newslette")) as q.
  generalize (rev s) as r. intros r q.
  destruct r as [|a [|b [|c [|d r']]]]; cbn [startsWith];
    rewrite ?andb_false_r, ?orb_false_r; try reflexivity;
    destruct (N.eqb_spec 115 a); destruct (N.eqb_spec 114 a);
    try reflexivity; try lia; cbn [andb orb];
    try (by rewrite andb_false_r).
  destruct (N.eqb_spec 103 d); destruct (N.eqb_spec 99 d);
    rewrite ?andb_false_r, ?andb_false_l; cbn [andb orb]; try reflexivity; try lia.
  all: by rewrite ?andb_false_r.
Qed.

(** X2.  [e164ToChatId] keeps an input without any digit as it is; any
    other input becomes the direct chat id of its digits, from which
    [chatIdToE164] gives back the plus sign and those digits. *)
Theorem X2_e164_chat_id_round_trip x :
  (digitsOf x = [] -> e164ToChatId x = x)
  /\ (digitsOf x <> [] ->
      e164ToChatId x = digitsOf x ++ js "@c.us"
      /\ isDirectChatId (e164ToChatId x) = true
      /\ chatIdToE164 (e164ToChatId x) = PLUS :: digitsOf x).
Proof.
  unfold e164ToChatId. split.
  - by intros ->.
  - intros Hne. destruct (digitsOf x) as [|c d] eqn:Hd; [done|].
    cbn [truthy negb]. split; [done|]. split.
    + unfold isDirectChatId. apply endsWith_app.
    + apply chatIdToE164_chat_id; [|done]. rewrite <- Hd.
      apply digitsOf_allDigits.
Qed.

(** X3.  An input that [looksLikeWahaTargetId] accepts and that carries no
    scheme prefix is normalized to an id with one of the three suffixes;
    a blank input is never accepted. *)
Theorem X3_looksLike_normalizes_to_chat_id x :
  (trim x = [] -> looksLikeWahaTargetId x = false)
  /\ (looksLikeWahaTargetId x = true -> hasWahaPrefix (trim x) = false ->
      hasWahaSuffix (normalizeWahaTarget x) = true).
Proof.
  unfold looksLikeWahaTargetId. cbv zeta. split; [by intros ->|].
  intros Hlooks Hnp.
  assert (Hs : strippedOf x = trim x).
  { unfold strippedOf. by apply stripWahaPrefix_none. }
  destruct (truthy (trim x)) eqn:Ht; [|done]. cbn [negb] in Hlooks.
  fold (hasWahaSuffix (trim x)) in Hlooks.
  destruct (hasWahaSuffix (trim x)) eqn:Hsuf.
  { unfold normalizeWahaTarget. fold (strippedOf x). cbv zeta.
    rewrite Hs, Hsuf. exact Hsuf. }
  unfold hasWahaPrefix in Hnp. rewrite Hnp in Hlooks.
  assert (Hnorm : forall d, allDigits d -> d <> [] ->
            (trim x = d \/ trim x = PLUS :: d) ->
            hasWahaSuffix (normalizeWahaTarget x) = true).
  { intros d Hd Hne Hshape.
    assert (normalizeWahaTarget x = d ++ js "@c.us") as ->.
    { destruct Hshape as [E|E].
      - rewrite (normalize_depends x d); [by apply normalize_digits|].
        by rewrite Hs, E, strippedOf_digits.
      - rewrite (normalize_depends x (PLUS :: d)); [by apply normalize_plus_digits|].
        by rewrite Hs, E, strippedOf_plus_digits. }
    unfold hasWahaSuffix. by rewrite endsWith_app. }
  destruct (isPlusDigitRun10to15 (trim x)) eqn:Hplus.
  - unfold isPlusDigitRun10to15 in Hplus.
    destruct (trim x) as [|c d] eqn:E; [done|].
    apply andb_true_iff in Hplus as [Hc Hrun]. apply N.eqb_eq in Hc. subst c.
    unfold isDigitRun10to15 in Hrun.
    apply andb_true_iff in Hrun as [[Hd%allDigitsb_spec Hlen%Nat.leb_le]%andb_true_iff _].
    apply (Hnorm d); [done| |by right].
    intros ->. simpl in Hlen. lia.
  - destruct (isDigitRun10to15 (trim x)) eqn:Hrun; [|done].
    unfold isDigitRun10to15 in Hrun.
    apply andb_true_iff in Hrun as [[Hd%allDigitsb_spec Hlen%Nat.leb_le]%andb_true_iff _].
    apply (Hnorm (trim x)); [done| |by left].
    intros E. rewrite E in Hlen. simpl in Hlen. lia.
Qed.

Lemma normalizeWahaAllowEntry_forms d :
  allDigits d -> d <> [] ->
  normalizeWahaAllowEntry d = PLUS :: d
  /\ normalizeWahaAllowEntry (PLUS :: d) = PLUS :: d
  /\ normalizeWahaAllowEntry (d ++ js "@c.us") = PLUS :: d.
Proof.
  intros Hd Hne. unfold normalizeWahaAllowEntry. cbv zeta.
  fold (strippedOf d) (strippedOf (PLUS :: d)) (strippedOf (d ++ js "@c.us")).
  rewrite (strippedOf_digits d Hd), (strippedOf_plus_digits d Hd Hne),
    (strippedOf_chat_id d Hd Hne).
  rewrite (matchDigitsCUs_digits d Hd), (matchDigitsCUs_chat_id d Hd Hne).
  split; [|split].
  - rewrite (digitsOf_id d Hd). destruct d as [|c d']; [done|].
    inversion Hd; subst. change (js "+") with [43]. cbn [startsWith truthy].
    rewrite (digit_neq c 43); [|done|lia]. cbn [andb].
    unfold streq. by rewrite bool_decide_eq_true_2.
  - by change (matchDigitsCUs (PLUS :: d)) with (@None jsstring).
  - done.
Qed.

(** X4.  The three ways of writing one phone number in an allow-list, the
    bare digits, the digits with a plus sign and the direct chat id, are
    normalized to the same entry, the E.164-like form that [chatIdToE164]
    computes for a sender with that chat id. *)
Theorem X4_allow_entry_forms_agree d :
  allDigits d -> d <> [] ->
  normalizeWahaAllowEntry d = PLUS :: d
  /\ normalizeWahaAllowEntry (PLUS :: d) = PLUS :: d
  /\ normalizeWahaAllowEntry (d ++ js "@c.us") = PLUS :: d
  /\ chatIdToE164 (d ++ js "@c.us") = PLUS :: d.
Proof.
  intros Hd Hne.
  destruct (normalizeWahaAllowEntry_forms d Hd Hne) as (H1 & H2 & H3).
  do 3 (split; [done|]). by apply chatIdToE164_chat_id.
Qed.

Lemma X4_allow_entry_forms_agree_witness :
  normalizeWahaAllowEntry (js "5511976819114") = js "+5511976819114"
  /\ normalizeWahaAllowEntry (js "+5511976819114") = js "+5511976819114"
  /\ normalizeWahaAllowEntry (js "5511976819114@c.us") = js "+5511976819114".
Proof.
  assert (Hd : allDigits (js "5511976819114")).
  { unfold allDigits. repeat constructor. }
  assert (Hne : js "5511976819114" <> []) by discriminate.
  destruct (X4_allow_entry_forms_agree (js "5511976819114") Hd Hne)
    as (H1 & H2 & H3 & _).
  split; [exact H1|]. split; [exact H2|exact H3].
Defined.

Lemma X2_e164_chat_id_round_trip_witness :
  e164ToChatId (js "n/a") = js "n/a"
  /\ chatIdToE164 (e164ToChatId (js "+55 (11) 97681-9114")) = js "+5511976819114".
Proof.
  split.
  - apply (proj1 (X2_e164_chat_id_round_trip (js "n/a"))). reflexivity.
  - destruct (proj2 (X2_e164_chat_id_round_trip (js "+55 (11) 97681-9114")))
      as (_ & _ & H); [vm_compute; discriminate|exact H].
Defined.

Lemma X3_looksLike_normalizes_to_chat_id_witness :
  hasWahaSuffix (normalizeWahaTarget (js " +5511976819114 ")) = true.
Proof.
  apply (proj2 (X3_looksLike_normalizes_to_chat_id (js " +5511976819114 ")));
    vm_compute; reflexivity.
Defined.

Lemma matchDigitsCUs_group s : isGroupChatId s = true -> matchDigitsCUs s = None.
Proof.
  intros Hg. unfold matchDigitsCUs.
  destruct (truthy (take_while isDigit s)
            && equals_ci (js "@c.us") (drop_while isDigit s)) eqn:Hm; [|done].
  exfalso. apply andb_true_iff in Hm as [_ Heq].
  unfold equals_ci in Heq. apply andb_true_iff in Heq as [Hlen Hci].
  apply Nat.eqb_eq in Hlen. change (length (js "@c.us")) with 5%nat in Hlen.
  rewrite <- (take_drop_while isDigit s) in Hg.
  destruct (drop_while isDigit s) as [|a [|b [|c [|u [|e [|? ?]]]]]];
    try discriminate Hlen.
  change (js "@c.us") with [64; 99; 46; 117; 115] in Hci.
  cbn [startsWith_ci] in Hci.
  repeat (apply andb_true_iff in Hci as [? Hci]).
  unfold isGroupChatId, endsWith in Hg. rewrite rev_app_distr in Hg.
  change (rev [a; b; c; u; e]) with [e; u; c; b; a] in Hg.
  change (rev (js "@g.us")) with [115; 117; 46; 103; 64] in Hg.
  change (rev (js "@newsletter")) with (114 :: rev (js "@newslette")) in Hg.
  cbn [app startsWith] in Hg.
  apply orb_true_iff in Hg as [Hg|Hg].
  - repeat (apply andb_true_iff in Hg as [? Hg]).
    assert (b = 103) by (by symmetry; apply N.eqb_eq). subst b.
    match goal with
    | H : eqb_ci 99 103 = true |- _ => vm_compute in H; discriminate H
    end.
  - apply andb_true_iff in Hg as [He _].
    assert (e = 114) by (by symmetry; apply N.eqb_eq). subst e.
    match goal with
    | H : eqb_ci 115 114 = true |- _ => vm_compute in H; discriminate H
    end.
Qed.

(** X5.  The allow-entry normalizer returns a group or newsletter id as it
    is left by trimming and prefix removal; it does not turn it into a
    phone number. *)
Theorem X5_allow_entry_keeps_group_ids x :
  isGroupChatId (strippedOf x) = true ->
  normalizeWahaAllowEntry x = strippedOf x.
Proof.
  intros Hg. unfold normalizeWahaAllowEntry. cbv zeta. fold (strippedOf x).
  rewrite (matchDigitsCUs_group _ Hg).
  destruct (startsWith (js "+") (strippedOf x)); [done|].
  destruct (truthy (digitsOf (strippedOf x))
            && streq (digitsOf (strippedOf x)) (strippedOf x)) eqn:Hd; [|done].
  exfalso. apply andb_true_iff in Hd as [Ht Heq].
  apply bool_decide_eq_true_1 in Heq.
  pose proof (digitsOf_allDigits (strippedOf x)) as Hall. rewrite Heq in Hall.
  assert (Hne : strippedOf x <> []) by (intros E; by rewrite E in Hg).
  pose proof (digits_no_suffix _ Hall Hne) as Hns.
  unfold hasWahaSuffix in Hns. unfold isGroupChatId in Hg.
  apply orb_false_iff in Hns as [Hns Hn3]. apply orb_false_iff in Hns as [_ Hn2].
  rewrite Hn2, Hn3 in Hg. done.
Qed.

Lemma X5_allow_entry_keeps_group_ids_witness :
  normalizeWahaAllowEntry (js " waha:group:120363041234567890@g.us ")
  = js "120363041234567890@g.us".
Proof.
  apply (X5_allow_entry_keeps_group_ids (js " waha:group:120363041234567890@g.us ")).
  vm_compute. reflexivity.
Defined.

Lemma take_while_all f s : Forall (fun c => f c = true) (take_while f s).
Proof.
  induction s as [|c r IH]; simpl; [constructor|].
  destruct (f c) eqn:E; [by constructor|constructor].
Qed.

Lemma all_slashes (l : jsstring) :
  Forall (fun c => (SLASH =? c) = true) l -> l = repeat SLASH (length l).
Proof.
  induction 1 as [|c l Hc Hl IH]; simpl; [done|].
  apply N.eqb_eq in Hc. by rewrite <- Hc, <- IH.
Qed.

Lemma repeat_rev (c : N) n : rev (repeat c n) = repeat c n.
Proof.
  induction n as [|n IH]; simpl; [done|].
  rewrite IH. clear IH. induction n as [|n IH]; simpl; [done|]. by rewrite IH.
Qed.

(** X6.  The client's base URL is the configured URL without its trailing
    slashes: it never ends with a slash, only slashes were removed, and a
    request URL is that base followed by the path. *)
Theorem X6_baseUrl_has_no_trailing_slash (url path : jsstring) :
  endsWith (js "/") (WahaClient_baseUrl url) = false
  /\ (exists n, url = WahaClient_baseUrl url ++ repeat SLASH n)
  /\ WahaClient_baseUrl (WahaClient_baseUrl url) = WahaClient_baseUrl url
  /\ requestUrl url path = WahaClient_baseUrl url ++ path.
Proof.
  unfold requestUrl, WahaClient_baseUrl, endsWith.
  change (rev (js "/")) with [SLASH].
  pose proof (take_drop_while (N.eqb SLASH) (rev url)) as Hsplit.
  pose proof (take_while_all (N.eqb SLASH) (rev url)) as Hall.
  apply all_slashes in Hall.
  assert (Hurl : url = rev (drop_while (N.eqb SLASH) (rev url))
                       ++ repeat SLASH (length (take_while (N.eqb SLASH) (rev url)))).
  { rewrite <- (rev_involutive url) at 1. rewrite <- Hsplit at 1.
    rewrite rev_app_distr. f_equal. rewrite Hall at 1. apply repeat_rev. }
  rewrite !rev_involutive.
  destruct (drop_while_head (N.eqb SLASH) (rev url)) as [E|(c & r & E & Hc)].
  - rewrite E in Hurl |- *. simpl.
    split; [done|]. split; [eexists; exact Hurl|]. by split.
  - rewrite E in Hurl |- *. cbn [startsWith]. rewrite Hc.
    split; [done|]. split; [eexists; exact Hurl|]. split; [|done].
    cbn [drop_while]. by rewrite Hc.
Qed.

(** X7.  [messaging.normalizeTarget] returns undefined exactly for a blank
    input.  On an input whose remainder carries one of the three suffixes
    it returns what [normalizeWahaTarget] returns, and on a phone number,
    with or without plus sign, it returns the digits, which
    [normalizeWahaTarget] sends to the same chat id as the input. *)
Theorem X7_messaging_normalizeTarget x :
  (messaging_normalizeTarget x = None <-> trim x = [])
  /\ (hasWahaSuffix (strippedOf x) = true ->
      messaging_normalizeTarget x = Some (normalizeWahaTarget x))
  /\ (forall d, allDigits d -> d <> [] -> x = d \/ x = PLUS :: d ->
      messaging_normalizeTarget x = Some d
      /\ normalizeWahaTarget d = normalizeWahaTarget x).
Proof.
  unfold messaging_normalizeTarget. cbv zeta. fold (strippedOf x).
  fold (hasWahaSuffix (strippedOf x)).
  split; [|split].
  - destruct (trim x) as [|c r] eqn:E; cbn [truthy negb]; [done|].
    split; [|done].
    destruct (hasWahaSuffix (strippedOf x)); [done|].
    by destruct (startsWith (js "+") (strippedOf x)).
  - intros Hsuf.
    destruct (trim x) as [|c r] eqn:E; cbn [truthy negb].
    { unfold strippedOf in Hsuf. by rewrite E in Hsuf. }
    rewrite Hsuf. unfold normalizeWahaTarget. cbv zeta. fold (strippedOf x).
    by rewrite Hsuf.
  - intros d Hd Hne [->| ->].
    + assert (Ht : trim d = d).
      { apply trim_none; [|by apply digits_tail_clean].
        destruct d as [|c d']; [done|]. inversion Hd; subst.
        simpl. by apply digit_not_space. }
      rewrite Ht, (strippedOf_digits d Hd), (digits_no_suffix d Hd Hne).
      destruct d as [|c d']; [done|]. cbn [truthy negb]. inversion Hd; subst.
      change (js "+") with [43]. cbn [startsWith].
      by rewrite (digit_neq c 43); [|done|lia].
    + assert (Ht : trim (PLUS :: d) = PLUS :: d).
      { apply trim_none; [done|].
        destruct (allDigits_last d Hd Hne) as (t & c & -> & Hc).
        change (PLUS :: t ++ [c]) with ((PLUS :: t) ++ [c]).
        by apply trimEnd_snoc, digit_not_space. }
      rewrite Ht, (strippedOf_plus_digits d Hd Hne),
        (plus_digits_no_suffix d Hd Hne). cbn [truthy negb].
      change (startsWith (js "+") (PLUS :: d)) with true. cbv iota.
      split; [done|].
      by rewrite (normalize_digits d Hd Hne), (normalize_plus_digits d Hd Hne).
Qed.

Lemma X7_messaging_normalizeTarget_witness :
  messaging_normalizeTarget (js "   ") = None
  /\ messaging_normalizeTarget (js "waha:group:120363041234567890@g.us")
     = Some (js "120363041234567890@g.us")
  /\ messaging_normalizeTarget (js "+5511976819114") = Some (js "5511976819114").
Proof.
  split; [|split].
  - apply (proj1 (X7_messaging_normalizeTarget (js "   "))). reflexivity.
  - destruct (X7_messaging_normalizeTarget (js "waha:group:120363041234567890@g.us"))
      as (_ & H & _).
    rewrite H; reflexivity.
  - destruct (X7_messaging_normalizeTarget (js "+5511976819114")) as (_ & _ & H).
    destruct (H (js "5511976819114")) as [H1 _];
      [unfold allDigits; repeat constructor|discriminate|by right|exact H1].
Defined.

End NormalizerFacts.

(** ** Allow-lists and the normalizers together *)

(** X29.  A direct message from the chat id [d@c.us] is accepted under
    the allowlist and pairing policies as soon as the static allow-list
    or the pairing store holds the number in any of its three spellings:
    the bare digits, the digits with a plus sign, or the chat id. *)
Theorem X29_allowlisted_number_in_any_spelling
  (number : Type) (Number_toString : number -> jsstring)
  (readAllowFromStore : option (list jsstring))
  (account : ResolvedWahaAccount number) (d entry : jsstring) :
  allDigits d -> d <> [] ->
  effectiveDmPolicy number account <> DmDisabled ->
  EntryString number entry ∈ nullish (wc_allowFrom number (ra_config number account)) []
  \/ entry ∈ nullish readAllowFromStore [] ->
  entry = d \/ entry = PLUS :: d \/ entry = d ++ js "@c.us" ->
  let senderId := d ++ js "@c.us" in
  checkInboundAccessControl number Number_toString readAllowFromStore
    senderId (chatIdToE164 senderId) false account
  = {| allowed := true; reason := None |}.
Proof.
  intros Hd Hne Hpolicy Hin Hentry. cbv zeta.
  rewrite (chatIdToE164_chat_id d Hd Hne).
  assert (Hnorm : normalizeWahaAllowEntry entry = PLUS :: d).
  { destruct (normalizeWahaAllowEntry_forms d Hd Hne) as (H1 & H2 & H3).
    by destruct Hentry as [->|[->| ->]]. }
  assert (Hmatch : senderMatches number Number_toString readAllowFromStore
                     account (d ++ js "@c.us") (PLUS :: d)).
  { exists entry. split; [|by left]. apply elem_of_app.
    destruct Hin as [Hin|Hin]; [left|by right].
    apply list_elem_of_fmap. by exists (EntryString number entry). }
  apply (allowlist_matches number Number_toString readAllowFromStore) in Hmatch.
  cbv zeta in Hmatch.
  unfold effectiveDmPolicy in Hpolicy. unfold checkInboundAccessControl.
  cbv zeta.
  destruct (nullish (wc_dmPolicy number (ra_config number account)) DmPairing);
    [done| | |done]; by rewrite Hmatch.
Qed.

(** ** The claims at concrete inputs *)

Lemma C4_normalize_idempotent_witness :
  normalizeWahaTarget (normalizeWahaTarget (js " waha:user:+55 11 9768-19114 "))
  = normalizeWahaTarget (js " waha:user:+55 11 9768-19114 ").
Proof.
  apply (proj2 (C4_normalize_idempotent_iff (js " waha:user:+55 11 9768-19114 "))).
  vm_compute. reflexivity.
Defined.

Lemma C1_signature_length_mismatch_witness :
  let account : ResolvedWahaAccount unit :=
    {| ra_accountId := js "default"; ra_name := None; ra_enabled := true;
       ra_url := js "http://waha:3000"; ra_apiKey := js "key";
       ra_session := Some (js "default"); ra_hmacKey := Some (js "secret");
       ra_config := emptyWahaConfig unit |} in
  let req :=
    {| method := js "POST";
       x_webhook_hmac := HeaderString (js "deadbeef");
       x_webhook_hmac_algorithm := HeaderAbsent;
       requestBody := inr (js "{}") |} in
  handler unit
    (fun _ _ _ => inr (js "00112233445566778899aabbccddeeff"))
    (fun _ => inl (Error (js "not reached")))
    (fun _ _ w => (Ok tt, w)) None None account req (initialWorld unit)
  = (Ok tt,
     {| trace :=
          [EvLogError unit
             (js "webhook error: "
              ++ String_of_error ERR_CRYPTO_TIMING_SAFE_EQUAL_LENGTH);
           EvRespond unit 500 [contentTypeJson]
             (BodyJson [(js "error", js "Internal server error")])];
        headersSent := true |}).
Proof.
  intros account req.
  apply (C1_signature_length_mismatch_answers_500 unit
           (fun _ _ _ => inr (js "00112233445566778899aabbccddeeff"))
           (fun _ => inl (Error (js "not reached")))
           (fun _ _ w => (Ok tt, w)) None None account req
           (js "{}") (js "secret") (js "deadbeef") (js "sha512")
           (js "00112233445566778899aabbccddeeff"));
    try reflexivity.
  vm_compute. lia.
Defined.

Lemma C2_response_before_dispatch_witness :
  let account : ResolvedWahaAccount unit :=
    {| ra_accountId := js "default"; ra_name := None; ra_enabled := true;
       ra_url := js "http://waha:3000"; ra_apiKey := js "key";
       ra_session := Some (js "default"); ra_hmacKey := None;
       ra_config := emptyWahaConfig unit |} in
  let req :=
    {| method := js "POST";
       x_webhook_hmac := HeaderAbsent;
       x_webhook_hmac_algorithm := HeaderAbsent;
       requestBody := inr (js "{}") |} in
  let message : WahaPayload unit :=
    MessagePayload unit
      {| mp_id := js "m1"; mp_from := js "15551234567@c.us"; mp_to := None;
         mp_fromMe := false; mp_body := Some (js "hello"); mp_caption := None;
         mp_participant := None; mp_quotedMessage := None; mp_mediaUrl := None;
         mp_mimetype := None; mp_location := None; mp_notifyName := None |} in
  let payload :=
    {| ev_event := js "message"; ev_session := js "default";
       ev_payload := message |} in
  handler unit (fun _ _ _ => inl (Error (js "not reached")))
    (fun _ => inr payload)
    (fun _ _ w => (Hang, w)) None None account req (initialWorld unit)
  = (Hang,
     {| trace :=
          trace unit (acknowledged unit (js "{}") payload)
          ++ [EvOnMessage unit message (js "default")];
        headersSent := true |}).
Proof.
  intros account req message payload.
  assert (Hacc : hmacAccepted unit (fun _ _ _ => inl (Error (js "not reached")))
                   account req (js "{}")) by (left; reflexivity).
  destruct (C2_response_before_dispatch unit
              (fun _ _ _ => inl (Error (js "not reached")))
              (fun _ => inr payload) (fun _ _ w => (Hang, w)) None None
              account req (js "{}") payload eq_refl eq_refl Hacc eq_refl)
    as (_ & _ & H).
  apply H; reflexivity.
Defined.

Lemma C7_self_echo_suppressed_witness :
  let account : ResolvedWahaAccount unit :=
    {| ra_accountId := js "default"; ra_name := None; ra_enabled := true;
       ra_url := js "http://waha:3000"; ra_apiKey := js "key";
       ra_session := Some (js "default"); ra_hmacKey := None;
       ra_config := emptyWahaConfig unit |} in
  let req :=
    {| method := js "POST";
       x_webhook_hmac := HeaderAbsent;
       x_webhook_hmac_algorithm := HeaderAbsent;
       requestBody := inr (js "{}") |} in
  let payload : WahaWebhookPayload unit :=
    {| ev_event := js "message.any"; ev_session := js "default";
       ev_payload :=
         MessagePayload unit
           {| mp_id := js "m1"; mp_from := js "15551234567@c.us";
              mp_to := None; mp_fromMe := true; mp_body := Some (js "hello");
              mp_caption := None; mp_participant := None;
              mp_quotedMessage := None; mp_mediaUrl := None;
              mp_mimetype := None; mp_location := None;
              mp_notifyName := None |} |} in
  Forall (fun e => isHandlingEvent unit e = false)
    (traceOf unit
       (monitorHandler unit (fun _ => js "0")
          (fun _ _ _ => inl (Error (js "not reached")))
          (fun _ => inr payload) None (fun _ _ => js "pair")
          (fun s _ => [s]) (fun _ _ => inr (js "id"))
          (fun _ _ _ w => (Ok tt, w)) account req)).
Proof.
  intros account req payload.
  apply (C7_self_echo_suppressed unit (fun _ => js "0")
           (fun _ _ _ => inl (Error (js "not reached")))
           (fun _ => inr payload) None (fun _ _ => js "pair")
           (fun s _ => [s]) (fun _ _ => inr (js "id"))
           (fun _ _ _ w => (Ok tt, w)) account req (js "{}") payload);
    reflexivity.
Defined.

Lemma C8_resolveWahaAccount_witness :
  let work : WahaAccountConfig unit :=
    {| ac_enabled := None; ac_session := None; ac_name := None;
       ac_allowFrom := None; ac_groupAllowFrom := None; ac_dmPolicy := None;
       ac_groupPolicy := None; ac_mediaMaxMb := None; ac_webhookPath := None |} in
  let wahaConfig : WahaConfig unit :=
    {| wc_enabled := None; wc_url := Some (js "http://waha:3000");
       wc_apiKey := Some (js "key"); wc_session := Some (js "main");
       wc_name := None; wc_webhookPath := None; wc_hmacKey := None;
       wc_allowFrom := None; wc_groupAllowFrom := None; wc_dmPolicy := None;
       wc_groupPolicy := None; wc_mediaMaxMb := None;
       wc_accounts := Some [(js "work", work)] |} in
  let cfg := {| channels := Some {| waha := Some wahaConfig |} |} in
  ra_session unit (resolveWahaAccount unit (js "default") cfg (Some (js "work")))
  = None
  /\ ra_session unit (resolveWahaAccount unit (js "default") cfg (Some (js "home")))
     = Some (js "main")
  /\ ra_url unit
       (resolveWahaAccount unit (js "default") {| channels := None |} None)
     = []
  /\ ra_accountId unit
       (resolveWahaAccount unit (js "default") cfg (Some (js "toString")))
     = js "toString"
  /\ ra_session unit
       (resolveWahaAccount unit (js "default") cfg (Some (js "toString")))
     = None
  /\ isWahaAccountConfigured unit
       (resolveWahaAccount unit (js "default") cfg (Some (js "toString")))
     = false.
Proof.
  intros work wahaConfig cfg. split; [|split; [|split]].
  - destruct (C8_resolveWahaAccount unit (js "default") cfg (Some (js "work")))
      as (H & _ & _).
    apply (H work); [vm_compute; discriminate|reflexivity].
  - destruct (C8_resolveWahaAccount unit (js "default") cfg (Some (js "home")))
      as (_ & H & _).
    rewrite H; [reflexivity|right; reflexivity].
  - destruct (C8_resolveWahaAccount unit (js "default") {| channels := None |} None)
      as (_ & _ & H & _).
    apply H. reflexivity.
  - destruct (C8_resolveWahaAccount unit (js "default") cfg (Some (js "toString")))
      as (_ & _ & _ & H).
    destruct (H [(js "work", work)] (Some (js "toString"))) as [Hrecord Hconf];
      [vm_compute; discriminate|reflexivity|reflexivity|reflexivity|].
    split; [by rewrite Hrecord|]. split; [by rewrite Hrecord|exact Hconf].
Defined.

(** C9, counterexample.  With no channel-wide credentials and an accounts
    map whose first key is the default id, the list starts with the
    default id although the three fields are not populated. *)
Lemma C9_counterexample :
  let entry : WahaAccountConfig unit :=
    {| ac_enabled := None; ac_session := Some (js "s"); ac_name := None;
       ac_allowFrom := None; ac_groupAllowFrom := None; ac_dmPolicy := None;
       ac_groupPolicy := None; ac_mediaMaxMb := None; ac_webhookPath := None |} in
  let wahaConfig : WahaConfig unit :=
    {| wc_enabled := None; wc_url := None; wc_apiKey := None;
       wc_session := None; wc_name := None; wc_webhookPath := None;
       wc_hmacKey := None; wc_allowFrom := None; wc_groupAllowFrom := None;
       wc_dmPolicy := None; wc_groupPolicy := None; wc_mediaMaxMb := None;
       wc_accounts := Some [(js "default", entry); (js "work", entry)] |} in
  let cfg := {| channels := Some {| waha := Some wahaConfig |} |} in
  listWahaAccountIds unit (js "default") cfg = [js "default"; js "work"]
  /\ defaultCredentialed unit wahaConfig = false.
Proof. intros entry wahaConfig cfg. split; reflexivity. Qed.

Lemma C9_listWahaAccountIds_witness :
  let entry : WahaAccountConfig unit :=
    {| ac_enabled := None; ac_session := Some (js "s"); ac_name := None;
       ac_allowFrom := None; ac_groupAllowFrom := None; ac_dmPolicy := None;
       ac_groupPolicy := None; ac_mediaMaxMb := None; ac_webhookPath := None |} in
  let wahaConfig : WahaConfig unit :=
    {| wc_enabled := None; wc_url := Some (js "http://waha:3000");
       wc_apiKey := Some (js "key"); wc_session := Some (js "main");
       wc_name := None; wc_webhookPath := None; wc_hmacKey := None;
       wc_allowFrom := None; wc_groupAllowFrom := None; wc_dmPolicy := None;
       wc_groupPolicy := None; wc_mediaMaxMb := None;
       wc_accounts :=
         Some [(js "work", entry); (js "default", entry); (js "home", entry)] |} in
  let cfg := {| channels := Some {| waha := Some wahaConfig |} |} in
  listWahaAccountIds unit (js "default") cfg
  = [js "default"; js "work"; js "home"].
Proof.
  intros entry wahaConfig cfg.
  destruct (C9_listWahaAccountIds unit (js "default") cfg) as [_ H].
  assert (Hnd : NoDup [js "work"; js "default"; js "home"]).
  { apply (bool_decide_unpack _). vm_compute. exact I. }
  destruct (H wahaConfig [js "work"; js "default"; js "home"]
              eq_refl eq_refl Hnd) as (H1 & _).
  rewrite H1; reflexivity.
Defined.

Lemma C3_dm_access_control_witness :
  let base : WahaConfig unit := emptyWahaConfig unit in
  let account (policy : DmPolicy) (allowFrom : list (AllowEntry unit))
    : ResolvedWahaAccount unit :=
    {| ra_accountId := js "default"; ra_name := None; ra_enabled := true;
       ra_url := js "http://waha:3000"; ra_apiKey := js "key";
       ra_session := Some (js "default"); ra_hmacKey := None;
       ra_config :=
         {| wc_enabled := None; wc_url := None; wc_apiKey := None;
            wc_session := None; wc_name := None; wc_webhookPath := None;
            wc_hmacKey := None; wc_allowFrom := Some allowFrom;
            wc_groupAllowFrom := None; wc_dmPolicy := Some policy;
            wc_groupPolicy := None; wc_mediaMaxMb := None;
            wc_accounts := None |} |} in
  allowed
    (checkInboundAccessControl unit (fun _ => js "0") None
       (js "15551234567@c.us") (js "+15551234567") false
       (account DmAllowlist [EntryString unit (js "+15551234567")]))
  = true
  /\ reason
       (checkInboundAccessControl unit (fun _ => js "0") None
          (js "15551234567@c.us") (js "+15551234567") false
          (account DmPairing []))
     = Some (js "pairing required").
Proof.
  intros base account. split.
  - destruct (C3_dm_access_control unit (fun _ => js "0") None
                (fun _ _ => js "pair") (fun s _ => [s])
                (fun _ _ => inr (js "id")) (fun _ _ _ w => (Ok tt, w))
                (account DmAllowlist [EntryString unit (js "+15551234567")])
                (js "15551234567@c.us") (js "+15551234567"))
      as (_ & _ & H & _).
    apply H; [left; reflexivity|].
    exists (js "+15551234567"). split; [left|left; reflexivity].
  - destruct (C3_dm_access_control unit (fun _ => js "0") None
                (fun _ _ => js "pair") (fun s _ => [s])
                (fun _ _ => inr (js "id")) (fun _ _ _ w => (Ok tt, w))
                (account DmPairing [])
                (js "15551234567@c.us") (js "+15551234567"))
      as (_ & _ & _ & H & _).
    apply H; [right; reflexivity| |reflexivity].
    intros (e & He & _). simpl in He. by apply elem_of_nil in He.
Defined.

(** C10, counterexample.  With no WAHA section in the configuration the
    account is not configured, and [sendPayload] on a blank payload throws
    instead of succeeding. *)
Lemma C10_counterexample :
  let payload : ReplyPayload unit :=
    {| rp_text := Some (js "   "); rp_mediaUrls := None; rp_mediaUrl := None;
       rp_wahaLocation := None |} in
  blankPayload unit payload = true
  /\ forall result,
       outcomeOf unit
         (sendPayload unit (js "default") (fun s _ => [s])
            (fun _ _ => inr (js "id")) true
            (js "+15551234567") payload None {| channels := None |})
       <> Ok result.
Proof. intros payload. split; [reflexivity|]. intros result. vm_compute. discriminate. Qed.

Lemma C10_blank_payload_witness :
  let payload : ReplyPayload unit :=
    {| rp_text := Some (js "   "); rp_mediaUrls := Some []; rp_mediaUrl := None;
       rp_wahaLocation := None |} in
  let wahaConfig : WahaConfig unit :=
    {| wc_enabled := None; wc_url := Some (js "http://waha:3000");
       wc_apiKey := Some (js "key"); wc_session := Some (js "main");
       wc_name := None; wc_webhookPath := None; wc_hmacKey := None;
       wc_allowFrom := None; wc_groupAllowFrom := None; wc_dmPolicy := None;
       wc_groupPolicy := None; wc_mediaMaxMb := None; wc_accounts := None |} in
  let cfg := {| channels := Some {| waha := Some wahaConfig |} |} in
  sendPayload unit (js "default") (fun s _ => [s]) (fun _ _ => inr (js "id")) true
    (js "+15551234567") payload None cfg (initialWorld unit)
  = (Ok {| or_channel := js "waha"; or_messageId := js "sent";
           or_chatId := js "15551234567@c.us" |},
     initialWorld unit).
Proof.
  intros payload wahaConfig cfg.
  destruct (C10_blank_payload unit (js "default") (fun s _ => [s])
              (fun _ _ => inr (js "id")) true (js "+15551234567") payload None cfg
              eq_refl) as (_ & H & _).
  rewrite H; reflexivity.
Defined.

(** ** End-to-end runs of the registered handler

    An account with [allowFrom: ["+15551234567"]] receives a [message]
    event; the agent answers "hi".  Each event of the trace is shown by
    its kind: the sender on the allow-list is answered, the unknown sender
    is sent the pairing reply under the pairing policy and is dropped
    under the allowlist policy. *)
Example end_to_end_runs :
  let kind (e : Event unit) : string :=
    match e with
    | EvLog _ _ => "log"%string
    | EvLogError _ _ => "error"%string
    | EvRespond _ _ _ _ => "respond"%string
    | EvJsonParse _ _ => "parse"%string
    | EvOnMessage _ _ _ => "onMessage"%string
    | EvOnReaction _ _ _ => "onReaction"%string
    | EvOnSessionStatus _ _ _ => "onSessionStatus"%string
    | EvRecordState _ _ _ => "state"%string
    | EvAccessCheck _ _ _ _ => "access"%string
    | EvBuildPairingReply _ _ => "pairingReply"%string
    | EvUpsertPairingRequest _ _ _ => "pairingRequest"%string
    | EvClient _ _ => "client"%string
    | EvDispatchReply _ _ => "dispatch"%string
    end in
  let run (policy : DmPolicy) (sender : jsstring) : list string :=
    let account : ResolvedWahaAccount unit :=
      {| ra_accountId := js "default"; ra_name := None; ra_enabled := true;
         ra_url := js "http://waha:3000"; ra_apiKey := js "key";
         ra_session := Some (js "default"); ra_hmacKey := None;
         ra_config :=
           {| wc_enabled := None; wc_url := None; wc_apiKey := None;
              wc_session := None; wc_name := None; wc_webhookPath := None;
              wc_hmacKey := None;
              wc_allowFrom := Some [EntryString unit (js "+15551234567")];
              wc_groupAllowFrom := None; wc_dmPolicy := Some policy;
              wc_groupPolicy := None; wc_mediaMaxMb := None;
              wc_accounts := None |} |} in
    let payload : WahaWebhookPayload unit :=
      {| ev_event := js "message"; ev_session := js "default";
         ev_payload :=
           MessagePayload unit
             {| mp_id := js "m1"; mp_from := sender; mp_to := None;
                mp_fromMe := false; mp_body := Some (js "hello");
                mp_caption := None; mp_participant := None;
                mp_quotedMessage := None; mp_mediaUrl := None;
                mp_mimetype := None; mp_location := None;
                mp_notifyName := None |} |} in
    let req :=
      {| method := js "POST"; x_webhook_hmac := HeaderAbsent;
         x_webhook_hmac_algorithm := HeaderAbsent;
         requestBody := inr (js "{}") |} in
    List.map kind
      (traceOf unit
         (monitorHandler unit (fun _ => js "0")
            (fun _ _ _ => inl (Error (js "not reached")))
            (fun _ => inr payload) None (fun _ _ => js "pair")
            (fun s _ => [s]) (fun _ _ => inr (js "id"))
            (fun _ deliver _ =>
               deliver {| rp_text := Some (js "hi"); rp_mediaUrls := None;
                          rp_mediaUrl := None; rp_wahaLocation := None |})
            account req)) in
  run DmAllowlist (js "15551234567@c.us")
  = ["parse"; "respond"; "log"; "onMessage"; "state"; "access"; "dispatch";
     "client"; "state"]%string
  /\ run DmPairing (js "19998887777@c.us")
     = ["parse"; "respond"; "log"; "onMessage"; "state"; "access"; "log";
        "pairingReply"; "pairingRequest"; "client"]%string
  /\ run DmAllowlist (js "19998887777@c.us")
     = ["parse"; "respond"; "log"; "onMessage"; "state"; "access"; "log"]%string.
Proof. vm_compute. repeat split. Qed.

(** ** The further properties at concrete inputs *)

Lemma X9_default_account_is_first_listed_witness :
  let entry : WahaAccountConfig unit :=
    {| ac_enabled := None; ac_session := Some (js "s"); ac_name := None;
       ac_allowFrom := None; ac_groupAllowFrom := None; ac_dmPolicy := None;
       ac_groupPolicy := None; ac_mediaMaxMb := None; ac_webhookPath := None |} in
  let wahaConfig : WahaConfig unit :=
    {| wc_enabled := None; wc_url := Some (js "http://waha:3000");
       wc_apiKey := None; wc_session := None;
       wc_name := None; wc_webhookPath := None; wc_hmacKey := None;
       wc_allowFrom := None; wc_groupAllowFrom := None; wc_dmPolicy := None;
       wc_groupPolicy := None; wc_mediaMaxMb := None;
       wc_accounts := Some [(js "work", entry); (js "home", entry)] |} in
  resolveDefaultWahaAccountId unit (js "default")
    {| channels := Some {| waha := Some wahaConfig |} |}
  = js "work"
  /\ resolveDefaultWahaAccountId unit (js "default") {| channels := None |}
     = js "default".
Proof.
  intros entry wahaConfig. split.
  - apply (proj2 (X9_default_account_is_first_listed unit (js "default")
                    {| channels := Some {| waha := Some wahaConfig |} |})
             (js "work") [js "home"]); reflexivity.
  - apply (proj1 (X9_default_account_is_first_listed unit (js "default")
                    {| channels := None |})). reflexivity.
Defined.

Lemma X10_named_account_configured_witness :
  let work : WahaAccountConfig unit :=
    {| ac_enabled := None; ac_session := None; ac_name := None;
       ac_allowFrom := None; ac_groupAllowFrom := None; ac_dmPolicy := None;
       ac_groupPolicy := None; ac_mediaMaxMb := None; ac_webhookPath := None |} in
  let wahaConfig : WahaConfig unit :=
    {| wc_enabled := None; wc_url := Some (js "http://waha:3000");
       wc_apiKey := Some (js "key"); wc_session := Some (js "main");
       wc_name := None; wc_webhookPath := None; wc_hmacKey := None;
       wc_allowFrom := None; wc_groupAllowFrom := None; wc_dmPolicy := None;
       wc_groupPolicy := None; wc_mediaMaxMb := None;
       wc_accounts := Some [(js "work", work)] |} in
  let cfg := {| channels := Some {| waha := Some wahaConfig |} |} in
  isWahaAccountConfigured unit
    (resolveWahaAccount unit (js "default") cfg (Some (js "work")))
  = false.
Proof.
  intros work wahaConfig cfg.
  pose proof (X10_named_account_configured unit (js "default") cfg
                (Some (js "work")) work) as H.
  cbv zeta in H. destruct H as [_ H].
  - vm_compute. discriminate.
  - reflexivity.
  - apply H. reflexivity.
Defined.

Lemma X11_configured_accounts_raise_no_issue_witness :
  let account : ResolvedWahaAccount unit :=
    {| ra_accountId := js "work"; ra_name := None; ra_enabled := true;
       ra_url := js "http://waha:3000"; ra_apiKey := js "key";
       ra_session := Some (js "main"); ra_hmacKey := None;
       ra_config := emptyWahaConfig unit |} in
  collectStatusIssues (js "default") (describeAccount unit <$> [account]) = [].
Proof.
  intros account.
  destruct (X11_configured_accounts_raise_no_issue unit (js "default") [account])
    as (_ & H & _).
  - constructor; [reflexivity|constructor].
  - exact H.
Defined.

Lemma X12_listed_id_resolves_to_itself_witness :
  let work : WahaAccountConfig unit :=
    {| ac_enabled := None; ac_session := Some (js "s"); ac_name := None;
       ac_allowFrom := None; ac_groupAllowFrom := None; ac_dmPolicy := None;
       ac_groupPolicy := None; ac_mediaMaxMb := None; ac_webhookPath := None |} in
  let wahaConfig : WahaConfig unit :=
    {| wc_enabled := None; wc_url := Some (js "http://waha:3000");
       wc_apiKey := Some (js "key"); wc_session := Some (js "main");
       wc_name := None; wc_webhookPath := None; wc_hmacKey := None;
       wc_allowFrom := None; wc_groupAllowFrom := None; wc_dmPolicy := None;
       wc_groupPolicy := None; wc_mediaMaxMb := None;
       wc_accounts := Some [(js "work", work)] |} in
  let cfg := {| channels := Some {| waha := Some wahaConfig |} |} in
  ra_accountId unit
    (resolveWahaAccount unit (js "default") cfg (Some (js "work")))
  = js "work".
Proof.
  intros work wahaConfig cfg.
  apply (X12_listed_id_resolves_to_itself unit (js "default") cfg (js "work")).
  - apply (bool_decide_unpack _). vm_compute. exact I.
  - reflexivity.
Defined.

Lemma X13_setAccountEnabled_round_trip_witness :
  let work : WahaAccountConfig unit :=
    {| ac_enabled := None; ac_session := Some (js "s"); ac_name := None;
       ac_allowFrom := None; ac_groupAllowFrom := None; ac_dmPolicy := None;
       ac_groupPolicy := None; ac_mediaMaxMb := None; ac_webhookPath := None |} in
  let wahaConfig : WahaConfig unit :=
    {| wc_enabled := None; wc_url := Some (js "http://waha:3000");
       wc_apiKey := Some (js "key"); wc_session := Some (js "main");
       wc_name := None; wc_webhookPath := None; wc_hmacKey := None;
       wc_allowFrom := None; wc_groupAllowFrom := None; wc_dmPolicy := None;
       wc_groupPolicy := None; wc_mediaMaxMb := None;
       wc_accounts := Some [(js "work", work)] |} in
  let cfg := {| channels := Some {| waha := Some wahaConfig |} |} in
  let cfg' := setAccountEnabled unit (js "default") cfg (js "work") false in
  ra_enabled unit (resolveWahaAccount unit (js "default") cfg' (Some (js "work")))
  = false
  /\ ra_session unit
       (resolveWahaAccount unit (js "default") cfg' (Some (js "work")))
     = Some (js "s")
  /\ ra_enabled unit
       (resolveWahaAccount unit (js "default") cfg' (Some (js "default")))
     = true.
Proof.
  intros work wahaConfig cfg cfg'. subst cfg'.
  pose proof (X13_setAccountEnabled_round_trip unit (js "default") cfg
                (js "work") false eq_refl) as H.
  cbv zeta in H. destruct H as (_ & H1 & H2 & H3).
  split; [exact H1|]. split.
  - destruct H2 as (_ & _ & _ & H & _); [|rewrite H; reflexivity].
    right. apply (bool_decide_unpack _). vm_compute. exact I.
  - rewrite (H3 (js "default")); [reflexivity| |reflexivity|by left].
    vm_compute. discriminate.
Defined.

Lemma X14_deleteAccount_witness :
  let work : WahaAccountConfig unit :=
    {| ac_enabled := None; ac_session := Some (js "s"); ac_name := None;
       ac_allowFrom := None; ac_groupAllowFrom := None; ac_dmPolicy := None;
       ac_groupPolicy := None; ac_mediaMaxMb := None; ac_webhookPath := None |} in
  let wahaConfig : WahaConfig unit :=
    {| wc_enabled := None; wc_url := Some (js "http://waha:3000");
       wc_apiKey := Some (js "key"); wc_session := Some (js "main");
       wc_name := None; wc_webhookPath := None; wc_hmacKey := None;
       wc_allowFrom := None; wc_groupAllowFrom := None; wc_dmPolicy := None;
       wc_groupPolicy := None; wc_mediaMaxMb := None;
       wc_accounts := Some [(js "work", work)] |} in
  let cfg := {| channels := Some {| waha := Some wahaConfig |} |} in
  (js "work" ∉ listWahaAccountIds unit (js "default")
                 (deleteAccount unit (js "default") cfg (js "work")))
  /\ isWahaAccountConfigured unit
       (resolveWahaAccount unit (js "default")
          (deleteAccount unit (js "default") cfg (js "default"))
          (Some (js "work")))
     = false.
Proof.
  intros work wahaConfig cfg. split.
  - pose proof (X14_deleteAccount unit (js "default") cfg (js "work")) as H.
    cbv zeta in H. destruct H as (_ & H & _). apply H.
    vm_compute. discriminate.
  - pose proof (X14_deleteAccount unit (js "default") cfg (js "default")) as H.
    cbv zeta in H. destruct H as (_ & _ & H). by apply H.
Defined.

Lemma X15_handler_writes_one_response_witness :
  let account : ResolvedWahaAccount unit :=
    {| ra_accountId := js "default"; ra_name := None; ra_enabled := true;
       ra_url := js "http://waha:3000"; ra_apiKey := js "key";
       ra_session := Some (js "default"); ra_hmacKey := Some (js "secret");
       ra_config := emptyWahaConfig unit |} in
  let req :=
    {| method := js "PUT";
       x_webhook_hmac := HeaderAbsent;
       x_webhook_hmac_algorithm := HeaderAbsent;
       requestBody := inr (js "{}") |} in
  length
    (responsesOf unit
       (traceOf unit
          (handler unit (fun _ _ _ => inr (js "00ff"))
             (fun _ => inl (Error (js "not reached")))
             (fun _ _ w => (Ok tt, w)) None None account req)))
  = 1%nat.
Proof.
  intros account req.
  destruct (X15_handler_writes_one_response unit (fun _ _ _ => inr (js "00ff"))
              (fun _ => inl (Error (js "not reached")))
              (fun _ _ w => (Ok tt, w)) None None account req) as [_ H].
  - intros p s w. split; reflexivity.
  - intros f p s Hf. discriminate Hf.
  - intros f p s Hf. discriminate Hf.
  - exact H.
Defined.

Lemma X16_unauthenticated_post_is_not_processed_witness :
  let account : ResolvedWahaAccount unit :=
    {| ra_accountId := js "default"; ra_name := None; ra_enabled := true;
       ra_url := js "http://waha:3000"; ra_apiKey := js "key";
       ra_session := Some (js "default"); ra_hmacKey := Some (js "secret");
       ra_config := emptyWahaConfig unit |} in
  let req :=
    {| method := js "POST";
       x_webhook_hmac := HeaderArray [js "00ff"; js "00ff"];
       x_webhook_hmac_algorithm := HeaderAbsent;
       requestBody := inr (js "{}") |} in
  exists line statusCode err,
    handler unit (fun _ _ _ => inr (js "00ff"))
      (fun _ => inl (Error (js "not reached")))
      (fun _ _ w => (Ok tt, w)) None None account req (initialWorld unit)
    = (Ok tt,
       {| trace := [line;
                    EvRespond unit statusCode [contentTypeJson]
                      (BodyJson [(js "error", err)])];
          headersSent := true |})
    /\ (statusCode = 401 \/ statusCode = 500)
    /\ ((exists msg, line = EvLog unit msg)
        \/ (exists msg, line = EvLogError unit msg)).
Proof.
  intros account req.
  apply (X16_unauthenticated_post_is_not_processed unit
           (fun _ _ _ => inr (js "00ff"))
           (fun _ => inl (Error (js "not reached")))
           (fun _ _ w => (Ok tt, w)) None None account req (js "secret"));
    [reflexivity|reflexivity|reflexivity|].
  intros (rawBody & signature & algorithm & _ & H & _). discriminate H.
Defined.

Lemma X17_validateWahaHmac_accepts_only_the_digest_witness :
  validateWahaHmac (fun _ _ _ => inr (js "00ff"))
    (js "{}") (js "00ff") (js "secret") (js "sha512")
  = inr true.
Proof.
  assert (Hascii : Forall (fun c => c < 128) (js "00ff")).
  { vm_compute. repeat constructor. }
  apply (proj2 (X17_validateWahaHmac_accepts_only_the_digest
                  (fun _ _ _ => inr (js "00ff"))
                  (js "{}") (js "00ff") (js "secret") (js "sha512") (js "00ff")
                  eq_refl Hascii)).
  reflexivity.
Defined.

Lemma X18_rejected_signatures_answer_401_witness :
  let account : ResolvedWahaAccount unit :=
    {| ra_accountId := js "default"; ra_name := None; ra_enabled := true;
       ra_url := js "http://waha:3000"; ra_apiKey := js "key";
       ra_session := Some (js "default"); ra_hmacKey := Some (js "secret");
       ra_config := emptyWahaConfig unit |} in
  let req :=
    {| method := js "POST";
       x_webhook_hmac := HeaderString (js "00fe");
       x_webhook_hmac_algorithm := HeaderAbsent;
       requestBody := inr (js "{}") |} in
  handler unit (fun _ _ _ => inr (js "00ff"))
    (fun _ => inl (Error (js "not reached")))
    (fun _ _ w => (Ok tt, w)) None None account req (initialWorld unit)
  = (Ok tt,
     {| trace := [EvLog unit (js "waha: webhook HMAC validation failed");
                  EvRespond unit 401 [contentTypeJson]
                    (BodyJson [(js "error", js "Invalid HMAC signature")])];
        headersSent := true |}).
Proof.
  intros account req.
  assert (Hascii : Forall (fun c => c < 128) (js "00ff")).
  { vm_compute. repeat constructor. }
  pose proof (X18_rejected_signatures_answer_401 unit
                (fun _ _ _ => inr (js "00ff"))
                (fun _ => inl (Error (js "not reached")))
                (fun _ _ w => (Ok tt, w)) None None account req
                (js "{}") (js "secret") eq_refl eq_refl eq_refl eq_refl) as H.
  cbv zeta in H. destruct H as [_ H].
  apply (H (js "00fe") (js "sha512") (js "00ff") eq_refl eq_refl eq_refl Hascii).
  - reflexivity.
  - vm_compute. discriminate.
Defined.

Lemma X19_sender_of_message_context_witness :
  formatSenderDisplay (js "15551234567@c.us") (Some (js " "))
  = js "+15551234567".
Proof.
  pose proof (X19_sender_of_message_context unit
                {| mp_id := js "m1"; mp_from := js "15551234567@c.us";
                   mp_to := None; mp_fromMe := false;
                   mp_body := Some (js "hello"); mp_caption := None;
                   mp_participant := None; mp_quotedMessage := None;
                   mp_mediaUrl := None; mp_mimetype := None;
                   mp_location := None; mp_notifyName := Some (js " ") |}
                (js "default")
                {| ra_accountId := js "default"; ra_name := None;
                   ra_enabled := true; ra_url := js "http://waha:3000";
                   ra_apiKey := js "key"; ra_session := Some (js "default");
                   ra_hmacKey := None; ra_config := emptyWahaConfig unit |})
    as H.
  cbv zeta in H. destruct H as (_ & _ & _ & H).
  destruct (H (js " ") eq_refl eq_refl eq_refl) as [_ H'].
  etransitivity; [exact H'|reflexivity].
Defined.

Lemma X20_unreadable_body_answers_500_witness :
  let account : ResolvedWahaAccount unit :=
    {| ra_accountId := js "default"; ra_name := None; ra_enabled := true;
       ra_url := js "http://waha:3000"; ra_apiKey := js "key";
       ra_session := Some (js "default"); ra_hmacKey := None;
       ra_config := emptyWahaConfig unit |} in
  let req :=
    {| method := js "POST";
       x_webhook_hmac := HeaderAbsent;
       x_webhook_hmac_algorithm := HeaderAbsent;
       requestBody := inl (Error (js "aborted")) |} in
  handler unit (fun _ _ _ => inr (js "00ff"))
    (fun _ => inl (Error (js "not reached")))
    (fun _ _ w => (Ok tt, w)) None None account req (initialWorld unit)
  = (Ok tt,
     {| trace := [EvLogError unit (js "webhook error: "
                                   ++ String_of_error (Error (js "aborted")));
                  EvRespond unit 500 [contentTypeJson]
                    (BodyJson [(js "error", js "Internal server error")])];
        headersSent := true |}).
Proof.
  intros account req.
  destruct (X20_unreadable_body_answers_500 unit (fun _ _ _ => inr (js "00ff"))
              (fun _ => inl (Error (js "not reached")))
              (fun _ _ w => (Ok tt, w)) None None account req eq_refl)
    as [H _].
  apply H. reflexivity.
Defined.

Lemma X21_unhandled_events_are_dropped_witness :
  let account : ResolvedWahaAccount unit :=
    {| ra_accountId := js "default"; ra_name := None; ra_enabled := true;
       ra_url := js "http://waha:3000"; ra_apiKey := js "key";
       ra_session := Some (js "default"); ra_hmacKey := None;
       ra_config := emptyWahaConfig unit |} in
  let req :=
    {| method := js "POST";
       x_webhook_hmac := HeaderAbsent;
       x_webhook_hmac_algorithm := HeaderAbsent;
       requestBody := inr (js "{}") |} in
  let payload : WahaWebhookPayload unit :=
    {| ev_event := js "message.ack"; ev_session := js "default";
       ev_payload :=
         SessionStatusPayload unit
           {| sp_name := js "default"; sp_status := js "WORKING" |} |} in
  handler unit (fun _ _ _ => inl (Error (js "not reached")))
    (fun _ => inr payload)
    (fun _ _ w => (Ok tt, w)) None None account req (initialWorld unit)
  = (Ok tt,
     {| trace :=
          trace unit (acknowledged unit (js "{}") payload)
          ++ [EvLog unit (js "waha: ignoring unhandled event type "
                          ++ [QUOTE] ++ js "message.ack" ++ [QUOTE])];
        headersSent := true |}).
Proof.
  intros account req payload.
  assert (Hacc : hmacAccepted unit (fun _ _ _ => inl (Error (js "not reached")))
                   account req (js "{}")) by (left; reflexivity).
  pose proof (X21_unhandled_events_are_dropped unit
                (fun _ _ _ => inl (Error (js "not reached")))
                (fun _ => inr payload) (fun _ _ w => (Ok tt, w)) None None
                account req (js "{}") payload eq_refl eq_refl Hacc eq_refl
                eq_refl) as H.
  cbv zeta in H. destruct H as [H _].
  apply H; vm_compute; discriminate.
Defined.

Lemma X22_callback_failures_are_logged_witness :
  let account : ResolvedWahaAccount unit :=
    {| ra_accountId := js "default"; ra_name := None; ra_enabled := true;
       ra_url := js "http://waha:3000"; ra_apiKey := js "key";
       ra_session := Some (js "default"); ra_hmacKey := None;
       ra_config := emptyWahaConfig unit |} in
  let req :=
    {| method := js "POST";
       x_webhook_hmac := HeaderAbsent;
       x_webhook_hmac_algorithm := HeaderAbsent;
       requestBody := inr (js "{}") |} in
  let message : WahaPayload unit :=
    MessagePayload unit
      {| mp_id := js "m1"; mp_from := js "15551234567@c.us"; mp_to := None;
         mp_fromMe := false; mp_body := Some (js "hello"); mp_caption := None;
         mp_participant := None; mp_quotedMessage := None; mp_mediaUrl := None;
         mp_mimetype := None; mp_location := None; mp_notifyName := None |} in
  let payload :=
    {| ev_event := js "message"; ev_session := js "default";
       ev_payload := message |} in
  handler unit (fun _ _ _ => inl (Error (js "not reached")))
    (fun _ => inr payload)
    (fun _ _ w => (Throw (Error (js "boom")), w)) None None account req
    (initialWorld unit)
  = (Ok tt,
     {| trace :=
          trace unit (acknowledged unit (js "{}") payload)
          ++ [EvOnMessage unit message (js "default")]
          ++ [EvLogError unit (js "webhook message handler failed: "
                               ++ String_of_error (Error (js "boom")))];
        headersSent := true |}).
Proof.
  intros account req message payload.
  assert (Hacc : hmacAccepted unit (fun _ _ _ => inl (Error (js "not reached")))
                   account req (js "{}")) by (left; reflexivity).
  pose proof (X22_callback_failures_are_logged unit
                (fun _ _ _ => inl (Error (js "not reached")))
                (fun _ => inr payload)
                (fun _ _ w => (Throw (Error (js "boom")), w)) None None
                account req (js "{}") payload (Error (js "boom"))
                {| trace := trace unit (acknowledged unit (js "{}") payload)
                            ++ [EvOnMessage unit message (js "default")];
                   headersSent := true |}
                eq_refl eq_refl Hacc eq_refl) as H.
  cbv zeta in H. destruct H as [H _].
  rewrite H; reflexivity.
Defined.

Lemma X23_group_access_control_witness :
  let account : ResolvedWahaAccount unit :=
    {| ra_accountId := js "default"; ra_name := None; ra_enabled := true;
       ra_url := js "http://waha:3000"; ra_apiKey := js "key";
       ra_session := Some (js "default"); ra_hmacKey := None;
       ra_config :=
         {| wc_enabled := None; wc_url := None; wc_apiKey := None;
            wc_session := None; wc_name := None; wc_webhookPath := None;
            wc_hmacKey := None; wc_allowFrom := None;
            wc_groupAllowFrom := Some [EntryString unit (js "15551234567")];
            wc_dmPolicy := Some DmDisabled;
            wc_groupPolicy := None; wc_mediaMaxMb := None;
            wc_accounts := None |} |} in
  allowed
    (checkInboundAccessControl unit (fun _ => js "0") None
       (js "15551234567@c.us") (js "+15551234567") true account)
  = true.
Proof.
  intros account.
  pose proof (X23_group_access_control unit (fun _ => js "0") None
                (fun _ _ => js "pair") (fun s _ => [s])
                (fun _ _ => inr (js "id")) (fun _ _ _ w => (Ok tt, w))
                account (js "15551234567@c.us") (js "+15551234567")) as H.
  cbv zeta in H. destruct H as (H & _ & _).
  apply (proj2 H). right. split; [reflexivity|].
  exists (js "15551234567"). split; [left|left; reflexivity].
Defined.

Lemma X25_sendPayload_sends_in_order_witness :
  let payload : ReplyPayload unit :=
    {| rp_text := Some (js "hi"); rp_mediaUrls := None;
       rp_mediaUrl := Some (js "http://files/cat.png");
       rp_wahaLocation := None |} in
  let wahaConfig : WahaConfig unit :=
    {| wc_enabled := None; wc_url := Some (js "http://waha:3000");
       wc_apiKey := Some (js "key"); wc_session := Some (js "main");
       wc_name := None; wc_webhookPath := None; wc_hmacKey := None;
       wc_allowFrom := None; wc_groupAllowFrom := None; wc_dmPolicy := None;
       wc_groupPolicy := None; wc_mediaMaxMb := None; wc_accounts := None |} in
  let cfg := {| channels := Some {| waha := Some wahaConfig |} |} in
  let run :=
    sendPayload unit (js "default") (fun s _ => [s])
      (fun _ _ => inr (js "id")) true
      (js "+15551234567") payload None cfg (initialWorld unit) in
  trace unit (snd run)
  = [EvClient unit (SendText unit (Some (js "main")) (js "15551234567@c.us")
                      (js "hi") None);
     EvClient unit (SendImage unit (Some (js "main")) (js "15551234567@c.us")
                      (js "http://files/cat.png"))].
Proof.
  intros payload wahaConfig cfg run.
  pose proof (X25_sendPayload_sends_in_order unit (js "default")
                (fun s _ => [s]) (fun _ _ => inr (js "id")) true
                (js "+15551234567") payload None cfg (initialWorld unit)
                eq_refl eq_refl) as H.
  cbv zeta in H. fold run in H.
  assert (Hrun : exists result, fst run = Ok result)
    by (eexists; vm_compute; reflexivity).
  destruct Hrun as [result Hrun]. rewrite Hrun in H.
  destruct H as [H _]. rewrite H. vm_compute. reflexivity.
Defined.

Lemma X26_sendText_is_sendPayload_of_text_witness :
  let wahaConfig : WahaConfig unit :=
    {| wc_enabled := None; wc_url := Some (js "http://waha:3000");
       wc_apiKey := Some (js "key"); wc_session := Some (js "main");
       wc_name := None; wc_webhookPath := None; wc_hmacKey := None;
       wc_allowFrom := None; wc_groupAllowFrom := None; wc_dmPolicy := None;
       wc_groupPolicy := None; wc_mediaMaxMb := None; wc_accounts := None |} in
  let cfg := {| channels := Some {| waha := Some wahaConfig |} |} in
  sendText unit (js "default") (fun s _ => [s]) (fun _ _ => inr (js "id")) true
    (js "+15551234567") (js "hi") None cfg (initialWorld unit)
  = sendPayload unit (js "default") (fun s _ => [s])
      (fun _ _ => inr (js "id")) true (js "+15551234567")
      {| rp_text := Some (js "hi"); rp_mediaUrls := None; rp_mediaUrl := None;
         rp_wahaLocation := None |}
      None cfg (initialWorld unit).
Proof.
  intros wahaConfig cfg.
  apply (X26_sendText_is_sendPayload_of_text unit (js "default")
           (fun s _ => [s]) (fun _ _ => inr (js "id")) true
           (js "+15551234567") (js "hi") None cfg (initialWorld unit)).
  reflexivity.
Defined.

Lemma X27_guarded_reply_never_rejects_witness :
  let account : ResolvedWahaAccount unit :=
    {| ra_accountId := js "default"; ra_name := None; ra_enabled := true;
       ra_url := js "http://waha:3000"; ra_apiKey := js "key";
       ra_session := Some (js "default"); ra_hmacKey := None;
       ra_config := emptyWahaConfig unit |} in
  let payload : WahaMessagePayload unit :=
    {| mp_id := js "m1"; mp_from := js "15551234567@c.us"; mp_to := None;
       mp_fromMe := false; mp_body := Some (js "hello"); mp_caption := None;
       mp_participant := None; mp_quotedMessage := None; mp_mediaUrl := None;
       mp_mimetype := None; mp_location := None; mp_notifyName := None |} in
  let ctx := fst (fst (fst (buildMsgContext unit payload (js "default") account))) in
  dispatchReplyGuarded unit (fun s _ => [s])
    (fun _ _ => inl (Error (js "unreachable")))
    (fun _ _ _ w => (Throw (Error (js "agent failed")), w))
    account ctx payload (initialWorld unit)
  = (Ok tt,
     {| trace :=
          [EvLogError unit (js "auto-reply failed: Error: agent failed");
           EvClient unit
             (SendText unit (Some (js "default")) (js "15551234567@c.us")
                (js "Sorry, I encountered an error processing your message.")
                None);
           EvLogError unit (js "error reply failed: Error: unreachable")];
        headersSent := false |}).
Proof.
  intros account payload ctx.
  pose proof (X27_guarded_reply_never_rejects unit (fun s _ => [s])
                (fun _ _ => inl (Error (js "unreachable")))
                (fun _ _ _ w => (Throw (Error (js "agent failed")), w))
                account ctx payload (initialWorld unit)) as H.
  cbv zeta in H. destruct H as (_ & H & _).
  destruct (H (Error (js "agent failed")) eq_refl) as [Hok Htrace].
  destruct (dispatchReplyGuarded unit (fun s _ => [s])
              (fun _ _ => inl (Error (js "unreachable")))
              (fun _ _ _ w => (Throw (Error (js "agent failed")), w))
              account ctx payload (initialWorld unit)) as [o [tr sent]] eqn:E.
  cbn [fst snd trace] in Hok, Htrace. subst o. rewrite Htrace.
  assert (Hsent : sent = false).
  { change sent with (headersSent unit (snd (Ok tt, {| trace := tr; headersSent := sent |}))).
    rewrite <- E. reflexivity. }
  rewrite Hsent. vm_compute. reflexivity.
Defined.

Lemma X28_runtime_state_round_trip_witness :
  let patch : RuntimeStatePatch unit :=
    {| p_running := Some true; p_lastStartAt := Some (Some tt);
       p_lastStopAt := None; p_lastError := None; p_lastInboundAt := None;
       p_lastOutboundAt := None |} in
  getWahaRuntimeState unit
    (recordRuntimeState unit ∅ (js "waha") (js "work") patch) (js "home")
  = None.
Proof.
  intros patch.
  pose proof (X28_runtime_state_round_trip unit ∅ (js "work") patch) as H.
  cbv zeta in H. destruct H as (_ & H & _).
  rewrite (H (js "home")); [reflexivity|].
  vm_compute. discriminate.
Defined.

Lemma X29_allowlisted_number_in_any_spelling_witness :
  let account : ResolvedWahaAccount unit :=
    {| ra_accountId := js "default"; ra_name := None; ra_enabled := true;
       ra_url := js "http://waha:3000"; ra_apiKey := js "key";
       ra_session := Some (js "default"); ra_hmacKey := None;
       ra_config :=
         {| wc_enabled := None; wc_url := None; wc_apiKey := None;
            wc_session := None; wc_name := None; wc_webhookPath := None;
            wc_hmacKey := None;
            wc_allowFrom := Some [EntryString unit (js "15551234567")];
            wc_groupAllowFrom := None; wc_dmPolicy := None;
            wc_groupPolicy := None; wc_mediaMaxMb := None;
            wc_accounts := None |} |} in
  checkInboundAccessControl unit (fun _ => js "0") None
    (js "15551234567@c.us") (chatIdToE164 (js "15551234567@c.us")) false account
  = {| allowed := true; reason := None |}.
Proof.
  intros account.
  assert (Hd : allDigits (js "15551234567")).
  { unfold allDigits. repeat constructor. }
  assert (Hne : js "15551234567" <> []) by discriminate.
  apply (X29_allowlisted_number_in_any_spelling unit (fun _ => js "0") None
           account (js "15551234567") (js "15551234567") Hd Hne).
  - vm_compute. discriminate.
  - left. left.
  - left. reflexivity.
Defined.

Lemma X30_monitor_handler_writes_one_response_witness :
  let account : ResolvedWahaAccount unit :=
    {| ra_accountId := js "default"; ra_name := None; ra_enabled := true;
       ra_url := js "http://waha:3000"; ra_apiKey := js "key";
       ra_session := Some (js "default"); ra_hmacKey := None;
       ra_config := emptyWahaConfig unit |} in
  let req :=
    {| method := js "POST";
       x_webhook_hmac := HeaderAbsent;
       x_webhook_hmac_algorithm := HeaderAbsent;
       requestBody := inr (js "{}") |} in
  let payload : WahaWebhookPayload unit :=
    {| ev_event := js "message"; ev_session := js "default";
       ev_payload :=
         MessagePayload unit
           {| mp_id := js "m1"; mp_from := js "15551234567@c.us";
              mp_to := None; mp_fromMe := false; mp_body := Some (js "hello");
              mp_caption := None; mp_participant := None;
              mp_quotedMessage := None; mp_mediaUrl := None;
              mp_mimetype := None; mp_location := None;
              mp_notifyName := None |} |} in
  length
    (responsesOf unit
       (traceOf unit
          (monitorHandler unit (fun _ => js "0")
             (fun _ _ _ => inl (Error (js "not reached")))
             (fun _ => inr payload) None (fun _ _ => js "pair")
             (fun s _ => [s]) (fun _ _ => inr (js "id"))
             (fun _ deliver _ =>
                deliver {| rp_text := Some (js "hi"); rp_mediaUrls := None;
                           rp_mediaUrl := None; rp_wahaLocation := None |})
             account req)))
  = 1%nat.
Proof.
  intros account req payload.
  destruct (X30_monitor_handler_writes_one_response unit (fun _ => js "0")
              (fun _ _ _ => inl (Error (js "not reached")))
              (fun _ => inr payload) None (fun _ _ => js "pair")
              (fun s _ => [s]) (fun _ _ => inr (js "id"))
              (fun _ deliver _ =>
                 deliver {| rp_text := Some (js "hi"); rp_mediaUrls := None;
                            rp_mediaUrl := None; rp_wahaLocation := None |})
              account req) as [_ H].
  - intros ctx deliver onError Hdeliver _. apply Hdeliver.
  - exact H.
Defined.
